(** * Confusion-matrix based Dice coefficient

    A shallow embedding of the notebook classes [ConfusionMatrix],
    [ConfusionMatrixBasedMetric] and [DiceCoefficient], together with the
    fragments of NumPy they call, and the properties of the accumulate /
    query cycle.

    Conventions of the embedding.
    - A NumPy array or a torch tensor is a shape together with its
      row-major data ([ndarray]); [detach().cpu().numpy()] changes neither.
      Class labels are integers ([Z]); a float tensor of whole numbers,
      as the ground truth of the notebook, is read as those integers.
    - The count matrix has dtype [int32]: its cells are integers kept in
      the signed 32-bit range by [Int32.wrap].
    - A Python exception is a value of [exn]; a call that may raise
      returns a [result].
    - The array object returned by [ConfusionMatrix.value] is either the
      object [self.conf] itself or a fresh array; [DiceCoefficient.value]
      writes through it, so the two cases are kept apart ([view]).
    - Floats are exact rationals next to not-a-number and the infinities
      ([np_float]) where a result does not depend on rounding, and IEEE
      754 numbers ([spec_float], in [Binary32] and [Binary64]) where it
      does. *)

From Stdlib Require Import String QArith Qcanon ZArith List Bool Arith Lia.
From Stdlib Require Import Qabs Qpower Lqa Permutation.
From Stdlib Require Import Floats.SpecFloat.
Import ListNotations.

Set Implicit Arguments.
Local Close Scope Qc_scope.
Local Close Scope Q_scope.
Local Open Scope nat_scope.

(* ================================================================= *)
(** ** Exceptions *)

Inductive exn : Type :=
| IndexError
| ValueError
| TypeError.

Inductive result (A : Type) : Type :=
| Ok (a : A)
| Raise (e : exn).

Arguments Ok {A} a.
Arguments Raise {A} e.

Definition bind {A B : Type} (c : result A) (k : A -> result B) : result B :=
  match c with
  | Ok a => k a
  | Raise e => Raise e
  end.

Notation "x <- c ;; k" := (bind c (fun x => k))
  (at level 61, c at next level, right associativity).

Definition raises {A : Type} (c : result A) : Prop :=
  exists e, c = Raise e.

(* ================================================================= *)
(** ** Signed 32-bit integers (dtype [np.int32]) *)

Module Int32.

Definition min_int : Z := - 2 ^ 31.
Definition max_int : Z := 2 ^ 31 - 1.

Definition in_range (x : Z) : bool :=
  ((min_int <=? x) && (x <=? max_int))%Z.

(** Two's-complement wrap-around of integer arithmetic on the dtype. *)
Definition wrap (x : Z) : Z := ((x + 2 ^ 31) mod 2 ^ 32 - 2 ^ 31)%Z.

Definition add (a b : Z) : Z := wrap (a + b).
Definition mul (a b : Z) : Z := wrap (a * b).

(** [astype(np.int32)] of a float64 holding the whole number [x].  In
    range the cast is exact.  Out of range the C cast is undefined; on
    x86-64 it produces the "integer indefinite" value [min_int]. *)
Definition of_float (x : Z) : Z :=
  if in_range x then x else min_int.

End Int32.

(* ================================================================= *)
(** ** Arrays *)

Record ndarray (A : Type) : Type := mk_ndarray {
  shape : list nat;
  data : list A
}.

Definition size (sh : list nat) : nat := fold_right Nat.mul 1%nat sh.

Definition ndim {A} (a : ndarray A) : nat := length (shape a).

(** The data of an array fills its shape. *)
Definition wf_array {A} (a : ndarray A) : Prop :=
  length (data a) = size (shape a).

Definition map_array {A B} (f : A -> B) (a : ndarray A) : ndarray B :=
  mk_ndarray (shape a) (map f (data a)).

(** A rank-1 array. *)
Definition vector {A} (l : list A) : ndarray A :=
  mk_ndarray [length l] l.

(** All positions of an array of shape [sh], in row-major order. *)
Fixpoint indices (sh : list nat) : list (list nat) :=
  match sh with
  | [] => [[]]
  | d :: ds => flat_map (fun i => map (cons i) (indices ds)) (seq 0 d)
  end.

(** Row-major offset of a position. *)
Fixpoint ravel (sh idx : list nat) : nat :=
  match sh, idx with
  | _ :: ds, i :: idx' => i * size ds + ravel ds idx'
  | _, _ => 0
  end.

Fixpoint in_bounds (sh idx : list nat) : bool :=
  match sh, idx with
  | d :: ds, i :: idx' => (i <? d)%nat && in_bounds ds idx'
  | _, [] => true
  | [], _ :: _ => false
  end.

(** [np.where(mask)]: the positions at which [mask] holds, as one index
    array per axis of [mask]; here the number of axes and the list of
    positions.  A 0-d argument is refused (NumPy 2.1 and later; earlier
    releases warn and read it as a vector of one element). *)
Definition np_where (mask : ndarray bool) : result (nat * list (list nat)) :=
  match shape mask with
  | [] => Raise ValueError
  | sh =>
      Ok (length sh,
          map fst (filter snd (combine (indices sh) (data mask))))
  end.

(** [a[idx].flatten()] for [idx] a tuple of [k] index arrays: the [k]
    leading axes of [a] are indexed, the remaining axes are kept whole.
    More index arrays than axes, or an index outside its axis, is an
    [IndexError]. *)
Definition take_flat {A} (a : ndarray A) (idx : nat * list (list nat))
  : result (list A) :=
  let (k, positions) := idx in
  if (ndim a <? k)%nat then Raise IndexError
  else if forallb (in_bounds (shape a)) positions then
    let r := size (skipn k (shape a)) in
    Ok (flat_map
          (fun p =>
             firstn r (skipn (ravel (firstn k (shape a)) p * r) (data a)))
          positions)
  else Raise IndexError.

(** [np.vstack((t, p)).T]: the rows must have one length. *)
Definition vstack_T {A} (t p : list A) : result (list (A * A)) :=
  if (length t =? length p)%nat then Ok (combine t p) else Raise ValueError.

(* ================================================================= *)
(** ** [np.histogramdd] on two axes with [bins = (n, n)] and
       [range = [(0, n), (0, n)]] *)

(** The bin edges [linspace(0, n, n + 1)]. *)
Definition edges (n : nat) : list Z := map Z.of_nat (seq 0 (S n)).

Definition searchsorted_right (e : list Z) (v : Z) : nat :=
  length (filter (fun x => (x <=? v)%Z) e).

(** Bin number of a value: [0] and [n + 1] are the two outlier bins.  A
    value on the rightmost edge is moved from the outlier bin into the
    last bin. *)
Definition bin_number (n : nat) (v : Z) : nat :=
  let k := searchsorted_right (edges n) v in
  if (v =? Z.of_nat n)%Z then Nat.pred k else k.

Definition count {A} (f : A -> bool) (l : list A) : Z :=
  Z.of_nat (length (filter f l)).

(** The histogram with the outlier bins removed (the core [1:-1] of each
    axis): cell [(i, j)] counts the samples with bin numbers
    [(i + 1, j + 1)]. *)
Definition in_cell (n i j : nat) (s : Z * Z) : bool :=
  (bin_number n (fst s) =? S i)%nat && (bin_number n (snd s) =? S j)%nat.

Definition counts (n : nat) (sample : list (Z * Z)) : list (list Z) :=
  map (fun i => map (fun j => count (in_cell n i j) sample) (seq 0 n))
      (seq 0 n).

(** A number of bins below one is refused. *)
Definition histogramdd (n : nat) (sample : list (Z * Z))
  : result (list (list Z)) :=
  if (n <? 1)%nat then Raise ValueError else Ok (counts n sample).

(* ================================================================= *)
(** ** Integer matrices *)

Definition matrix := list (list Z).

Definition zeros (n : nat) : matrix := repeat (repeat 0%Z n) n.

Definition cell (m : matrix) (i j : nat) : Z := nth j (nth i m []) 0%Z.

Definition sum_list (l : list Z) : Z := fold_right Z.add 0%Z l.

Definition sum_all (m : matrix) : Z := sum_list (map sum_list m).

Fixpoint map2 {A B C} (f : A -> B -> C) (l : list A) (l' : list B) : list C :=
  match l, l' with
  | a :: t, b :: t' => f a b :: map2 f t t'
  | _, _ => []
  end.

(** Element-wise sum of two [int32] matrices of one shape. *)
Definition matrix_add (a b : matrix) : matrix := map2 (map2 Int32.add) a b.

Definition astype_int32 (m : matrix) : matrix := map (map Int32.of_float) m.

Definition square (n : nat) (m : matrix) : Prop :=
  length m = n /\ Forall (fun row => length row = n) m.

(* ================================================================= *)
(** ** Floating-point values

    A float is modelled by the exact rational it stands for, next to the
    IEEE special values: rounding and the sign of zero are left out,
    not-a-number and the infinities are kept. *)

Inductive np_float : Type :=
| NaN
| Inf (negative : bool)
| Fin (q : Qc).

Definition fmatrix := list (list np_float).

Module Float.

Definition of_Z (z : Z) : np_float := Fin (Q2Qc (inject_Z z)).

Definition zero : np_float := of_Z 0.
Definition one : np_float := of_Z 1.

Definition is_nan (x : np_float) : bool :=
  match x with NaN => true | _ => false end.

Definition is_zero (q : Qc) : bool := Qc_eq_bool q (Q2Qc 0).

Definition is_neg (q : Qc) : bool :=
  match Qccompare q (Q2Qc 0) with Lt => true | _ => false end.

Definition neg (x : np_float) : np_float :=
  match x with
  | NaN => NaN
  | Inf s => Inf (negb s)
  | Fin q => Fin (Qcopp q)
  end.

Definition add (x y : np_float) : np_float :=
  match x, y with
  | NaN, _ | _, NaN => NaN
  | Inf s, Inf s' => if Bool.eqb s s' then Inf s else NaN
  | Inf s, Fin _ => Inf s
  | Fin _, Inf s => Inf s
  | Fin p, Fin q => Fin (Qcplus p q)
  end.

Definition sub (x y : np_float) : np_float := add x (neg y).

Definition mul (x y : np_float) : np_float :=
  match x, y with
  | NaN, _ | _, NaN => NaN
  | Inf s, Inf s' => Inf (xorb s s')
  | Inf s, Fin q | Fin q, Inf s =>
      if is_zero q then NaN else Inf (xorb s (is_neg q))
  | Fin p, Fin q => Fin (Qcmult p q)
  end.

Definition div (x y : np_float) : np_float :=
  match x, y with
  | NaN, _ | _, NaN => NaN
  | Inf _, Inf _ => NaN
  | Inf s, Fin q => Inf (xorb s (is_neg q))
  | Fin _, Inf _ => zero
  | Fin p, Fin q =>
      if is_zero q then (if is_zero p then NaN else Inf (is_neg p))
      else Fin (Qcdiv p q)
  end.

(** [x.clip(min=lo)] for a finite bound [lo]. *)
Definition clip_min (lo : Qc) (x : np_float) : np_float :=
  match x with
  | NaN => NaN
  | Inf true => Fin lo
  | Inf false => Inf false
  | Fin q => match Qccompare q lo with Lt => Fin lo | _ => Fin q end
  end.

Definition sum (l : list np_float) : np_float := fold_right add zero l.

End Float.

(** IEEE 754 arithmetic, where a result depends on rounding: the
    quotient of two equal numbers behind the perfect-prediction result,
    the Dice quotient of two counts, and the rows of the normalized
    matrix.  The unnormalized counts are integers divided as
    [np.float64] (binary64), the normalized ones are [np.float32]
    (binary32).  Conversion from an integer, addition and division all
    round to nearest, ties to even. *)
Module Binary64.

Definition prec : Z := 53.
Definition emax : Z := 1024.

Definition of_Z (z : Z) : spec_float := binary_normalize prec emax z 0 false.

Definition one : spec_float := Eval vm_compute in SFone prec emax.

Definition div (x y : spec_float) : spec_float := SFdiv prec emax x y.

End Binary64.

Module Binary32.

Definition prec : Z := 24.
Definition emax : Z := 128.

Definition one : spec_float := Eval vm_compute in SFone prec emax.

Definition div (x y : spec_float) : spec_float := SFdiv prec emax x y.

(** [astype(np.float32)] of an integer. *)
Definition of_Z (z : Z) : spec_float := binary_normalize prec emax z 0 false.

Definition add (x y : spec_float) : spec_float := SFadd prec emax x y.

(** The constant [1e-12] as a [float32]: 9223372 * 2^-63. *)
Definition epsilon : spec_float := S754_finite false 9223372 (-63).

(** [x.clip(min=lo)], that is [np.maximum(x, lo)]. *)
Definition clip_min (lo x : spec_float) : spec_float :=
  match SFcompare x lo with
  | Some Lt => lo
  | _ => x
  end.

(** The entries added from left to right, starting from zero. *)
Definition sum (l : list spec_float) : spec_float :=
  fold_left add l (S754_zero false).

End Binary32.

(** What [sum(1)] may return for a row of [float32] entries.  NumPy adds
    them in [float32], each addition rounded, in an order of its own
    (pairwise, in blocks, starting from a zero): any order and any
    bracketing is allowed for. *)
Inductive float32_sum : list spec_float -> spec_float -> Prop :=
| sum_nil (s : bool) : float32_sum [] (S754_zero s)
| sum_one (x : spec_float) : float32_sum [x] x
| sum_app (l1 l2 : list spec_float) (s1 s2 : spec_float) :
    float32_sum l1 s1 -> float32_sum l2 s2 ->
    float32_sum (l1 ++ l2) (Binary32.add s1 s2)
| sum_perm (l l' : list spec_float) (s : spec_float) :
    Permutation l l' -> float32_sum l s -> float32_sum l' s.

(** [np.nanmean] of a float vector: not-a-number entries are replaced by
    zero in the sum and left out of the count. *)
Definition nanmean (a : list np_float) : np_float :=
  let arr := map (fun x => if Float.is_nan x then Float.zero else x) a in
  let cnt := count (fun x => negb (Float.is_nan x)) a in
  Float.div (Float.sum arr) (Float.of_Z cnt).

(** The plain arithmetic mean. *)
Definition mean (a : list np_float) : np_float :=
  Float.div (Float.sum a) (Float.of_Z (Z.of_nat (length a))).

(* ================================================================= *)
(** ** Indexing by a tuple of class indices *)

Fixpoint mapi_from {A B} (f : nat -> A -> B) (i : nat) (l : list A) : list B :=
  match l with
  | [] => []
  | x :: t => f i x :: mapi_from f (S i) t
  end.

Definition mapi {A B} (f : nat -> A -> B) (l : list A) : list B :=
  mapi_from f 0 l.

Definition mem (i : nat) (idx : list nat) : bool := existsb (Nat.eqb i) idx.

(** [m[:, idx] = z]. *)
Definition set_columns {A} (z : A) (idx : list nat) (m : list (list A))
  : list (list A) :=
  map (mapi (fun j x => if mem j idx then z else x)) m.

(** [m[idx, :] = z]. *)
Definition set_rows {A} (z : A) (idx : list nat) (m : list (list A))
  : list (list A) :=
  mapi (fun i row => if mem i idx then map (fun _ => z) row else row) m.

(** [np.delete(a, idx)]. *)
Definition np_delete {A} (a : list A) (idx : list nat) : list A :=
  map snd (filter (fun p => negb (mem (fst p) idx))
                  (combine (seq 0 (length a)) a)).

(** [np.diag(m)]. *)
Definition diag {A} (d : A) (m : list (list A)) : list A :=
  mapi (fun i row => nth i row d) m.

(** Column [j] of [m]. *)
Definition column {A} (d : A) (m : list (list A)) (j : nat) : list A :=
  map (fun row => nth j row d) m.

(** An index into an axis of length [n]; a negative index counts from the
    end. *)
Definition norm_index (n : nat) (i : Z) : option nat :=
  if ((0 <=? i) && (i <? Z.of_nat n))%Z then Some (Z.to_nat i)
  else if ((- Z.of_nat n <=? i) && (i <? 0))%Z
       then Some (Z.to_nat (i + Z.of_nat n))
       else None.

(* ================================================================= *)
(** ** [class ConfusionMatrix] *)

Module ConfusionMatrix.

Record t : Type := mk {
  num_classes : nat;
  normalized : bool;
  conf : matrix
}.

Definition set_conf (self : t) (c : matrix) : t :=
  mk (num_classes self) (normalized self) c.

(** [reset]: [self.conf.fill(0)]. *)
Definition reset (self : t) : t :=
  set_conf self (zeros (num_classes self)).

(** [__init__]. *)
Definition init (num_classes : nat) (normalized : bool) : t :=
  reset (mk num_classes normalized (zeros num_classes)).

Definition valid_label (n : nat) (v : Z) : bool :=
  ((0 <=? v) && (v <? Z.of_nat n))%Z.

(** [add]. *)
Definition add (self : t) (pred target : ndarray Z) : result t :=
  let n := num_classes self in
  valid_indices <- np_where (map_array (valid_label n) target) ;;
  pred' <- take_flat pred valid_indices ;;
  target' <- take_flat target valid_indices ;;
  replace_indices <- vstack_T target' pred' ;;
  conf' <- histogramdd n replace_indices ;;
  Ok (set_conf self (matrix_add (conf self) (astype_int32 conf'))).

(** A sequence of [add] calls. *)
Fixpoint add_all (self : t) (batches : list (ndarray Z * ndarray Z))
  : result t :=
  match batches with
  | [] => Ok self
  | (pred, target) :: rest =>
      self' <- add self pred target ;;
      add_all self' rest
  end.

(** The array object handed out by [value]: the attribute [self.conf]
    itself, or a freshly allocated float array. *)
Inductive view : Type :=
| Self_conf
| Fresh (m : fmatrix).

Inductive contents : Type :=
| Int_array (m : matrix)
| Float_array (m : fmatrix).

(** The constant [1e-12]. *)
Definition epsilon : Qc := Q2Qc (1 # 1000000000000).

(** [conf / conf.sum(1).clip(min=1e-12)[:, None]] on
    [conf = self.conf.astype(np.float32)]. *)
Definition normalize (c : matrix) : fmatrix :=
  map (fun row =>
         let row' := map Float.of_Z row in
         let s := Float.clip_min epsilon (Float.sum row') in
         map (fun x => Float.div x s) row')
      c.

(** [value]. *)
Definition value (self : t) : view :=
  if normalized self then Fresh (normalize (conf self)) else Self_conf.

(** The same matrix in binary32, the arithmetic NumPy carries it out in:
    the counts are converted, each row is added up by [sum], the sum is
    clipped and every entry of the row divided by it. *)
Definition normalize32 (sum : list spec_float -> spec_float) (c : matrix)
  : list (list spec_float) :=
  map (fun row =>
         let row' := map Binary32.of_Z row in
         let s := Binary32.clip_min Binary32.epsilon (sum row') in
         map (fun x => Binary32.div x s) row')
      c.

(** [value] with its floats in binary32: the counts themselves, or the
    normalized matrix. *)
Inductive contents32 : Type :=
| Counts (m : matrix)
| Normalized (m : list (list spec_float)).

Definition value32 (sum : list spec_float -> spec_float) (self : t)
  : contents32 :=
  if normalized self then Normalized (normalize32 sum (conf self))
  else Counts (conf self).

(** What a holder of the returned object reads in it. *)
Definition read (self : t) (v : view) : contents :=
  match v with
  | Self_conf => Int_array (conf self)
  | Fresh m => Float_array m
  end.

(** The state invariant: an [n] x [n] matrix of [int32] cells. *)
Definition wf (self : t) : Prop :=
  square (num_classes self) (conf self) /\
  Forall (Forall (fun c => Int32.in_range c = true)) (conf self).

End ConfusionMatrix.


(* ================================================================= *)
(** ** Python values passed as [ignore_indices] *)

(** The values modelled: [None], an integer, a float, a string, a
    boolean, and lists and tuples of these.  NumPy scalars and nested
    sequences are left out. *)
Inductive pyatom : Type :=
| PyInt (i : Z)
| PyFloat (q : Q)
| PyStr (s : string)
| PyBool (b : bool).

Inductive pyvalue : Type :=
| PyNone
| PyAtom (a : pyatom)
| PyList (l : list pyatom)
| PyTuple (l : list pyatom).

(** [isinstance(v, int)]: [bool] is a subclass of [int]. *)
Definition isinstance_int (v : pyvalue) : bool :=
  match v with
  | PyAtom (PyInt _) | PyAtom (PyBool _) => true
  | _ => false
  end.

(** [tuple(v)]: every iterable is accepted, whatever its elements; a
    string iterates over its characters; a number is not iterable. *)
Definition tuple (v : pyvalue) : result (list pyatom) :=
  match v with
  | PyList l | PyTuple l => Ok l
  | PyAtom (PyStr s) =>
      Ok (map (fun c => PyStr (String c EmptyString)) (list_ascii_of_string s))
  | PyAtom (PyInt _) | PyAtom (PyFloat _) | PyAtom (PyBool _) | PyNone =>
      Raise TypeError
  end.

(** NumPy turns a tuple used as an index into one array, of one dtype.
    Booleans alone give a mask; beside an integer, [True] and [False]
    are the integers 1 and 0; a float or a string gives an array that
    cannot index. *)
Definition is_bool (a : pyatom) : bool :=
  match a with
  | PyBool _ => true
  | _ => false
  end.

Definition as_int (a : pyatom) : option Z :=
  match a with
  | PyInt i => Some i
  | PyBool b => Some (if b then 1 else 0)%Z
  | PyFloat _ | PyStr _ => None
  end.

(** An integer index array along an axis of length [n]: every element
    has to lie inside the axis. *)
Fixpoint int_indices (n : nat) (t : list pyatom) : result (list nat) :=
  match t with
  | [] => Ok []
  | a :: rest =>
      match as_int a with
      | Some i =>
          match norm_index n i with
          | Some k => idx <- int_indices n rest ;; Ok (k :: idx)
          | None => Raise IndexError
          end
      | None => Raise IndexError
      end
  end.

(** The positions a mask selects, counted from [i]. *)
Fixpoint mask_indices (i : nat) (t : list pyatom) : list nat :=
  match t with
  | [] => []
  | PyBool true :: rest => i :: mask_indices (S i) rest
  | _ :: rest => mask_indices (S i) rest
  end.

(** A tuple used as an index along an axis of length [n].  The empty
    tuple selects nothing; a mask needs one boolean for each position of
    the axis.  [np.delete] reads the tuple in the same way (NumPy 1.19
    and later). *)
Definition index_array (n : nat) (t : list pyatom) : result (list nat) :=
  match t with
  | [] => Ok []
  | _ :: _ =>
      if forallb is_bool t then
        if (length t =? n)%nat then Ok (mask_indices 0 t)
        else Raise IndexError
      else int_indices n t
  end.

(* ================================================================= *)
(** ** [pred.argmax(dim=1)] on a tensor of scores *)

(** Index of the first greatest element, scanning from position [i]. *)
Fixpoint argmax_from (best_i : nat) (best : Q) (i : nat) (l : list Q) : nat :=
  match l with
  | [] => best_i
  | x :: t =>
      if Qle_bool x best then argmax_from best_i best (S i) t
      else argmax_from i x (S i) t
  end.

Definition argmax (l : list Q) : nat :=
  match l with
  | [] => 0
  | x :: t => argmax_from 0 x 1 t
  end.

Definition argmax_dim1 (a : ndarray Q) : result (ndarray Z) :=
  match shape a with
  | d0 :: d1 :: rest =>
      if d1 =? 0 then Raise IndexError
      else
        let r := size rest in
        Ok (mk_ndarray (d0 :: rest)
              (flat_map
                 (fun i =>
                    map (fun k =>
                           Z.of_nat
                             (argmax
                                (map (fun j => nth ((i * d1 + j) * r + k)
                                                   (data a) 0%Q)
                                     (seq 0 d1))))
                        (seq 0 r))
                 (seq 0 d0)))
  | _ => Raise IndexError
  end.

(** The per-class scores come as a [torch.Tensor] or as a
    [numpy.ndarray]; the docstring of [add] names both.  A score is a
    rational: not-a-number scores are left out. *)
Inductive scores : Type :=
| Tensor (a : ndarray Q)
| Array (a : ndarray Q).

(** [pred.argmax(dim=1)]: the keyword [dim] belongs to the method of a
    tensor; [numpy.ndarray.argmax] does not take it and raises
    [TypeError]. *)
Definition argmax_dim (pred : scores) : result (ndarray Z) :=
  match pred with
  | Tensor a => argmax_dim1 a
  | Array _ => Raise TypeError
  end.

(* ================================================================= *)
(** ** [class ConfusionMatrixBasedMetric] *)

Module ConfusionMatrixBasedMetric.

Record t : Type := mk {
  conf_matrix : ConfusionMatrix.t;
  reduced_probs : bool;
  ignore_indices : option (list pyatom)
}.

Definition set_conf_matrix (self : t) (cm : ConfusionMatrix.t) : t :=
  mk cm (reduced_probs self) (ignore_indices self).

(** [__init__]. *)
Definition init (num_classes : nat) (reduced_probs normalized : bool)
           (ignore_indices : pyvalue) : result t :=
  let cm := ConfusionMatrix.init num_classes normalized in
  match ignore_indices with
  | PyNone => Ok (mk cm reduced_probs None)
  | PyAtom (PyInt i) => Ok (mk cm reduced_probs (Some [PyInt i]))
  | PyAtom (PyBool b) => Ok (mk cm reduced_probs (Some [PyBool b]))
  | other =>
      match tuple other with
      | Ok l => Ok (mk cm reduced_probs (Some l))
      | Raise TypeError => Raise ValueError
      | Raise e => Raise e
      end
  end.

(** [reset]. *)
Definition reset (self : t) : t :=
  set_conf_matrix self (ConfusionMatrix.reset (conf_matrix self)).

(** The predictions [add] is given: class labels when [reduced_probs]
    holds, per-class scores otherwise. *)
Definition prediction (reduced : bool) : Type :=
  if reduced then ndarray Z else scores.

Definition reduce (reduced : bool) : prediction reduced -> result (ndarray Z) :=
  match reduced with
  | true => fun pred => Ok pred
  | false => fun pred => argmax_dim pred
  end.

(** [add]. *)
Definition add (self : t) (pred : prediction (reduced_probs self))
           (target : ndarray Z) : result t :=
  pred' <- reduce (reduced_probs self) pred ;;
  cm <- ConfusionMatrix.add (conf_matrix self) pred' target ;;
  Ok (set_conf_matrix self cm).

End ConfusionMatrixBasedMetric.

(* ================================================================= *)
(** ** [class DiceCoefficient(ConfusionMatrixBasedMetric)] *)

Module DiceCoefficient.

Import ConfusionMatrixBasedMetric.

(** The two assignments [conf_matrix[:, idx] = 0] and
    [conf_matrix[idx, :] = 0], written through the object [v]: into
    the state when [v] is [self.conf] itself. *)
Definition assign_zero (cm : ConfusionMatrix.t) (v : ConfusionMatrix.view)
           (idx : list nat) : ConfusionMatrix.t * ConfusionMatrix.view :=
  match v with
  | ConfusionMatrix.Self_conf =>
      (ConfusionMatrix.set_conf cm
         (set_rows 0%Z idx (set_columns 0%Z idx (ConfusionMatrix.conf cm))),
       ConfusionMatrix.Self_conf)
  | ConfusionMatrix.Fresh m =>
      (cm,
       ConfusionMatrix.Fresh
         (set_rows Float.zero idx (set_columns Float.zero idx m)))
  end.

(** The Dice formula on an [int32] matrix.  The sums along an axis are
    taken in 64 bits, [2 * true_positive] stays in 32 bits, the
    quotient is a float. *)
Definition dice_int (n : nat) (m : matrix) : list np_float :=
  let true_positive := diag 0%Z m in
  let false_positive :=
    map2 Z.sub (map (fun j => sum_list (column 0%Z m j)) (seq 0 n))
         true_positive in
  let false_negative := map2 Z.sub (map sum_list m) true_positive in
  let twice := map (Int32.mul 2) true_positive in
  map2 Float.div
       (map Float.of_Z twice)
       (map Float.of_Z
            (map2 Z.add (map2 Z.add twice false_positive) false_negative)).

(** The Dice formula on a float matrix. *)
Definition dice_float (n : nat) (m : fmatrix) : list np_float :=
  let true_positive := diag Float.zero m in
  let false_positive :=
    map2 Float.sub
         (map (fun j => Float.sum (column Float.zero m j)) (seq 0 n))
         true_positive in
  let false_negative := map2 Float.sub (map Float.sum m) true_positive in
  let twice := map (Float.mul (Float.of_Z 2)) true_positive in
  map2 Float.div
       twice
       (map2 Float.add (map2 Float.add twice false_positive) false_negative).

Definition dice_of (cm : ConfusionMatrix.t) (v : ConfusionMatrix.view)
  : list np_float :=
  match ConfusionMatrix.read cm v with
  | ConfusionMatrix.Int_array m => dice_int (ConfusionMatrix.num_classes cm) m
  | ConfusionMatrix.Float_array m =>
      dice_float (ConfusionMatrix.num_classes cm) m
  end.

(** [value]: the mean Dice, the Dice per class, and the state the call
    leaves behind. *)
Definition value (self : t) : result ((np_float * list np_float) * t) :=
  let cm := conf_matrix self in
  let n := ConfusionMatrix.num_classes cm in
  (* conf_matrix = self.conf_matrix.value() *)
  let v := ConfusionMatrix.value cm in
  (* if self.ignore_indices is not None: zero the columns and the rows *)
  zeroed <- match ignore_indices self with
            | Some ign => idx <- index_array n ign ;; Ok (assign_zero cm v idx)
            | None => Ok (cm, v)
            end ;;
  let (cm', v') := zeroed in
  let dice := dice_of cm' v' in
  (* if self.ignore_indices is not None: np.delete, then np.nanmean *)
  mdice <- match ignore_indices self with
           | Some ign =>
               idx <- index_array n ign ;;
               let dice_valid_cls := np_delete dice idx in
               Ok (nanmean dice_valid_cls)
           | None => Ok (nanmean dice)
           end ;;
  Ok ((mdice, dice), set_conf_matrix self cm').

End DiceCoefficient.

(* ================================================================= *)
(** ** Vocabulary of the statements *)

(** The indicator of a condition. *)
Definition ind (b : bool) : Z := if b then 1%Z else 0%Z.

(** The entries of [l] at the positions where [mask] holds. *)
Definition select {A} (mask : list bool) (l : list A) : list A :=
  map fst (filter snd (combine l mask)).

(** The (target, predicted) pairs of two arrays of one shape whose
    target label lies in [[0, n)]. *)
Definition valid_pairs (n : nat) (pred target : ndarray Z) : list (Z * Z) :=
  filter (fun s => ConfusionMatrix.valid_label n (fst s))
         (combine (data target) (data pred)).

(** Two arrays as [add] expects them: filled, of one shape, of rank at
    least one. *)
Definition same_shaped (pred target : ndarray Z) : Prop :=
  wf_array pred /\ wf_array target /\
  shape pred = shape target /\ shape target <> [].

(** The matrix one [add] call adds to the counts; it depends on the
    number of classes and on the two arrays, not on the counts. *)
Definition increment (n : nat) (pred target : ndarray Z) : result matrix :=
  valid_indices <-
    np_where (map_array (ConfusionMatrix.valid_label n) target) ;;
  pred' <- take_flat pred valid_indices ;;
  target' <- take_flat target valid_indices ;;
  replace_indices <- vstack_T target' pred' ;;
  conf' <- histogramdd n replace_indices ;;
  Ok (astype_int32 conf').

(** A value between the outer bin edges, both included. *)
Definition between_edges (n : nat) (v : Z) : bool :=
  ((0 <=? v) && (v <=? Z.of_nat n))%Z.

(** The value [v] is counted in bin [i] of an axis: it is the label [i],
    or it sits on the right outer edge and [i] is the last bin. *)
Definition counted_in (n i : nat) (v : Z) : bool :=
  ((v =? Z.of_nat i)%Z || ((v =? Z.of_nat n)%Z && (S i =? n)))%bool.

(** What a sequence of [add] calls is given. *)
Definition batch : Type := ndarray Z * ndarray Z.

(** The pairs with a target label in [[0, n)], over a sequence of calls. *)
Fixpoint all_valid_pairs (n : nat) (batches : list batch) : list (Z * Z) :=
  match batches with
  | [] => []
  | (pred, target) :: rest =>
      valid_pairs n pred target ++ all_valid_pairs n rest
  end.

(** The number of elements handed to a sequence of calls. *)
Fixpoint total_size (batches : list batch) : Z :=
  match batches with
  | [] => 0
  | (_, target) :: rest => Z.of_nat (length (data target)) + total_size rest
  end.

(** Merging two count matrices: their element-wise sum as [int32]
    arrays ([conf_a + conf_b]). *)
Definition merge (a b : matrix) : matrix := matrix_add a b.

(** The outcome of a call, seen through a projection of its result. *)
Definition result_map {A B} (f : A -> B) (c : result A) : result B :=
  match c with
  | Ok a => Ok (f a)
  | Raise e => Raise e
  end.

(** Python's notion of an iterable, on the values modelled here. *)
Definition iterable (v : pyvalue) : bool :=
  match v with
  | PyList _ | PyTuple _ | PyAtom (PyStr _) => true
  | _ => false
  end.

Definition is_none (v : pyvalue) : bool :=
  match v with
  | PyNone => true
  | _ => false
  end.

(** The positions of [target] that hold a label in [[0, n)]. *)
Definition valid_positions (n : nat) (target : ndarray Z) : list (list nat) :=
  select (map (ConfusionMatrix.valid_label n) (data target))
         (indices (shape target)).

(** The terms of the Dice formula for class [c] on a count matrix. *)
Definition true_positive (m : matrix) (c : nat) : Z := cell m c c.

Definition false_positive (m : matrix) (c : nat) : Z :=
  (sum_list (column 0%Z m c) - cell m c c)%Z.

Definition false_negative (m : matrix) (c : nat) : Z :=
  (sum_list (nth c m []) - cell m c c)%Z.

(** An [ignore_indices] tuple that indexes both axes of the matrix:
    integers in [[-n, n)]. *)
Definition valid_index (n : nat) (a : pyatom) : Prop :=
  exists i, a = PyInt i /\ (- Z.of_nat n <= i < Z.of_nat n)%Z.

Definition valid_ignore (n : nat) (ignore : option (list pyatom)) : Prop :=
  match ignore with
  | None => True
  | Some l => Forall (valid_index n) l
  end.

(** The classes a metric ignores. *)
Definition ignored (self : ConfusionMatrixBasedMetric.t) : list nat :=
  match ConfusionMatrixBasedMetric.ignore_indices self with
  | None => []
  | Some l =>
      match index_array
              (ConfusionMatrix.num_classes
                 (ConfusionMatrixBasedMetric.conf_matrix self)) l with
      | Ok idx => idx
      | Raise _ => []
      end
  end.

(** The counts with the rows and columns of the ignored classes zeroed. *)
Definition effective_counts (self : ConfusionMatrixBasedMetric.t) : matrix :=
  set_rows 0%Z (ignored self)
    (set_columns 0%Z (ignored self)
       (ConfusionMatrix.conf (ConfusionMatrixBasedMetric.conf_matrix self))).

Definition non_negative (m : matrix) : Prop :=
  Forall (Forall (fun c => (0 <= c)%Z)) m.

Definition defined (x : np_float) : bool := negb (Float.is_nan x).

(** The [n] x [n] matrix with entry [f i j] at row [i], column [j]. *)
Definition tabulate {A} (n : nat) (f : nat -> nat -> A) : list (list A) :=
  map (fun i => map (fun j => f i j) (seq 0 n)) (seq 0 n).

(** A float lies in a closed interval of rationals. *)
Definition within (lo hi : Q) (x : np_float) : bool :=
  match x with
  | Fin q => Qle_bool lo q && Qle_bool q hi
  | _ => false
  end.

(** The counts printed in the notebook for its toy input. *)
Definition notebook_counts : matrix :=
  [[14090; 14265; 14321]; [820; 863; 817]; [1667; 1711; 1622]]%Z.

(** The sum of a row and of a column of a count matrix: the pixels
    counted for a target class, and for a predicted class. *)
Definition row_sum (m : matrix) (i : nat) : Z := sum_list (nth i m []).

Definition column_sum (m : matrix) (j : nat) : Z :=
  sum_list (column 0%Z m j).

(** A (target, predicted) pair whose target, respectively predicted,
    label is the class [c]. *)
Definition with_target (c : nat) (s : Z * Z) : bool :=
  (fst s =? Z.of_nat c)%Z.

Definition with_prediction (c : nat) (s : Z * Z) : bool :=
  (snd s =? Z.of_nat c)%Z.

(** Twice the number of pairs on which target and prediction are both
    [c], over the number with target [c] plus the number with prediction
    [c]: the Dice coefficient of the two sets of pixels, the two
    integers divided as [float64]. *)
Definition overlap_ratio (c : nat) (pairs : list (Z * Z)) : spec_float :=
  Binary64.div
    (Binary64.of_Z
       (2 * count (fun s => with_target c s && with_prediction c s) pairs))
    (Binary64.of_Z (count (with_target c) pairs
                    + count (with_prediction c) pairs)).

(** The calls with the two arguments of [add] exchanged. *)
Definition swap_pair (s : Z * Z) : Z * Z := (snd s, fst s).

Definition swapped (batches : list batch) : list batch :=
  map (fun x => (snd x, fst x)) batches.

(** Every label of an array is a class. *)
Definition labels_in_range (n : nat) (a : ndarray Z) : Prop :=
  Forall (fun v => ConfusionMatrix.valid_label n v = true) (data a).

(** A float that is not-a-number or lies in [[0, 1]]. *)
Definition in_unit_interval (x : np_float) : Prop :=
  x = NaN \/ within 0 1 x = true.

(** A matrix with the rows and columns of the classes [idx] zeroed. *)
Definition zeroed (idx : list nat) (m : matrix) : matrix :=
  set_rows 0%Z idx (set_columns 0%Z idx m).

Definition float_zeroed (idx : list nat) (m : fmatrix) : fmatrix :=
  set_rows Float.zero idx (set_columns Float.zero idx m).

(** The toy input of the notebook.

    [torch.zeros(sh)], and more generally an array filled with [v]. *)
Definition full (sh : list nat) (v : Z) : ndarray Z :=
  mk_ndarray sh (repeat v (size sh)).

Fixpoint mapi_Z_from {A B} (f : Z -> A -> B) (k : Z) (l : list A) : list B :=
  match l with
  | [] => []
  | x :: t => f k x :: mapi_Z_from f (k + 1) t
  end.

(** Whether row [r], column [c] lies in the box [r0:r1, c0:c1]. *)
Definition in_box (r0 r1 c0 c1 r c : Z) : bool :=
  ((r0 <=? r) && (r <? r1) && (c0 <=? c) && (c <? c1))%Z.

(** [a[:, r0:r1, c0:c1] = v] on an array of rank 3: the element at
    row-major offset [k] sits in row [(k / d2) mod d1], column
    [k mod d2]. *)
Definition assign_box (r0 r1 c0 c1 : Z) (v : Z) (a : ndarray Z)
  : ndarray Z :=
  match shape a with
  | [_; d1; d2] =>
      mk_ndarray (shape a)
        (mapi_Z_from
           (fun k x =>
              if in_box r0 r1 c0 c1
                   ((k / Z.of_nat d2) mod Z.of_nat d1)%Z
                   (k mod Z.of_nat d2)%Z
              then v else x)
           0%Z (data a))
  | _ => a
  end.

(** [ground_truth = torch.zeros(1, 224, 224)], then
    [ground_truth[:, 50:100, 50:100] = 1] and
    [ground_truth[:, 50:150, 150:200] = 2]. *)
Definition ground_truth : ndarray Z :=
  assign_box 50%Z 150%Z 150%Z 200%Z 2%Z
    (assign_box 50%Z 100%Z 50%Z 100%Z 1%Z (full [1; 224; 224] 0%Z)).

(** The label of the ground truth at row [r], column [c]. *)
Definition ground_truth_label (r c : nat) : Z :=
  if in_box 50 150 150 200 (Z.of_nat r) (Z.of_nat c) then 2%Z
  else if in_box 50 100 50 100 (Z.of_nat r) (Z.of_nat c) then 1%Z
       else 0%Z.

(** An image given row by row. *)
Definition image {A} (d1 d2 : nat) (f : nat -> nat -> A) : list A :=
  concat (map (fun r => map (f r) (seq 0 d2)) (seq 0 d1)).

(** The quotient [2 * TP / (2 * TP + FP + FN)] of one class in binary64:
    [2 * TP] is an [int32], the denominator an [int64], and both are
    converted to [float64] by the division. *)
Definition binary64_dice (tp fp fn : Z) : spec_float :=
  Binary64.div (Binary64.of_Z (Int32.mul 2 tp))
               (Binary64.of_Z (Int32.mul 2 tp + fp + fn)).




(** An [ignore_indices] tuple NumPy can index an axis of length [n]
    with: a mask of [n] booleans, or integers in [[-n, n)], a boolean
    beside an integer standing for 1 or 0. *)
Definition is_mask (l : list pyatom) : Prop :=
  l <> [] /\ Forall (fun a => exists b, a = PyBool b) l.

Definition integer_index (n : nat) (a : pyatom) : Prop :=
  (exists i, a = PyInt i /\ (- Z.of_nat n <= i < Z.of_nat n)%Z)
  \/ (a = PyBool false /\ 0 < n)
  \/ (a = PyBool true /\ 1 < n).

Definition usable_ignore (n : nat) (ignore : option (list pyatom)) : Prop :=
  match ignore with
  | None => True
  | Some l =>
      (is_mask l /\ length l = n)
      \/ (~ is_mask l /\ Forall (integer_index n) l)
  end.

(** The rational a finite binary float stands for: [m * 2^e]. *)
Definition F2Q (m : positive) (e : Z) : Q := (inject_Z (Z.pos m) * 2 ^ e)%Q.

Definition B2Q (x : spec_float) : Q :=
  match x with
  | S754_finite s m e => if s then (- F2Q m e)%Q else F2Q m e
  | _ => 0%Q
  end.

(** The sum of the entries of a float vector, without rounding. *)
Definition exact_sum (l : list spec_float) : Q :=
  fold_right Qplus 0%Q (map B2Q l).

(** The relative distance between neighbouring [float32] numbers. *)
Definition ulp32 : Q := 1 # 8388608.

(** The tolerance on the sum of a normalized row of [n] entries:
    [(n + 1) * 2^-22]. *)
Definition tolerance (n : nat) : Q := Z.of_nat (n + 1) # 4194304.

(** [x] is the [float32] nearest to the decimal [d]: what printing [x]
    with enough digits shows. *)
Definition nearest_float32 (d : Q) (x : spec_float) : bool :=
  match x with
  | S754_finite false m e => Qle_bool (Qabs (F2Q m e - d)) (2 ^ (e - 1))
  | _ => false
  end.

(** A float that is zero or a positive finite number. *)
Definition finite_non_negative (x : spec_float) : Prop :=
  x = S754_zero false \/ exists m e, x = S754_finite false m e.

(** A converted count: zero, or a normal number between 1/2 and 2^32. *)
Definition converted (x : spec_float) : Prop :=
  x = S754_zero false
  \/ exists m e, x = S754_finite false m e
                 /\ (2 ^ 23 <= Z.pos m < 2 ^ 24)%Z
                 /\ (1 # 2 <= F2Q m e)%Q /\ (F2Q m e <= 4294967296)%Q.


(* ================================================================= *)
(** * Properties *)

(** ** The two branches of [DiceCoefficient.value] *)

Lemma value_cases (self : ConfusionMatrixBasedMetric.t) :
  DiceCoefficient.value self
  = let cm := ConfusionMatrixBasedMetric.conf_matrix self in
    let v := ConfusionMatrix.value cm in
    match ConfusionMatrixBasedMetric.ignore_indices self with
    | Some ign =>
        idx <- index_array (ConfusionMatrix.num_classes cm) ign ;;
        let (cm', v') := DiceCoefficient.assign_zero cm v idx in
        let dice := DiceCoefficient.dice_of cm' v' in
        Ok ((nanmean (np_delete dice idx), dice),
            ConfusionMatrixBasedMetric.set_conf_matrix self cm')
    | None =>
        let dice := DiceCoefficient.dice_of cm v in
        Ok ((nanmean dice, dice), self)
    end.
Proof.
  unfold DiceCoefficient.value. cbv zeta.
  destruct self as [cm rp [ign|]];
    cbn [ConfusionMatrixBasedMetric.ignore_indices
         ConfusionMatrixBasedMetric.conf_matrix bind]; [|reflexivity].
  destruct (index_array (ConfusionMatrix.num_classes cm) ign) as [idx|e];
    cbn [bind]; [|reflexivity].
  destruct (DiceCoefficient.assign_zero cm (ConfusionMatrix.value cm) idx)
    as [cm' v'].
  reflexivity.
Qed.

(** ** Arithmetic on [int32] *)

Section Int32_facts.

Local Open Scope Z_scope.

Lemma wrap_in_range (x : Z) :
  Int32.in_range x = true -> Int32.wrap x = x.
Proof.
  unfold Int32.in_range, Int32.min_int, Int32.max_int, Int32.wrap.
  intros H. apply andb_prop in H. destruct H as [Hlo Hhi].
  apply Z.leb_le in Hlo. apply Z.leb_le in Hhi.
  rewrite Z.mod_small; lia.
Qed.

Lemma wrap_range (x : Z) : Int32.in_range (Int32.wrap x) = true.
Proof.
  unfold Int32.in_range, Int32.min_int, Int32.max_int, Int32.wrap.
  pose proof (Z.mod_pos_bound (x + 2 ^ 31) (2 ^ 32) ltac:(lia)) as H.
  apply andb_true_intro. split; [apply Z.leb_le | apply Z.leb_le]; lia.
Qed.

Lemma wrap_add_l (a b : Z) :
  Int32.wrap (Int32.wrap a + b) = Int32.wrap (a + b).
Proof.
  unfold Int32.wrap.
  replace ((a + 2 ^ 31) mod 2 ^ 32 - 2 ^ 31 + b + 2 ^ 31)
    with ((a + 2 ^ 31) mod 2 ^ 32 + b) by lia.
  rewrite Zplus_mod_idemp_l. f_equal. f_equal. lia.
Qed.

Lemma wrap_add_r (a b : Z) :
  Int32.wrap (a + Int32.wrap b) = Int32.wrap (a + b).
Proof.
  rewrite (Z.add_comm a (Int32.wrap b)), wrap_add_l. f_equal. lia.
Qed.

Lemma int32_add_comm (a b : Z) : Int32.add a b = Int32.add b a.
Proof. unfold Int32.add. f_equal. lia. Qed.

Lemma int32_add_assoc (a b c : Z) :
  Int32.add (Int32.add a b) c = Int32.add a (Int32.add b c).
Proof.
  unfold Int32.add. rewrite wrap_add_l, wrap_add_r. f_equal. lia.
Qed.

Lemma of_float_exact (x : Z) :
  0 <= x < 2 ^ 31 -> Int32.of_float x = x.
Proof.
  intros H. unfold Int32.of_float, Int32.in_range, Int32.min_int,
    Int32.max_int.
  replace (- 2 ^ 31 <=? x) with true by (symmetry; apply Z.leb_le; lia).
  replace (x <=? 2 ^ 31 - 1) with true by (symmetry; apply Z.leb_le; lia).
  reflexivity.
Qed.

Lemma int32_add_exact (a b : Z) :
  0 <= a -> 0 <= b -> a + b < 2 ^ 31 -> Int32.add a b = a + b.
Proof.
  intros Ha Hb Hab. unfold Int32.add. apply wrap_in_range.
  unfold Int32.in_range, Int32.min_int, Int32.max_int.
  apply andb_true_intro. split; apply Z.leb_le; lia.
Qed.

End Int32_facts.

(** ** Lists *)

Section List_facts.

Context {A B C : Type}.

Lemma map2_length (f : A -> B -> C) (l : list A) (l' : list B) :
  length l = length l' -> length (map2 f l l') = length l.
Proof.
  revert l'. induction l as [|a l IH]; intros [|b l'] H; simpl in *;
    try discriminate; auto.
Qed.

Lemma map2_nth (f : A -> B -> C) (l : list A) (l' : list B)
      (i : nat) (da : A) (db : B) (dc : C) :
  i < length l -> i < length l' ->
  nth i (map2 f l l') dc = f (nth i l da) (nth i l' db).
Proof.
  revert l' i. induction l as [|a l IH]; intros [|b l'] [|i] Hi Hi';
    simpl in *; try lia; auto.
  apply IH; lia.
Qed.

Lemma map2_map_seq (f : A -> B -> C) (g : nat -> A) (h : nat -> B)
      (s n : nat) :
  map2 f (map g (seq s n)) (map h (seq s n))
  = map (fun i => f (g i) (h i)) (seq s n).
Proof.
  revert s. induction n as [|n IH]; intros s; simpl; [reflexivity|].
  f_equal. apply IH.
Qed.

Lemma mapi_from_map_seq (f : nat -> A -> B) (g : nat -> A) (s n : nat) :
  mapi_from f s (map g (seq s n)) = map (fun i => f i (g i)) (seq s n).
Proof.
  revert s. induction n as [|n IH]; intros s; simpl; [reflexivity|].
  f_equal. apply IH.
Qed.

Lemma mapi_from_length (f : nat -> A -> B) (s : nat) (l : list A) :
  length (mapi_from f s l) = length l.
Proof.
  revert s. induction l as [|a l IH]; intros s; simpl; auto.
Qed.

Lemma mapi_from_nth (f : nat -> A -> B) (s : nat) (l : list A)
      (i : nat) (da : A) (db : B) :
  i < length l -> nth i (mapi_from f s l) db = f (s + i) (nth i l da).
Proof.
  revert s i. induction l as [|a l IH]; intros s [|i] Hi; simpl in *;
    try lia.
  - f_equal. lia.
  - rewrite IH by lia. f_equal. lia.
Qed.

End List_facts.

Lemma count_nil {A} (f : A -> bool) : count f [] = 0%Z.
Proof. reflexivity. Qed.

Lemma count_cons {A} (f : A -> bool) (x : A) (l : list A) :
  count f (x :: l) = (ind (f x) + count f l)%Z.
Proof.
  unfold count, ind. simpl. destruct (f x); simpl length; lia.
Qed.

Lemma count_app {A} (f : A -> bool) (l l' : list A) :
  count f (l ++ l') = (count f l + count f l')%Z.
Proof.
  unfold count. rewrite filter_app, length_app. lia.
Qed.

Lemma count_bounds {A} (f : A -> bool) (l : list A) :
  (0 <= count f l <= Z.of_nat (length l))%Z.
Proof.
  unfold count. pose proof (filter_length_le f l). lia.
Qed.

Lemma count_ext {A} (f g : A -> bool) (l : list A) :
  (forall x, In x l -> f x = g x) -> count f l = count g l.
Proof.
  intros H. unfold count. do 2 f_equal. apply filter_ext_in. exact H.
Qed.

(** ** Positions of an array *)

Lemma map_add_seq (k s m : nat) :
  map (fun q => k + q) (seq s m) = seq (k + s) m.
Proof.
  revert s. induction m as [|m IH]; intros s; simpl; [reflexivity|].
  f_equal. rewrite IH. f_equal. lia.
Qed.

Lemma flat_map_seq_block (d m : nat) :
  flat_map (fun i => map (fun q => i * m + q) (seq 0 m)) (seq 0 d)
  = seq 0 (d * m).
Proof.
  induction d as [|d IH]; [reflexivity|].
  rewrite seq_S, flat_map_app, IH. simpl flat_map. rewrite app_nil_r.
  replace (S d * m) with (d * m + m) by lia.
  rewrite seq_app, map_add_seq. f_equal. f_equal. lia.
Qed.

Lemma indices_spec (sh : list nat) :
  map (ravel sh) (indices sh) = seq 0 (size sh).
Proof.
  induction sh as [|d ds IH]; [reflexivity|].
  simpl indices. simpl size.
  rewrite <- flat_map_seq_block.
  rewrite flat_map_concat_map, concat_map, map_map, <- flat_map_concat_map.
  apply flat_map_ext. intros i.
  rewrite map_map. simpl ravel.
  rewrite <- IH, map_map. reflexivity.
Qed.

Lemma indices_length (sh : list nat) (p : list nat) :
  In p (indices sh) -> length p = length sh.
Proof.
  revert p. induction sh as [|d ds IH]; intros p H; simpl in H.
  - destruct H as [<-|[]]. reflexivity.
  - apply in_flat_map in H. destruct H as (i & _ & H).
    apply in_map_iff in H. destruct H as (q & <- & H).
    simpl. f_equal. apply IH. exact H.
Qed.

Lemma indices_in_bounds (sh : list nat) (p : list nat) :
  In p (indices sh) -> in_bounds sh p = true.
Proof.
  revert p. induction sh as [|d ds IH]; intros p H; simpl in H.
  - destruct H as [<-|[]]. reflexivity.
  - apply in_flat_map in H. destruct H as (i & Hi & H).
    apply in_map_iff in H. destruct H as (q & <- & H).
    apply in_seq in Hi. simpl.
    apply andb_true_intro. split; [apply Nat.ltb_lt; lia | apply IH, H].
Qed.

(** ** Selecting by a mask *)

Lemma select_In {A} (mask : list bool) (l : list A) (x : A) :
  In x (select mask l) -> In x l.
Proof.
  unfold select. intros H. apply in_map_iff in H.
  destruct H as ([y b] & <- & H). apply filter_In in H. destruct H as [H _].
  apply in_combine_l in H. exact H.
Qed.

Lemma select_map {A B} (f : A -> B) (mask : list bool) (l : list A) :
  select mask (map f l) = map f (select mask l).
Proof.
  unfold select. revert mask. induction l as [|x l IH]; intros [|b mask];
    simpl; try reflexivity.
  destruct b; simpl; rewrite IH; reflexivity.
Qed.

Lemma select_combine {A B} (mask : list bool) (l : list A) (l' : list B) :
  length l = length l' ->
  combine (select mask l) (select mask l') = select mask (combine l l').
Proof.
  unfold select. revert mask l'.
  induction l as [|x l IH]; intros [|b mask] [|y l'] H; simpl in *;
    try discriminate; try reflexivity.
  destruct b; simpl; rewrite IH by lia; reflexivity.
Qed.

Lemma select_length {A B} (mask : list bool) (l : list A) (l' : list B) :
  length l = length l' ->
  length (select mask l) = length (select mask l').
Proof.
  unfold select. revert mask l'.
  induction l as [|x l IH]; intros [|b mask] [|y l'] H; simpl in *;
    try discriminate; try reflexivity.
  destruct b; simpl; rewrite (IH mask l') by lia; reflexivity.
Qed.

Lemma select_by_label {A B} (f : A -> bool) (l : list A) (l' : list B) :
  select (map f l) (combine l l') = filter (fun s => f (fst s)) (combine l l').
Proof.
  unfold select. revert l'.
  induction l as [|x l IH]; intros [|y l']; simpl; try reflexivity.
  destruct (f x); simpl; rewrite IH; reflexivity.
Qed.

Lemma select_gather {A} (mask : list bool) (pre l : list A) :
  flat_map (fun q => firstn 1 (skipn (q * 1) (pre ++ l)))
           (select mask (seq (length pre) (length l)))
  = select mask l.
Proof.
  revert mask pre. induction l as [|x l IH]; intros [|b mask] pre;
    try reflexivity.
  specialize (IH mask (pre ++ [x])).
  rewrite <- app_assoc, length_app in IH. simpl in IH.
  replace (length pre + 1) with (S (length pre)) in IH by lia.
  unfold select in *. simpl. destruct b; simpl; [|exact IH].
  rewrite IH. f_equal.
  rewrite Nat.mul_1_r, skipn_app, Nat.sub_diag, skipn_all. reflexivity.
Qed.

(** Indexing an array by the positions of a mask of its own shape keeps
    the entries where the mask holds. *)
Lemma take_flat_select {A} (a : ndarray A) (mask : list bool) :
  wf_array a -> shape a <> [] ->
  take_flat a (length (shape a), select mask (indices (shape a)))
  = Ok (select mask (data a)).
Proof.
  intros Hwf Hsh. unfold take_flat, ndim.
  rewrite Nat.ltb_irrefl.
  replace (forallb (in_bounds (shape a)) (select mask (indices (shape a))))
    with true.
  2:{ symmetry. apply forallb_forall. intros p Hp.
      apply indices_in_bounds. eapply select_In. exact Hp. }
  rewrite skipn_all, firstn_all. simpl size. f_equal.
  rewrite <- (select_gather mask [] (data a)). simpl length. simpl app.
  rewrite Hwf, <- indices_spec, select_map.
  induction (select mask (indices (shape a))) as [|p ps IH];
    cbn [flat_map map]; [reflexivity|].
  f_equal. exact IH.
Qed.

(** ** [add] on arrays of one shape *)

Lemma add_increment (cm : ConfusionMatrix.t) (pred target : ndarray Z) :
  ConfusionMatrix.add cm pred target
  = (inc <- increment (ConfusionMatrix.num_classes cm) pred target ;;
     Ok (ConfusionMatrix.set_conf cm
           (matrix_add (ConfusionMatrix.conf cm) inc))).
Proof.
  unfold ConfusionMatrix.add, increment.
  destruct (np_where _) as [vi|e]; simpl; [|reflexivity].
  destruct (take_flat pred vi) as [p|e]; simpl; [|reflexivity].
  destruct (take_flat target vi) as [t|e]; simpl; [|reflexivity].
  destruct (vstack_T t p) as [r|e]; simpl; [|reflexivity].
  destruct (histogramdd _ r) as [c|e]; reflexivity.
Qed.

Lemma np_where_select (mask : ndarray bool) :
  shape mask <> [] ->
  np_where mask
  = Ok (length (shape mask), select (data mask) (indices (shape mask))).
Proof.
  unfold np_where, select. destruct (shape mask); [congruence|reflexivity].
Qed.

Lemma increment_same_shape (n : nat) (pred target : ndarray Z) :
  same_shaped pred target -> 1 <= n ->
  increment n pred target
  = Ok (astype_int32 (counts n (valid_pairs n pred target))).
Proof.
  intros (Hp & Ht & Hsh & Hne) Hn.
  unfold increment. rewrite np_where_select by exact Hne.
  cbn [bind map_array shape data].
  rewrite <- Hsh at 1 2.
  rewrite (take_flat_select _ Hp) by congruence. cbn [bind].
  rewrite (take_flat_select _ Ht) by congruence. cbn [bind].
  unfold vstack_T.
  assert (Hlen : length (data target) = length (data pred)).
  { unfold wf_array in *. congruence. }
  rewrite (select_length _ _ _ Hlen), Nat.eqb_refl. cbn [bind].
  unfold histogramdd.
  replace (n <? 1) with false by (symmetry; apply Nat.ltb_ge; lia).
  cbn [bind]. rewrite select_combine by exact Hlen.
  rewrite select_by_label. reflexivity.
Qed.

Lemma add_same_shape (cm : ConfusionMatrix.t) (pred target : ndarray Z) :
  same_shaped pred target -> 1 <= ConfusionMatrix.num_classes cm ->
  ConfusionMatrix.add cm pred target
  = Ok (ConfusionMatrix.set_conf cm
          (matrix_add (ConfusionMatrix.conf cm)
             (astype_int32
                (counts (ConfusionMatrix.num_classes cm)
                        (valid_pairs (ConfusionMatrix.num_classes cm)
                                     pred target))))).
Proof.
  intros H Hn. rewrite add_increment, increment_same_shape by assumption.
  reflexivity.
Qed.

(** ** Bins of the histogram *)

Lemma searchsorted_edges (n : nat) (v : Z) :
  searchsorted_right (edges n) v
  = if (v <? 0)%Z then 0
    else if (v <? Z.of_nat n)%Z then S (Z.to_nat v) else S n.
Proof.
  unfold searchsorted_right, edges.
  induction n as [|n IH].
  - simpl. destruct (Z.leb_spec 0 v), (Z.ltb_spec v 0); simpl;
      try lia; reflexivity.
  - rewrite seq_S, map_app, filter_app, length_app, IH, Nat.add_0_l.
    cbn [map filter].
    destruct (Z.ltb_spec v 0), (Z.ltb_spec v (Z.of_nat n)),
      (Z.ltb_spec v (Z.of_nat (S n))), (Z.leb_spec (Z.of_nat (S n)) v);
      simpl length; lia.
Qed.

Lemma bin_number_spec (n : nat) (v : Z) :
  bin_number n v
  = if (v <? 0)%Z then 0
    else if (v <? Z.of_nat n)%Z then S (Z.to_nat v)
    else if (v =? Z.of_nat n)%Z then n else S n.
Proof.
  unfold bin_number. rewrite searchsorted_edges.
  destruct (Z.eqb_spec v (Z.of_nat n)), (Z.ltb_spec v 0),
    (Z.ltb_spec v (Z.of_nat n)); simpl; lia.
Qed.

Lemma bin_number_counted_in (n i : nat) (v : Z) :
  i < n -> (bin_number n v =? S i) = counted_in n i v.
Proof.
  intros Hi. rewrite bin_number_spec. unfold counted_in.
  destruct (Z.ltb_spec v 0), (Z.ltb_spec v (Z.of_nat n)),
    (Z.eqb_spec v (Z.of_nat n)), (Z.eqb_spec v (Z.of_nat i)),
    (Nat.eqb_spec (S i) n); simpl;
    try lia;
    solve [ apply Nat.eqb_eq; lia | apply Nat.eqb_neq; lia ].
Qed.

Lemma bin_number_core (n : nat) (v : Z) :
  1 <= n ->
  ((1 <=? bin_number n v) && (bin_number n v <=? n))%bool = between_edges n v.
Proof.
  intros Hn. unfold between_edges. apply eq_true_iff_eq.
  rewrite !andb_true_iff, !Nat.leb_le, !Z.leb_le, bin_number_spec.
  destruct (Z.ltb_spec v 0), (Z.ltb_spec v (Z.of_nat n)),
    (Z.eqb_spec v (Z.of_nat n)); lia.
Qed.

(** ** Sums of indicators *)

Lemma sum_list_app (l l' : list Z) :
  sum_list (l ++ l') = (sum_list l + sum_list l')%Z.
Proof.
  induction l as [|x l IH]; simpl; [reflexivity|]. rewrite IH. lia.
Qed.

Lemma sum_list_map_add {A} (f g : A -> Z) (l : list A) :
  sum_list (map (fun x => (f x + g x)%Z) l)
  = (sum_list (map f l) + sum_list (map g l))%Z.
Proof.
  induction l as [|x l IH]; simpl; [reflexivity|]. rewrite IH. lia.
Qed.

Lemma sum_list_map_zero {A} (l : list A) :
  sum_list (map (fun _ => 0%Z) l) = 0%Z.
Proof.
  induction l as [|x l IH]; simpl; [reflexivity|]. exact IH.
Qed.

Lemma sum_list_ext {A} (f g : A -> Z) (l : list A) :
  (forall x, In x l -> f x = g x) ->
  sum_list (map f l) = sum_list (map g l).
Proof.
  intros H. f_equal. apply map_ext_in. exact H.
Qed.

Lemma sum_ind_bin (k n : nat) :
  sum_list (map (fun j => ind (k =? S j)) (seq 0 n))
  = ind ((1 <=? k) && (k <=? n)).
Proof.
  induction n as [|n IH].
  - destruct k as [|k]; reflexivity.
  - rewrite seq_S, map_app, sum_list_app, IH. cbn [map sum_list plus].
    unfold ind.
    destruct (Nat.eqb_spec k (S n)), (Nat.leb_spec 1 k),
      (Nat.leb_spec k n), (Nat.leb_spec k (S n)); simpl; lia.
Qed.

Lemma sum_ind_and {A} (a : bool) (f : A -> bool) (l : list A) :
  sum_list (map (fun x => ind (a && f x)) l)
  = if a then sum_list (map (fun x => ind (f x)) l) else 0%Z.
Proof.
  destruct a; simpl; [reflexivity|]. apply sum_list_map_zero.
Qed.

Lemma nth_map_seq {A} (f : nat -> A) (s n i : nat) (d : A) :
  i < n -> nth i (map f (seq s n)) d = f (s + i).
Proof.
  revert s i. induction n as [|n IH]; intros s [|i] H; simpl; try lia.
  - f_equal. lia.
  - rewrite IH by lia. f_equal. lia.
Qed.

(** ** The histogram *)

Lemma cell_counts (n : nat) (l : list (Z * Z)) (i j : nat) :
  i < n -> j < n -> cell (counts n l) i j = count (in_cell n i j) l.
Proof.
  intros Hi Hj. unfold cell, counts.
  rewrite (nth_map_seq _ 0 []) by exact Hi.
  rewrite (nth_map_seq _ 0 0%Z) by exact Hj. reflexivity.
Qed.

Lemma counts_square (n : nat) (l : list (Z * Z)) : square n (counts n l).
Proof.
  unfold square, counts. split.
  - rewrite length_map, length_seq. reflexivity.
  - apply Forall_forall. intros row H. apply in_map_iff in H.
    destruct H as (i & <- & _). rewrite length_map, length_seq. reflexivity.
Qed.

Lemma sum_ind_cell (n : nat) (x : Z * Z) :
  1 <= n ->
  sum_list
    (map (fun i => sum_list (map (fun j => ind (in_cell n i j x)) (seq 0 n)))
         (seq 0 n))
  = ind (between_edges n (fst x) && between_edges n (snd x)).
Proof.
  intros Hn. unfold in_cell.
  rewrite (sum_list_ext _
             (fun i => ind (((1 <=? bin_number n (snd x))
                             && (bin_number n (snd x) <=? n))
                            && (bin_number n (fst x) =? S i)))).
  - rewrite sum_ind_and, sum_ind_bin, !bin_number_core by exact Hn.
    destruct (between_edges n (fst x)), (between_edges n (snd x));
      reflexivity.
  - intros i _. rewrite sum_ind_and, sum_ind_bin.
    destruct (bin_number n (fst x) =? S i);
      [rewrite andb_true_r | rewrite andb_false_r]; reflexivity.
Qed.

Lemma sum_all_counts (n : nat) (l : list (Z * Z)) :
  1 <= n ->
  sum_all (counts n l)
  = count (fun s => between_edges n (fst s) && between_edges n (snd s)) l.
Proof.
  intros Hn. unfold sum_all, counts. rewrite map_map.
  induction l as [|x l IH].
  - rewrite count_nil.
    rewrite (sum_list_ext _ (fun _ => 0%Z)); [apply sum_list_map_zero|].
    intros i _. apply sum_list_map_zero.
  - rewrite count_cons, <- IH, <- (sum_ind_cell x Hn).
    rewrite <- sum_list_map_add. apply sum_list_ext. intros i _.
    rewrite <- sum_list_map_add. apply sum_list_ext. intros j _.
    apply count_cons.
Qed.

(** ** Accumulating counts *)

Lemma map_const_seq {A} (c : A) (s n : nat) :
  map (fun _ => c) (seq s n) = repeat c n.
Proof.
  revert s. induction n as [|n IH]; intros s; simpl; [reflexivity|].
  f_equal. apply IH.
Qed.

Lemma counts_nil (n : nat) : counts n [] = zeros n.
Proof.
  unfold counts, zeros. rewrite <- (map_const_seq _ 0 n).
  apply map_ext. intros i. exact (map_const_seq 0%Z 0 n).
Qed.

Lemma valid_pairs_length (n : nat) (pred target : ndarray Z) :
  length (valid_pairs n pred target) <= length (data target).
Proof.
  unfold valid_pairs.
  etransitivity; [apply filter_length_le|].
  rewrite length_combine. lia.
Qed.

Lemma valid_pairs_label (n : nat) (pred target : ndarray Z) (s : Z * Z) :
  In s (valid_pairs n pred target) ->
  ConfusionMatrix.valid_label n (fst s) = true.
Proof.
  unfold valid_pairs. intros H. apply filter_In in H. apply H.
Qed.

Lemma matrix_add_counts (n : nat) (P B : list (Z * Z)) :
  (Z.of_nat (length P) + Z.of_nat (length B) < 2 ^ 31)%Z ->
  matrix_add (counts n P) (astype_int32 (counts n B)) = counts n (P ++ B).
Proof.
  intros H. unfold matrix_add, astype_int32, counts.
  rewrite map_map, map2_map_seq. apply map_ext. intros i.
  rewrite map_map, map2_map_seq. apply map_ext. intros j.
  pose proof (count_bounds (in_cell n i j) P).
  pose proof (count_bounds (in_cell n i j) B).
  rewrite of_float_exact by lia.
  rewrite int32_add_exact by lia.
  symmetry. apply count_app.
Qed.

Lemma add_all_counts (n : nat) (b : bool) (batches : list batch) :
  1 <= n ->
  Forall (fun x => same_shaped (fst x) (snd x)) batches ->
  forall P : list (Z * Z),
    (Z.of_nat (length P) + total_size batches < 2 ^ 31)%Z ->
    ConfusionMatrix.add_all (ConfusionMatrix.mk n b (counts n P)) batches
    = Ok (ConfusionMatrix.mk n b (counts n (P ++ all_valid_pairs n batches))).
Proof.
  intros Hn Hall. induction Hall as [|[pred target] rest Hx _ IH];
    intros P Hsize.
  - simpl. rewrite app_nil_r. reflexivity.
  - simpl in Hx, Hsize.
    cbn [ConfusionMatrix.add_all all_valid_pairs].
    rewrite add_same_shape by assumption.
    unfold ConfusionMatrix.set_conf.
    cbn [bind ConfusionMatrix.num_classes ConfusionMatrix.normalized
         ConfusionMatrix.conf].
    pose proof (valid_pairs_length n pred target) as Hlen.
    assert (Hrest : (0 <= total_size rest)%Z).
    { clear. induction rest as [|[p t] r IHr]; simpl; lia. }
    rewrite matrix_add_counts by lia.
    rewrite IH by (rewrite length_app; lia).
    rewrite <- app_assoc. reflexivity.
Qed.

Lemma cell_matrix_add (n : nat) (a b : matrix) (i j : nat) :
  square n a -> square n b -> i < n -> j < n ->
  cell (matrix_add a b) i j = Int32.add (cell a i j) (cell b i j).
Proof.
  intros [Ha Hra] [Hb Hrb] Hi Hj. unfold cell, matrix_add.
  rewrite (map2_nth _ a b [] [] []) by lia.
  assert (Hai : length (nth i a []) = n).
  { rewrite Forall_forall in Hra. apply Hra, nth_In. lia. }
  assert (Hbi : length (nth i b []) = n).
  { rewrite Forall_forall in Hrb. apply Hrb, nth_In. lia. }
  apply map2_nth; lia.
Qed.

Lemma cell_astype_int32 (m : matrix) (i j : nat) :
  cell (astype_int32 m) i j = Int32.of_float (cell m i j).
Proof.
  unfold cell, astype_int32.
  change (@nil Z) with (map Int32.of_float []) at 1.
  rewrite map_nth.
  change 0%Z with (Int32.of_float 0) at 1.
  rewrite map_nth. reflexivity.
Qed.

Lemma astype_int32_square (n : nat) (m : matrix) :
  square n m -> square n (astype_int32 m).
Proof.
  intros [H1 H2]. unfold astype_int32. split.
  - rewrite length_map. exact H1.
  - apply Forall_map. eapply Forall_impl; [|exact H2].
    intros row Hrow. cbn beta. rewrite length_map. exact Hrow.
Qed.

Create HintDb matrices.
#[local] Hint Resolve counts_square astype_int32_square : matrices.

Lemma in_cell_valid (n i j : nat) (s : Z * Z) :
  i < n -> j < n -> ConfusionMatrix.valid_label n (fst s) = true ->
  in_cell n i j s = ((fst s =? Z.of_nat i)%Z && counted_in n j (snd s)).
Proof.
  intros Hi Hj Hv. unfold in_cell.
  rewrite !bin_number_counted_in by assumption. f_equal.
  unfold counted_in, ConfusionMatrix.valid_label in *.
  apply andb_prop in Hv. destruct Hv as [_ Hv]. apply Z.ltb_lt in Hv.
  destruct (Z.eqb_spec (fst s) (Z.of_nat n)); [lia|].
  apply orb_false_r.
Qed.

Lemma all_valid_pairs_label (n : nat) (batches : list batch) (s : Z * Z) :
  In s (all_valid_pairs n batches) ->
  ConfusionMatrix.valid_label n (fst s) = true.
Proof.
  induction batches as [|[pred target] rest IH]; simpl; [tauto|].
  intros H. apply in_app_or in H. destruct H as [H|H].
  - eapply valid_pairs_label. exact H.
  - apply IH, H.
Qed.

Lemma valid_label_between (n : nat) (v : Z) :
  ConfusionMatrix.valid_label n v = true -> between_edges n v = true.
Proof.
  unfold ConfusionMatrix.valid_label, between_edges. intros H.
  apply andb_prop in H. destruct H as [H1 H2].
  apply Z.leb_le in H1. apply Z.ltb_lt in H2.
  apply andb_true_intro. split; apply Z.leb_le; lia.
Qed.

(* ================================================================= *)
(** * The sum of the cells *)

(** C1 (amended).  For every sequence of [add] calls on a fresh
    [ConfusionMatrix] with at least one class, on arrays of one shape and
    with fewer than 2^31 elements in total (so that no [int32] cell wraps
    around), every call returns normally and the sum of all cells of the
    raw matrix is the number of pixel pairs whose target label lies in
    [[0, num_classes)] and whose predicted label lies in
    [[0, num_classes]], both ends included. *)
Theorem sum_of_cells_counts_binned_pairs
        (n : nat) (normalized : bool) (batches : list batch) :
  1 <= n ->
  Forall (fun x => same_shaped (fst x) (snd x)) batches ->
  (total_size batches < 2 ^ 31)%Z ->
  exists cm,
    ConfusionMatrix.add_all (ConfusionMatrix.init n normalized) batches = Ok cm
    /\ sum_all (ConfusionMatrix.conf cm)
       = count (fun s => between_edges n (snd s)) (all_valid_pairs n batches).
Proof.
  intros Hn Hall Hsize.
  unfold ConfusionMatrix.init, ConfusionMatrix.reset, ConfusionMatrix.set_conf.
  cbn [ConfusionMatrix.num_classes ConfusionMatrix.normalized].
  rewrite <- counts_nil.
  rewrite (add_all_counts normalized Hn Hall []) by (simpl length; lia).
  eexists. split; [reflexivity|].
  cbn [ConfusionMatrix.conf app]. rewrite sum_all_counts by exact Hn.
  apply count_ext. intros s Hs.
  rewrite (valid_label_between n (fst s)); [reflexivity|].
  eapply all_valid_pairs_label. exact Hs.
Qed.

Lemma sum_of_cells_counts_binned_pairs_witness :
  exists cm,
    ConfusionMatrix.add_all (ConfusionMatrix.init 3 false)
      [(vector [0; 1; 2; 0; 3; 7; -1]%Z, vector [0; 1; 1; 2; 2; 2; 5]%Z)]
    = Ok cm
    /\ sum_all (ConfusionMatrix.conf cm)
       = count (fun s => between_edges 3 (snd s))
               (all_valid_pairs 3
                  [(vector [0; 1; 2; 0; 3; 7; -1]%Z,
                    vector [0; 1; 1; 2; 2; 2; 5]%Z)]).
Proof.
  apply (sum_of_cells_counts_binned_pairs (n := 3) false).
  - lia.
  - constructor; [|constructor].
    repeat split; try reflexivity; discriminate.
  - reflexivity.
Defined.

(** C1, as stated, fails: with three classes the single pair with target
    label 0 and predicted label 7 has a target in range, yet no cell
    counts it. *)
Lemma sum_of_cells_misses_dropped_prediction :
  same_shaped (vector [7%Z]) (vector [0%Z])
  /\ exists cm,
      ConfusionMatrix.add_all (ConfusionMatrix.init 3 false)
        [(vector [7%Z], vector [0%Z])] = Ok cm
      /\ sum_all (ConfusionMatrix.conf cm) = 0%Z
      /\ Z.of_nat (length (all_valid_pairs 3 [(vector [7%Z], vector [0%Z])]))
         = 1%Z.
Proof.
  split.
  - repeat split; try reflexivity; discriminate.
  - eexists. split; [reflexivity|]. split; reflexivity.
Qed.

(* ================================================================= *)
(** * Predictions outside the classes *)

(** C10.  In [add] on arrays of one shape (fewer than 2^31 elements, at
    least one class), no predicted label raises an error, and cell
    [(i, j)] grows by the number of pairs with a target label [i] in
    [[0, num_classes)] whose predicted label is counted in column [j]:
    the label [j] itself, or the label [num_classes] when [j] is the last
    column.  A predicted label outside [[0, num_classes]] is counted in
    no column. *)
Theorem add_bins_predictions
        (n : nat) (cm : ConfusionMatrix.t) (pred target : ndarray Z) :
  ConfusionMatrix.num_classes cm = n ->
  1 <= n ->
  square n (ConfusionMatrix.conf cm) ->
  same_shaped pred target ->
  (Z.of_nat (length (data target)) < 2 ^ 31)%Z ->
  (exists cm',
      ConfusionMatrix.add cm pred target = Ok cm'
      /\ forall i j, i < n -> j < n ->
           cell (ConfusionMatrix.conf cm') i j
           = Int32.add
               (cell (ConfusionMatrix.conf cm) i j)
               (count (fun s => (fst s =? Z.of_nat i)%Z
                                && counted_in n j (snd s))
                      (valid_pairs n pred target)))
  /\ (forall p j, j < n -> between_edges n p = false ->
              counted_in n j p = false)
  /\ counted_in n (n - 1) (Z.of_nat n) = true.
Proof.
  intros Hnum Hn Hsq Hsh Hsize. split; [|split].
  - rewrite add_same_shape by (rewrite ?Hnum; assumption).
    eexists. split; [reflexivity|].
    intros i j Hi Hj. cbn [ConfusionMatrix.set_conf ConfusionMatrix.conf].
    rewrite Hnum.
    rewrite (@cell_matrix_add n) by auto with matrices.
    rewrite cell_astype_int32, cell_counts by assumption.
    pose proof (count_bounds (in_cell n i j) (valid_pairs n pred target)).
    pose proof (valid_pairs_length n pred target).
    rewrite of_float_exact by lia.
    f_equal. apply count_ext. intros s Hs.
    apply in_cell_valid; try assumption.
    eapply valid_pairs_label. exact Hs.
  - intros p j Hj Hp. unfold counted_in, between_edges in *.
    apply andb_false_iff in Hp.
    destruct (Z.eqb_spec p (Z.of_nat j)), (Z.eqb_spec p (Z.of_nat n));
      simpl; try reflexivity;
      destruct Hp as [Hp|Hp]; apply Z.leb_gt in Hp; lia.
  - unfold counted_in. rewrite Z.eqb_refl.
    replace (S (n - 1) =? n) with true by (symmetry; apply Nat.eqb_eq; lia).
    apply orb_true_r.
Qed.

Lemma add_bins_predictions_witness :
  exists cm',
    ConfusionMatrix.add (ConfusionMatrix.init 3 false)
      (vector [0; 3; 7; -1]%Z) (vector [0; 2; 2; 2]%Z) = Ok cm'
    /\ ConfusionMatrix.conf cm' = [[1; 0; 0]; [0; 0; 0]; [0; 0; 1]]%Z.
Proof.
  destruct (@add_bins_predictions 3 (ConfusionMatrix.init 3 false)
              (vector [0; 3; 7; -1]%Z) (vector [0; 2; 2; 2]%Z))
    as [(cm' & Hadd & _) _].
  - reflexivity.
  - lia.
  - split; [reflexivity|]. repeat constructor.
  - repeat split; try reflexivity; discriminate.
  - simpl. lia.
  - exists cm'. split; [exact Hadd|].
    vm_compute in Hadd. inversion Hadd. reflexivity.
Defined.

(* ================================================================= *)
(** * Merging independently accumulated matrices *)

Section Merge.

Lemma map2_comm {A B} (f : A -> A -> B) (l l' : list A) :
  (forall x y, f x y = f y x) -> map2 f l l' = map2 f l' l.
Proof.
  intros Hf. revert l'. induction l as [|x l IH]; intros [|y l'];
    simpl; try reflexivity.
  rewrite Hf, IH. reflexivity.
Qed.

Lemma map2_assoc {A} (f : A -> A -> A) (l l' l'' : list A) :
  (forall x y z, f (f x y) z = f x (f y z)) ->
  map2 f (map2 f l l') l'' = map2 f l (map2 f l' l'').
Proof.
  intros Hf. revert l' l''.
  induction l as [|x l IH]; intros [|y l'] [|z l'']; simpl;
    try reflexivity.
  rewrite Hf, IH. reflexivity.
Qed.

Lemma merge_comm (a b : matrix) : merge a b = merge b a.
Proof.
  unfold merge, matrix_add. apply map2_comm. intros x y.
  apply map2_comm. apply int32_add_comm.
Qed.

Lemma merge_assoc (a b c : matrix) :
  merge (merge a b) c = merge a (merge b c).
Proof.
  unfold merge, matrix_add. apply map2_assoc. intros x y z.
  apply map2_assoc. apply int32_add_assoc.
Qed.

Lemma merge_swap (a b c : matrix) :
  merge (merge a b) c = merge (merge a c) b.
Proof.
  rewrite merge_assoc, (merge_comm b c), <- merge_assoc. reflexivity.
Qed.

Lemma map2_repeat {A B C} (f : A -> B -> C) (a : A) (b : B) (n : nat) :
  map2 f (repeat a n) (repeat b n) = repeat (f a b) n.
Proof.
  induction n as [|n IH]; simpl; [reflexivity|]. rewrite IH. reflexivity.
Qed.

Lemma merge_zeros (n : nat) : merge (zeros n) (zeros n) = zeros n.
Proof.
  unfold merge, matrix_add, zeros. rewrite map2_repeat, map2_repeat.
  reflexivity.
Qed.

Variables (n : nat) (b : bool).

Lemma add_all_cons (m : matrix) (x : batch) (rest : list batch) :
  ConfusionMatrix.add_all (ConfusionMatrix.mk n b m) (x :: rest)
  = (inc <- increment n (fst x) (snd x) ;;
     ConfusionMatrix.add_all (ConfusionMatrix.mk n b (matrix_add m inc)) rest).
Proof.
  destruct x as [pred target]. cbn [ConfusionMatrix.add_all fst snd].
  rewrite add_increment. cbn [ConfusionMatrix.num_classes].
  destruct (increment n pred target); reflexivity.
Qed.

Lemma add_all_merge (tagged : list (bool * batch)) :
  forall ma mb : matrix,
    match
      ConfusionMatrix.add_all (ConfusionMatrix.mk n b ma)
        (map snd (filter fst tagged)),
      ConfusionMatrix.add_all (ConfusionMatrix.mk n b mb)
        (map snd (filter (fun x => negb (fst x)) tagged))
    with
    | Ok a, Ok b' =>
        ConfusionMatrix.add_all (ConfusionMatrix.mk n b (merge ma mb))
          (map snd tagged)
        = Ok (ConfusionMatrix.mk n b
               (merge (ConfusionMatrix.conf a) (ConfusionMatrix.conf b')))
    | _, _ =>
        raises (ConfusionMatrix.add_all (ConfusionMatrix.mk n b (merge ma mb))
                                        (map snd tagged))
    end.
Proof.
  induction tagged as [|[[|] x] rest IH]; intros ma mb.
  - reflexivity.
  - cbn [filter fst snd negb map]. rewrite !add_all_cons.
    destruct (increment n (fst x) (snd x)) as [inc|e]; cbn [bind].
    + specialize (IH (matrix_add ma inc) mb).
      fold (merge (merge ma mb) inc). rewrite merge_swap. exact IH.
    + exists e. reflexivity.
  - cbn [filter fst snd negb map]. rewrite !add_all_cons.
    destruct (increment n (fst x) (snd x)) as [inc|e]; cbn [bind].
    + specialize (IH ma (matrix_add mb inc)).
      fold (merge (merge ma mb) inc). rewrite merge_assoc. exact IH.
    + destruct (ConfusionMatrix.add_all (ConfusionMatrix.mk n b ma) _);
        exists e; reflexivity.
Qed.

(** Accumulation returns normally on arrays of one shape. *)
Lemma add_all_returns (m : matrix) (batches : list batch) :
  1 <= n ->
  Forall (fun x => same_shaped (fst x) (snd x)) batches ->
  exists cm, ConfusionMatrix.add_all (ConfusionMatrix.mk n b m) batches = Ok cm.
Proof.
  intros Hn Hall. revert m.
  induction Hall as [|x rest Hx _ IH]; intros m.
  - eexists. reflexivity.
  - rewrite add_all_cons, increment_same_shape by assumption.
    cbn [bind]. apply IH.
Qed.

(** The counts of the pixels of two parts merge into the counts of all
    the pixels, however the pixels are split. *)
Lemma merge_counts (l l' : list (Z * Z)) :
  (Z.of_nat (length l) + Z.of_nat (length l') < 2 ^ 31)%Z ->
  merge (counts n l) (counts n l') = counts n (l ++ l').
Proof.
  intros H. unfold merge, matrix_add, counts.
  rewrite map2_map_seq. apply map_ext. intros i.
  rewrite map2_map_seq. apply map_ext. intros j.
  pose proof (count_bounds (in_cell n i j) l).
  pose proof (count_bounds (in_cell n i j) l').
  rewrite int32_add_exact by lia.
  symmetry. apply count_app.
Qed.

End Merge.

(** C7.  Split a sequence of [add] calls into two parts in any way (each
    call is tagged with the part it goes to).  When both parts accumulate
    into their own fresh [ConfusionMatrix] without error, accumulating the
    whole sequence into a single fresh [ConfusionMatrix] yields exactly
    the element-wise sum of the two count matrices, and otherwise the
    whole sequence raises as well.  The merge is associative and
    commutative. *)
Theorem merge_equals_joint_accumulation
        (n : nat) (normalized : bool) (tagged : list (bool * batch)) :
  match
    ConfusionMatrix.add_all (ConfusionMatrix.init n normalized)
      (map snd (filter fst tagged)),
    ConfusionMatrix.add_all (ConfusionMatrix.init n normalized)
      (map snd (filter (fun x => negb (fst x)) tagged))
  with
  | Ok part_a, Ok part_b =>
      exists whole,
        ConfusionMatrix.add_all (ConfusionMatrix.init n normalized)
          (map snd tagged) = Ok whole
        /\ ConfusionMatrix.conf whole
           = merge (ConfusionMatrix.conf part_a) (ConfusionMatrix.conf part_b)
  | _, _ =>
      raises (ConfusionMatrix.add_all (ConfusionMatrix.init n normalized)
                (map snd tagged))
  end
  /\ (forall a b c : matrix, merge (merge a b) c = merge a (merge b c))
  /\ (forall a b : matrix, merge a b = merge b a).
Proof.
  split; [|split; [exact merge_assoc | exact merge_comm]].
  pose proof (add_all_merge n normalized tagged (zeros n) (zeros n)) as H.
  rewrite merge_zeros in H.
  unfold ConfusionMatrix.init, ConfusionMatrix.reset, ConfusionMatrix.set_conf.
  cbn [ConfusionMatrix.num_classes ConfusionMatrix.normalized].
  destruct (ConfusionMatrix.add_all _ (map snd (filter fst tagged)));
    [|exact H].
  destruct (ConfusionMatrix.add_all _ (map snd (filter _ tagged)));
    [|exact H].
  eexists. split; [exact H|reflexivity].
Qed.

(* ================================================================= *)
(** * Scores and labels *)

(** [argmax] returns the position of the first greatest element. *)
Lemma argmax_from_spec (l pre : list Q) (best_i : nat) :
  best_i < length pre ->
  (forall j, j < length pre ->
             (nth j (pre ++ l) 0 <= nth best_i (pre ++ l) 0)%Q) ->
  (forall j, j < best_i ->
             (nth j (pre ++ l) 0 < nth best_i (pre ++ l) 0)%Q) ->
  let r := argmax_from best_i (nth best_i (pre ++ l) 0%Q) (length pre) l in
  r < length (pre ++ l)
  /\ (forall j, j < length (pre ++ l) ->
                (nth j (pre ++ l) 0 <= nth r (pre ++ l) 0)%Q)
  /\ (forall j, j < r -> (nth j (pre ++ l) 0 < nth r (pre ++ l) 0)%Q).
Proof.
  revert pre best_i. induction l as [|x l IH]; intros pre best_i Hb Hle Hlt.
  - cbn [argmax_from]. rewrite app_nil_r in *. auto.
  - cbn [argmax_from].
    assert (Hx : nth (length pre) (pre ++ x :: l) 0%Q = x).
    { rewrite app_nth2, Nat.sub_diag by lia. reflexivity. }
    assert (E : pre ++ x :: l = (pre ++ [x]) ++ l)
      by (rewrite <- app_assoc; reflexivity).
    assert (Hlen : length (pre ++ [x]) = S (length pre))
      by (rewrite length_app; simpl; lia).
    destruct (Qle_bool x (nth best_i (pre ++ x :: l) 0%Q)) eqn:Hc.
    + apply Qle_bool_iff in Hc.
      specialize (IH (pre ++ [x]) best_i).
      rewrite <- E, Hlen in IH. apply IH.
      * lia.
      * intros j Hj. destruct (Nat.eq_dec j (length pre)) as [->|Hne].
        -- rewrite Hx. exact Hc.
        -- apply Hle. lia.
      * exact Hlt.
    + assert (Hgt : (nth best_i (pre ++ x :: l) 0 < x)%Q).
      { apply Qnot_le_lt. intros H. apply Qle_bool_iff in H. congruence. }
      specialize (IH (pre ++ [x]) (length pre)).
      rewrite <- E, Hlen, Hx in IH. apply IH.
      * lia.
      * intros j Hj. destruct (Nat.eq_dec j (length pre)) as [->|Hne].
        -- rewrite Hx. apply Qle_refl.
        -- apply Qle_trans with (nth best_i (pre ++ x :: l) 0%Q).
           ++ apply Hle. lia.
           ++ apply Qlt_le_weak, Hgt.
      * intros j Hj. apply Qle_lt_trans with (nth best_i (pre ++ x :: l) 0%Q).
        -- apply Hle. exact Hj.
        -- exact Hgt.
Qed.

Lemma argmax_spec (l : list Q) :
  l <> [] ->
  argmax l < length l
  /\ (forall j, j < length l -> (nth j l 0 <= nth (argmax l) l 0)%Q)
  /\ (forall j, j < argmax l -> (nth j l 0 < nth (argmax l) l 0)%Q).
Proof.
  destruct l as [|x l]; [congruence|]. intros _.
  apply (@argmax_from_spec l [x] 0).
  - simpl. lia.
  - intros j Hj. simpl in Hj. replace j with 0 by lia. apply Qle_refl.
  - intros j Hj. lia.
Qed.

Lemma argmax_dim1_defined (pred : ndarray Q) (d0 d1 : nat) (rest : list nat) :
  shape pred = d0 :: S d1 :: rest ->
  exists labels,
    argmax_dim1 pred = Ok labels /\ shape labels = d0 :: rest.
Proof.
  intros H. unfold argmax_dim1. rewrite H. cbn [Nat.eqb].
  eexists. split; reflexivity.
Qed.

Lemma flat_map_length_const {A B} (f : A -> list B) (l : list A) (r : nat) :
  (forall x, In x l -> length (f x) = r) ->
  length (flat_map f l) = length l * r.
Proof.
  induction l as [|x l IH]; intros H; [reflexivity|].
  cbn [flat_map length]. rewrite length_app, IH, (H x).
  - reflexivity.
  - left. reflexivity.
  - intros y Hy. apply H. right. exact Hy.
Qed.

Lemma argmax_dim1_labels (pred : ndarray Q) (d0 d1 : nat) (rest : list nat) :
  shape pred = d0 :: d1 :: rest ->
  1 <= d1 ->
  exists labels,
    argmax_dim1 pred = Ok labels
    /\ shape labels = d0 :: rest
    /\ wf_array labels
    /\ Forall (fun v => (0 <= v < Z.of_nat d1)%Z) (data labels).
Proof.
  intros Hsh Hd. unfold argmax_dim1. rewrite Hsh.
  replace (d1 =? 0) with false by (symmetry; apply Nat.eqb_neq; lia).
  eexists. split; [reflexivity|]. cbn [shape data]. split; [reflexivity|].
  split.
  - unfold wf_array. cbn [shape data size fold_right].
    rewrite (@flat_map_length_const _ _ _ _ (size rest)).
    + rewrite length_seq. reflexivity.
    + intros i _. rewrite length_map, length_seq. reflexivity.
  - apply Forall_forall. intros v Hv. apply in_flat_map in Hv.
    destruct Hv as (i & _ & Hv). apply in_map_iff in Hv.
    destruct Hv as (k & <- & _).
    match goal with
    | |- context [argmax ?l] =>
        destruct (@argmax_spec l) as (Hlt & _)
    end.
    + destruct d1; [lia|]. discriminate.
    + rewrite length_map, length_seq in Hlt. lia.
Qed.










(* ================================================================= *)
(** * The [ignore_indices] argument *)

(** C9 (amended).  The constructor raises [ValueError] exactly for an
    [ignore_indices] argument that is neither [None], nor an integer, nor
    an iterable; [None], an integer and every iterable, whatever its
    elements, are accepted. *)
Theorem init_accepts_every_iterable
        (n : nat) (reduced_probs normalized : bool) (v : pyvalue) :
  (is_none v || isinstance_int v || iterable v = true
   /\ exists m, ConfusionMatrixBasedMetric.init n reduced_probs normalized v
                = Ok m)
  \/ (is_none v || isinstance_int v || iterable v = false
      /\ ConfusionMatrixBasedMetric.init n reduced_probs normalized v
         = Raise ValueError).
Proof.
  destruct v as [|[i|q|str|b]|l|l]; cbn;
    solve [ left; split; [reflexivity | eexists; reflexivity]
          | right; split; reflexivity ].
Qed.

(** C9, as stated, fails: a list holding a string is not an iterable of
    integers, and the constructor accepts it. *)
Lemma init_accepts_list_of_strings :
  ConfusionMatrixBasedMetric.init 3 false false (PyList [PyStr "a"])
  = Ok (ConfusionMatrixBasedMetric.mk (ConfusionMatrix.init 3 false) false
          (Some [PyStr "a"])).
Proof. reflexivity. Qed.

(* ================================================================= *)
(** * Arrays of different shapes *)

Lemma size_firstn_skipn (k : nat) (sh : list nat) :
  size sh = size (firstn k sh) * size (skipn k sh).
Proof.
  revert sh. induction k as [|k IH]; intros [|d ds]; simpl; try lia.
  rewrite (IH ds). lia.
Qed.

Lemma in_bounds_firstn (sh p : list nat) :
  in_bounds sh p = true -> in_bounds (firstn (length p) sh) p = true.
Proof.
  revert sh. induction p as [|i p IH]; intros [|d ds] H; simpl in *;
    try discriminate; try reflexivity.
  apply andb_prop in H. destruct H as [H1 H2].
  rewrite H1. simpl. apply IH, H2.
Qed.

Lemma in_bounds_length (sh p : list nat) :
  in_bounds sh p = true -> length p <= length sh.
Proof.
  revert sh. induction p as [|i p IH]; intros [|d ds] H; simpl in *;
    try discriminate; try lia.
  apply andb_prop in H. destruct H as [_ H2]. specialize (IH _ H2). lia.
Qed.

Lemma ravel_lt (sh p : list nat) :
  in_bounds sh p = true -> length p = length sh -> ravel sh p < size sh.
Proof.
  revert p. induction sh as [|d ds IH]; intros [|i p] H Hlen; simpl in *;
    try discriminate; try lia.
  apply andb_prop in H. destruct H as [H1 H2]. apply Nat.ltb_lt in H1.
  specialize (IH p H2 ltac:(lia)). nia.
Qed.

Lemma block_length {A} (a : ndarray A) (p : list nat) :
  wf_array a -> in_bounds (shape a) p = true ->
  length (firstn (size (skipn (length p) (shape a)))
                 (skipn (ravel (firstn (length p) (shape a)) p
                         * size (skipn (length p) (shape a)))
                        (data a)))
  = size (skipn (length p) (shape a)).
Proof.
  intros Hwf Hb.
  pose proof (in_bounds_length _ _ Hb) as Hk.
  pose proof (ravel_lt _ _ (in_bounds_firstn _ _ Hb)) as Hlt.
  rewrite length_firstn in Hlt.
  specialize (Hlt ltac:(lia)).
  pose proof (size_firstn_skipn (length p) (shape a)) as Hsz.
  rewrite length_firstn, length_skipn, Hwf. nia.
Qed.

Lemma take_flat_length {A} (a : ndarray A) (k : nat) (ps : list (list nat))
      (l : list A) :
  wf_array a ->
  Forall (fun p => length p = k) ps ->
  take_flat a (k, ps) = Ok l ->
  length l = length ps * size (skipn k (shape a)).
Proof.
  intros Hwf Hk. unfold take_flat.
  destruct (ndim a <? k); [discriminate|].
  destruct (forallb (in_bounds (shape a)) ps) eqn:Hb; [|discriminate].
  intros H. injection H as <-.
  rewrite forallb_forall in Hb.
  induction Hk as [|p ps Hp _ IH]; [reflexivity|].
  cbn [flat_map length]. rewrite length_app, IH.
  - subst k. rewrite (@block_length _ a p Hwf); [lia|].
    apply Hb. left. reflexivity.
  - intros q Hq. apply Hb. right. exact Hq.
Qed.

Lemma valid_positions_length (n : nat) (target : ndarray Z) :
  Forall (fun p => length p = ndim target) (valid_positions n target).
Proof.
  apply Forall_forall. intros p Hp. apply indices_length.
  eapply select_In. exact Hp.
Qed.

(** C3 (amended).  [add] compares no shapes.  On filled arrays, with at
    least one class and a [target] of rank at least one, it raises an
    error exactly when [predicted] has fewer axes than [target], or a
    position holding an in-range target label lies outside [predicted],
    or the further axes of [predicted] do not hold exactly one element for
    each such position; every other difference of shapes is accepted. *)
Theorem add_raises_only_when_indexing_fails
        (cm : ConfusionMatrix.t) (pred target : ndarray Z) :
  wf_array pred -> wf_array target -> shape target <> [] ->
  1 <= ConfusionMatrix.num_classes cm ->
  raises (ConfusionMatrix.add cm pred target)
  <-> (ndim pred < ndim target
       \/ (exists p, In p (valid_positions (ConfusionMatrix.num_classes cm)
                                          target)
                    /\ in_bounds (shape pred) p = false)
       \/ length (valid_positions (ConfusionMatrix.num_classes cm) target)
            * size (skipn (ndim target) (shape pred))
          <> length (valid_positions (ConfusionMatrix.num_classes cm) target)).
Proof.
  intros Hp Ht Hne Hn.
  set (n := ConfusionMatrix.num_classes cm) in *.
  rewrite add_increment. fold n. unfold increment.
  rewrite np_where_select by exact Hne.
  cbn [bind map_array shape data]. fold (valid_positions n target).
  fold (ndim target).
  assert (Htake : take_flat target (ndim target, valid_positions n target)
                  = Ok (select (map (ConfusionMatrix.valid_label n)
                                    (data target)) (data target))).
  { apply take_flat_select; assumption. }
  pose proof (@take_flat_length _ target _ _ _ Ht
                                (valid_positions_length n target) Htake)
    as Hlt.
  unfold ndim in Hlt. rewrite skipn_all in Hlt. simpl size in Hlt.
  destruct (take_flat pred (ndim target, valid_positions n target))
    as [l|e] eqn:Hpred.
  - pose proof (@take_flat_length _ pred _ _ _ Hp
                                  (valid_positions_length n target) Hpred)
      as Hl.
    unfold take_flat in Hpred.
    destruct (ndim pred <? ndim target) eqn:Hnd; [discriminate|].
    destruct (forallb (in_bounds (shape pred)) (valid_positions n target))
      eqn:Hfb; [|discriminate].
    apply Nat.ltb_ge in Hnd. rewrite forallb_forall in Hfb.
    cbn [bind]. rewrite Htake. cbn [bind]. unfold vstack_T.
    destruct (Nat.eqb_spec
                (length (select (map (ConfusionMatrix.valid_label n)
                                     (data target)) (data target)))
                (length l)) as [Heq|Hneq]; cbn [bind].
    + unfold histogramdd.
      replace (n <? 1) with false by (symmetry; apply Nat.ltb_ge; lia).
      cbn [bind]. split.
      * intros [e He]. discriminate.
      * intros [H|[(p & Hin & Hb)|H]]; [lia| |].
        -- rewrite (Hfb p Hin) in Hb. discriminate.
        -- exfalso. apply H. lia.
    + split.
      * intros _. right. right. lia.
      * intros _. exists ValueError. reflexivity.
  - cbn [bind]. split.
    + intros _. unfold take_flat in Hpred.
      destruct (ndim pred <? ndim target) eqn:Hnd.
      * left. apply Nat.ltb_lt. exact Hnd.
      * right. left.
        destruct (forallb (in_bounds (shape pred)) (valid_positions n target))
          eqn:Hfb; [discriminate|].
        assert (Hex : existsb (fun p => negb (in_bounds (shape pred) p))
                              (valid_positions n target) = true).
        { clear - Hfb. induction (valid_positions n target) as [|p ps IH];
            simpl in *; [discriminate|].
          destruct (in_bounds (shape pred) p); simpl in *; auto. }
        apply existsb_exists in Hex. destruct Hex as (p & Hin & Hb).
        exists p. split; [exact Hin|].
        destruct (in_bounds (shape pred) p); [discriminate|reflexivity].
    + intros _. exists e. reflexivity.
Qed.

Lemma add_raises_only_when_indexing_fails_witness :
  raises (ConfusionMatrix.add (ConfusionMatrix.init 3 false)
            (vector [0%Z]) (vector [5; 1]%Z)).
Proof.
  refine (proj2 (@add_raises_only_when_indexing_fails
                   (ConfusionMatrix.init 3 false) (vector [0%Z])
                   (vector [5; 1]%Z) _ _ _ _) _).
  - reflexivity.
  - reflexivity.
  - discriminate.
  - simpl. lia.
  - right. left. exists [1]. split; [|reflexivity].
    vm_compute. left. reflexivity.
Defined.

(** C3, as stated, fails: a [predicted] array of four labels and a
    [target] array of two labels differ in shape, and [add] returns
    normally, having counted the first two labels of [predicted]. *)
Lemma add_accepts_longer_prediction :
  shape (vector [0; 1; 2; 0]%Z) <> shape (vector [0; 1]%Z)
  /\ ConfusionMatrix.add (ConfusionMatrix.init 3 false)
       (vector [0; 1; 2; 0]%Z) (vector [0; 1]%Z)
     = Ok (ConfusionMatrix.mk 3 false [[1; 0; 0]; [0; 1; 0]; [0; 0; 0]]%Z).
Proof.
  split; [discriminate | reflexivity].
Qed.

(* ================================================================= *)
(** * Floating-point facts *)

Section Float_facts.

Lemma float_add_zero_l (x : np_float) : Float.add Float.zero x = x.
Proof.
  destruct x as [|s|q]; try reflexivity.
  unfold Float.add, Float.zero, Float.of_Z.
  f_equal. apply Qcplus_0_l.
Qed.

Lemma float_add_zero_r (x : np_float) : Float.add x Float.zero = x.
Proof.
  destruct x as [|s|q]; try reflexivity.
  unfold Float.add, Float.zero, Float.of_Z.
  f_equal. apply Qcplus_0_r.
Qed.

Lemma float_sub_diag (q : Qc) : Float.sub (Fin q) (Fin q) = Float.zero.
Proof.
  unfold Float.sub, Float.neg, Float.add, Float.zero, Float.of_Z.
  f_equal. apply Qcplus_opp_r.
Qed.

Lemma float_mul_zero_r (q : Qc) : Float.mul (Fin q) Float.zero = Float.zero.
Proof.
  unfold Float.mul, Float.zero, Float.of_Z. f_equal. apply Qcmult_0_r.
Qed.

Lemma is_zero_true (q : Qc) : Float.is_zero q = true <-> q = Q2Qc 0.
Proof.
  unfold Float.is_zero, Qc_eq_bool.
  destruct (Qc_eq_dec q (Q2Qc 0)); split; intros; congruence.
Qed.

Lemma is_zero_false (q : Qc) : Float.is_zero q = false <-> q <> Q2Qc 0.
Proof.
  unfold Float.is_zero, Qc_eq_bool.
  destruct (Qc_eq_dec q (Q2Qc 0)); split; intros; congruence.
Qed.

Lemma of_Z_inj_zero (z : Z) : Q2Qc (inject_Z z) = Q2Qc 0 <-> z = 0%Z.
Proof.
  rewrite Q2Qc_eq_iff. unfold Qeq, inject_Z. simpl. lia.
Qed.

Lemma float_div_zero_zero : Float.div Float.zero Float.zero = NaN.
Proof. reflexivity. Qed.

Lemma float_div_self (q : Qc) :
  q <> Q2Qc 0 -> Float.div (Fin q) (Fin q) = Float.one.
Proof.
  intros H. unfold Float.div.
  rewrite (proj2 (is_zero_false q) H).
  unfold Float.one, Float.of_Z. f_equal.
  unfold Qcdiv. apply Qcmult_inv_r. exact H.
Qed.

Lemma float_div_zero_l (q : Qc) :
  q <> Q2Qc 0 -> Float.div Float.zero (Fin q) = Float.zero.
Proof.
  intros H. unfold Float.div, Float.zero, Float.of_Z.
  rewrite (proj2 (is_zero_false q) H).
  f_equal. unfold Qcdiv. apply Qcmult_0_l.
Qed.

Lemma float_add_of_Z (a b : Z) :
  Float.add (Float.of_Z a) (Float.of_Z b) = Float.of_Z (a + b).
Proof.
  unfold Float.add, Float.of_Z. f_equal. unfold Qcplus.
  apply Q2Qc_eq_iff. cbn [this Q2Qc].
  rewrite !Qred_correct, inject_Z_plus. reflexivity.
Qed.

Lemma float_sum_of_Z (l : list Z) :
  Float.sum (map Float.of_Z l) = Float.of_Z (sum_list l).
Proof.
  induction l as [|x l IH]; [reflexivity|].
  cbn [map Float.sum fold_right sum_list].
  change (fold_right Float.add Float.zero (map Float.of_Z l))
    with (Float.sum (map Float.of_Z l)).
  rewrite IH. apply float_add_of_Z.
Qed.

Lemma float_sum_zeros (l : list np_float) :
  Forall (fun x => x = Float.zero) l -> Float.sum l = Float.zero.
Proof.
  induction 1 as [|x l Hx _ IH]; [reflexivity|].
  cbn [Float.sum fold_right]. subst x. rewrite float_add_zero_l. exact IH.
Qed.

(** [np.nanmean] is the mean of the entries that are numbers. *)
Lemma nanmean_is_mean_of_defined (a : list np_float) :
  nanmean a = mean (filter defined a).
Proof.
  unfold nanmean, mean, count. fold defined. f_equal.
  induction a as [|x a IH]; [reflexivity|].
  cbn [map filter Float.sum fold_right]. unfold defined at 1.
  destruct x as [|s|q]; cbn [Float.is_nan negb Float.sum fold_right].
  - rewrite float_add_zero_l. exact IH.
  - f_equal. exact IH.
  - f_equal. exact IH.
Qed.

End Float_facts.

(* ================================================================= *)
(** * Matrices entry by entry *)

Section Tabulate.

Context {A : Type}.

Lemma map_as_map_seq {B} (f : A -> B) (l : list A) (d : A) :
  map f l = map (fun i => f (nth i l d)) (seq 0 (length l)).
Proof.
  induction l as [|x l IH]; [reflexivity|].
  cbn [map length seq]. f_equal.
  rewrite <- seq_shift, map_map. exact IH.
Qed.

Lemma list_as_map_seq (l : list A) (d : A) :
  l = map (fun i => nth i l d) (seq 0 (length l)).
Proof.
  rewrite <- (map_as_map_seq (fun x => x) l d). symmetry. apply map_id.
Qed.

Lemma tabulate_row (n : nat) (f : nat -> nat -> A) (i : nat) :
  i < n -> nth i (tabulate n f) [] = map (f i) (seq 0 n).
Proof.
  intros Hi. unfold tabulate. rewrite (nth_map_seq _ 0 []) by exact Hi.
  reflexivity.
Qed.

Lemma tabulate_ext (n : nat) (f g : nat -> nat -> A) :
  (forall i j, i < n -> j < n -> f i j = g i j) ->
  tabulate n f = tabulate n g.
Proof.
  intros H. unfold tabulate. apply map_ext_in. intros i Hi.
  apply map_ext_in. intros j Hj. apply in_seq in Hi, Hj. apply H; lia.
Qed.

Lemma set_columns_tabulate (z : A) (idx : list nat) (n : nat)
      (f : nat -> nat -> A) :
  set_columns z idx (tabulate n f)
  = tabulate n (fun i j => if mem j idx then z else f i j).
Proof.
  unfold set_columns, tabulate. rewrite map_map. apply map_ext. intros i.
  unfold mapi. apply mapi_from_map_seq.
Qed.

Lemma set_rows_tabulate (z : A) (idx : list nat) (n : nat)
      (f : nat -> nat -> A) :
  set_rows z idx (tabulate n f)
  = tabulate n (fun i j => if mem i idx then z else f i j).
Proof.
  unfold set_rows, tabulate, mapi. rewrite mapi_from_map_seq.
  apply map_ext. intros i. destruct (mem i idx); [|reflexivity].
  rewrite map_map. reflexivity.
Qed.

Lemma diag_tabulate (d : A) (n : nat) (f : nat -> nat -> A) :
  diag d (tabulate n f) = map (fun c => f c c) (seq 0 n).
Proof.
  unfold diag, tabulate, mapi. rewrite mapi_from_map_seq.
  apply map_ext_in. intros c Hc. apply in_seq in Hc.
  apply (nth_map_seq _ 0 d). lia.
Qed.

Lemma column_tabulate (d : A) (n : nat) (f : nat -> nat -> A) (j : nat) :
  j < n -> column d (tabulate n f) j = map (fun i => f i j) (seq 0 n).
Proof.
  intros Hj. unfold column, tabulate. rewrite map_map.
  apply map_ext. intros i. apply (nth_map_seq _ 0 d). exact Hj.
Qed.

End Tabulate.

Lemma square_tabulate (n : nat) (m : matrix) :
  square n m -> m = tabulate n (cell m).
Proof.
  intros [Hlen Hrows]. unfold tabulate, cell.
  rewrite (list_as_map_seq m []) at 1. rewrite Hlen.
  apply map_ext_in. intros i Hi. apply in_seq in Hi.
  rewrite (list_as_map_seq (nth i m []) 0%Z) at 1.
  rewrite Forall_forall in Hrows. rewrite (Hrows (nth i m [])).
  - reflexivity.
  - apply nth_In. lia.
Qed.

Lemma tabulate_square (n : nat) (f : nat -> nat -> Z) :
  square n (tabulate n f).
Proof.
  unfold square, tabulate. split.
  - rewrite length_map, length_seq. reflexivity.
  - apply Forall_forall. intros row H. apply in_map_iff in H.
    destruct H as (i & <- & _). rewrite length_map, length_seq. reflexivity.
Qed.

Lemma cell_tabulate (n : nat) (f : nat -> nat -> Z) (i j : nat) :
  i < n -> j < n -> cell (tabulate n f) i j = f i j.
Proof.
  intros Hi Hj. unfold cell. rewrite tabulate_row by exact Hi.
  apply (nth_map_seq _ 0 0%Z). exact Hj.
Qed.

(** The Dice formula, class by class. *)
Lemma dice_int_tabulate (n : nat) (f : nat -> nat -> Z) :
  DiceCoefficient.dice_int n (tabulate n f)
  = map (fun c =>
           Float.div
             (Float.of_Z (Int32.mul 2 (true_positive (tabulate n f) c)))
             (Float.of_Z (Int32.mul 2 (true_positive (tabulate n f) c)
                          + false_positive (tabulate n f) c
                          + false_negative (tabulate n f) c)))
        (seq 0 n).
Proof.
  unfold DiceCoefficient.dice_int.
  rewrite diag_tabulate.
  unfold tabulate at 2.
  repeat (rewrite map2_map_seq || rewrite map_map).
  apply map_ext_in. intros c Hc. apply in_seq in Hc.
  unfold true_positive, false_positive, false_negative.
  rewrite cell_tabulate, tabulate_row by lia. reflexivity.
Qed.

Lemma dice_float_tabulate (n : nat) (f : nat -> nat -> np_float) :
  DiceCoefficient.dice_float n (tabulate n f)
  = map (fun c =>
           let twice := Float.mul (Float.of_Z 2) (f c c) in
           Float.div twice
             (Float.add
                (Float.add twice
                   (Float.sub (Float.sum (map (fun i => f i c) (seq 0 n)))
                              (f c c)))
                (Float.sub (Float.sum (map (f c) (seq 0 n))) (f c c))))
        (seq 0 n).
Proof.
  unfold DiceCoefficient.dice_float.
  rewrite diag_tabulate.
  unfold tabulate at 2.
  repeat (rewrite map2_map_seq || rewrite map_map).
  apply map_ext_in. intros c Hc. apply in_seq in Hc.
  rewrite column_tabulate by lia. reflexivity.
Qed.

(* ================================================================= *)
(** * The normalized matrix *)

Lemma compare_of_Z_epsilon (z : Z) :
  Qccompare (Q2Qc (inject_Z z)) ConfusionMatrix.epsilon
  = (z * 1000000000000 ?= 1)%Z.
Proof.
  unfold Qccompare, ConfusionMatrix.epsilon. cbn [this Q2Qc].
  rewrite !Qred_correct. unfold Qcompare, inject_Z. cbn [Qnum Qden].
  reflexivity.
Qed.

Lemma clip_min_of_Z_pos (z : Z) :
  (1 <= z)%Z ->
  Float.clip_min ConfusionMatrix.epsilon (Float.of_Z z) = Float.of_Z z.
Proof.
  intros H. unfold Float.clip_min, Float.of_Z.
  rewrite compare_of_Z_epsilon.
  destruct (Z.compare_spec (z * 1000000000000) 1); try reflexivity. lia.
Qed.

Lemma clip_min_of_Z_nonzero (z : Z) :
  exists q, Float.clip_min ConfusionMatrix.epsilon (Float.of_Z z) = Fin q
            /\ q <> Q2Qc 0.
Proof.
  unfold Float.clip_min, Float.of_Z. rewrite compare_of_Z_epsilon.
  destruct (Z.compare_spec (z * 1000000000000) 1) as [H|H|H].
  - lia.
  - exists ConfusionMatrix.epsilon. split; [reflexivity|].
    intros E. apply Q2Qc_eq_iff in E. discriminate E.
  - eexists. split; [reflexivity|].
    rewrite of_Z_inj_zero. lia.
Qed.

Lemma normalize_tabulate (n : nat) (f : nat -> nat -> Z) :
  ConfusionMatrix.normalize (tabulate n f)
  = tabulate n
      (fun i j =>
         Float.div (Float.of_Z (f i j))
                   (Float.clip_min ConfusionMatrix.epsilon
                      (Float.of_Z (sum_list (map (f i) (seq 0 n)))))).
Proof.
  unfold ConfusionMatrix.normalize, tabulate. rewrite map_map.
  apply map_ext. intros i. cbv zeta.
  rewrite float_sum_of_Z, !map_map. reflexivity.
Qed.

(* ================================================================= *)
(** * Classes without any count *)

Lemma sum_list_zero (l : list Z) :
  Forall (fun x => (0 <= x)%Z) l -> sum_list l = 0%Z ->
  Forall (fun x => x = 0%Z) l.
Proof.
  induction 1 as [|x l Hx Hl IH]; intros Hs; [constructor|].
  simpl in Hs.
  assert (0 <= sum_list l)%Z.
  { clear - Hl. induction Hl; simpl; lia. }
  constructor; [lia | apply IH; lia].
Qed.

Lemma Forall_map_seq {A} (P : A -> Prop) (f : nat -> A) (n : nat) :
  Forall P (map f (seq 0 n)) <-> (forall i, i < n -> P (f i)).
Proof.
  rewrite Forall_forall. split.
  - intros H i Hi. apply H. apply in_map. apply in_seq. lia.
  - intros H x Hx. apply in_map_iff in Hx. destruct Hx as (i & <- & Hi).
    apply in_seq in Hi. apply H. lia.
Qed.

Lemma np_delete_nil {A} (a : list A) : np_delete a [] = a.
Proof.
  unfold np_delete.
  rewrite (filter_ext _ (fun _ => true)) by reflexivity.
  assert (H : forall l : list (nat * A), filter (fun _ => true) l = l).
  { induction l as [|x l IH]; simpl; congruence. }
  rewrite H. clear H. generalize 0.
  induction a as [|x a IH]; intros s; simpl; [reflexivity|].
  f_equal. apply IH.
Qed.

Lemma int_indices_valid (n : nat) (l : list pyatom) :
  Forall (valid_index n) l -> exists idx, int_indices n l = Ok idx.
Proof.
  induction 1 as [|a l (i & -> & Hi) _ (idx & IH)].
  - exists []. reflexivity.
  - cbn [int_indices as_int]. unfold norm_index.
    destruct (Z.leb_spec 0 i), (Z.ltb_spec i (Z.of_nat n)),
      (Z.leb_spec (- Z.of_nat n) i), (Z.ltb_spec i 0);
      cbn [andb]; try lia; rewrite IH; eexists; reflexivity.
Qed.

(** A tuple of integers is an integer index array. *)
Lemma index_array_of_integers (n : nat) (l : list pyatom) :
  Forall (valid_index n) l -> index_array n l = int_indices n l.
Proof.
  intros [|a l' (i & -> & _) _]; reflexivity.
Qed.

Lemma index_array_valid (n : nat) (l : list pyatom) :
  Forall (valid_index n) l -> exists idx, index_array n l = Ok idx.
Proof.
  intros H. rewrite (index_array_of_integers H).
  apply int_indices_valid, H.
Qed.

(** A class whose formula terms all vanish on non-negative counts has an
    empty row and an empty column. *)
Lemma empty_class (n : nat) (e : nat -> nat -> Z) (c : nat) :
  (forall i j, i < n -> j < n -> (0 <= e i j)%Z) ->
  c < n ->
  true_positive (tabulate n e) c = 0%Z ->
  false_positive (tabulate n e) c = 0%Z ->
  false_negative (tabulate n e) c = 0%Z ->
  forall k, k < n -> e c k = 0%Z /\ e k c = 0%Z.
Proof.
  intros Hnn Hc Htp Hfp Hfn k Hk.
  unfold true_positive, false_positive, false_negative in *.
  rewrite cell_tabulate in * by assumption.
  rewrite column_tabulate in Hfp by assumption.
  rewrite tabulate_row in Hfn by assumption.
  split.
  - assert (H : Forall (fun x => x = 0%Z) (map (e c) (seq 0 n))).
    { apply sum_list_zero; [|lia].
      apply Forall_map_seq. intros j Hj. apply Hnn; assumption. }
    rewrite Forall_map_seq in H. apply H, Hk.
  - assert (H : Forall (fun x => x = 0%Z) (map (fun i => e i c) (seq 0 n))).
    { apply sum_list_zero; [|lia].
      apply Forall_map_seq. intros j Hj. apply Hnn; assumption. }
    rewrite Forall_map_seq in H. apply H, Hk.
Qed.

Lemma nth_error_map_seq {A} (f : nat -> A) (s n i : nat) :
  i < n -> nth_error (map f (seq s n)) i = Some (f (s + i)).
Proof.
  revert s i. induction n as [|n IH]; intros s [|i] H; simpl; try lia.
  - do 2 f_equal. lia.
  - rewrite IH by lia. do 2 f_equal. lia.
Qed.

Lemma dice_int_undefined (n : nat) (e : nat -> nat -> Z) (c : nat) :
  c < n ->
  true_positive (tabulate n e) c = 0%Z ->
  false_positive (tabulate n e) c = 0%Z ->
  false_negative (tabulate n e) c = 0%Z ->
  nth_error (DiceCoefficient.dice_int n (tabulate n e)) c = Some NaN.
Proof.
  intros Hc Htp Hfp Hfn. rewrite dice_int_tabulate.
  rewrite nth_error_map_seq by exact Hc. cbn [plus].
  rewrite Htp, Hfp, Hfn. reflexivity.
Qed.

Lemma dice_float_undefined (n : nat) (g : nat -> nat -> Z) (idx : list nat)
      (c : nat) :
  (forall i j, i < n -> j < n -> (0 <= g i j)%Z) ->
  c < n ->
  let e := fun i j => if mem i idx then 0%Z
                      else if mem j idx then 0%Z else g i j in
  true_positive (tabulate n e) c = 0%Z ->
  false_positive (tabulate n e) c = 0%Z ->
  false_negative (tabulate n e) c = 0%Z ->
  nth_error
    (DiceCoefficient.dice_float n
       (set_rows Float.zero idx
          (set_columns Float.zero idx
             (ConfusionMatrix.normalize (tabulate n g))))) c
  = Some NaN.
Proof.
  intros Hnn Hc e Htp Hfp Hfn.
  assert (He : forall k, k < n -> e c k = 0%Z /\ e k c = 0%Z).
  { apply empty_class; try assumption.
    intros i j Hi Hj. unfold e.
    destruct (mem i idx), (mem j idx); try lia. apply Hnn; assumption. }
  rewrite normalize_tabulate, set_columns_tabulate, set_rows_tabulate.
  match goal with
  | |- context [DiceCoefficient.dice_float n (tabulate n ?f)] => set (m := f)
  end.
  assert (Hm : forall k, k < n -> m c k = Float.zero /\ m k c = Float.zero).
  { intros k Hk. destruct (He k Hk) as [H1 H2]. unfold m, e in *.
    cbv beta. split.
    - destruct (mem c idx); [reflexivity|].
      destruct (mem k idx); [reflexivity|]. rewrite H1.
      destruct (clip_min_of_Z_nonzero (sum_list (map (g c) (seq 0 n))))
        as (q & -> & Hq).
      apply float_div_zero_l, Hq.
    - destruct (mem k idx); [reflexivity|].
      destruct (mem c idx); [reflexivity|]. rewrite H2.
      destruct (clip_min_of_Z_nonzero (sum_list (map (g k) (seq 0 n))))
        as (q & -> & Hq).
      apply float_div_zero_l, Hq. }
  clearbody m.
  rewrite dice_float_tabulate, nth_error_map_seq by exact Hc. cbn [plus].
  cbv zeta. rewrite (proj1 (Hm c Hc)).
  rewrite (float_sum_zeros (l := map (fun i => m i c) (seq 0 n)))
    by (apply Forall_map_seq; intros k Hk; apply Hm, Hk).
  rewrite (float_sum_zeros (l := map (m c) (seq 0 n)))
    by (apply Forall_map_seq; intros k Hk; apply Hm, Hk).
  reflexivity.
Qed.

Lemma non_negative_cells (n : nat) (m : matrix) :
  square n m -> non_negative m ->
  forall i j, i < n -> j < n -> (0 <= cell m i j)%Z.
Proof.
  intros [Hlen Hrows] Hnn i j Hi Hj. unfold cell, non_negative in *.
  rewrite Forall_forall in Hnn, Hrows.
  assert (Hin : In (nth i m []) m) by (apply nth_In; lia).
  specialize (Hnn _ Hin). rewrite Forall_forall in Hnn.
  apply Hnn, nth_In. rewrite (Hrows _ Hin). exact Hj.
Qed.

(* ================================================================= *)
(** * Undefined Dice values *)

(** With indices into the matrix, the query returns, whatever the state
    holds. *)
Lemma dice_value_returns (self : ConfusionMatrixBasedMetric.t) :
  valid_ignore
    (ConfusionMatrix.num_classes (ConfusionMatrixBasedMetric.conf_matrix self))
    (ConfusionMatrixBasedMetric.ignore_indices self) ->
  exists r self', DiceCoefficient.value self = Ok (r, self').
Proof.
  intros Hign. rewrite value_cases. cbv zeta.
  destruct (ConfusionMatrixBasedMetric.ignore_indices self) as [l|].
  - destruct (index_array_valid Hign) as [idx ->]. cbn [bind].
    destruct (DiceCoefficient.assign_zero _ _ idx) as [cm' v'].
    do 2 eexists. reflexivity.
  - do 2 eexists. reflexivity.
Qed.

(** A not-a-number entry is missing from the mean, not a zero in it. *)
Lemma nanmean_skips_nan :
  nanmean [Float.one; NaN] = Float.one
  /\ mean [Float.one; Float.zero] <> Float.one.
Proof.
  split.
  - rewrite nanmean_is_mean_of_defined. reflexivity.
  - intros H. injection H as H. discriminate H.
Qed.

(** C4.  For every state holding an [n] x [n] matrix of non-negative
    counts, and an [ignore_indices] that is [None] or a tuple of indices
    into the matrix, [DiceCoefficient.value] returns normally, whatever
    [normalized] is.  The per-class output has one entry per class; the
    entry of a class whose true positives, false positives and false
    negatives are all zero is not-a-number; and the mean is the
    arithmetic mean of the entries of the non-ignored classes that are
    numbers, so that a not-a-number entry is left out rather than counted
    as zero. *)
Theorem dice_value_never_raises
        (n : nat) (self : ConfusionMatrixBasedMetric.t) :
  ConfusionMatrix.num_classes (ConfusionMatrixBasedMetric.conf_matrix self)
  = n ->
  square n
    (ConfusionMatrix.conf (ConfusionMatrixBasedMetric.conf_matrix self)) ->
  non_negative
    (ConfusionMatrix.conf (ConfusionMatrixBasedMetric.conf_matrix self)) ->
  valid_ignore n (ConfusionMatrixBasedMetric.ignore_indices self) ->
  exists mdice dice self',
    DiceCoefficient.value self = Ok ((mdice, dice), self')
    /\ length dice = n
    /\ (forall c, c < n ->
                  true_positive (effective_counts self) c = 0%Z ->
                  false_positive (effective_counts self) c = 0%Z ->
                  false_negative (effective_counts self) c = 0%Z ->
                  nth_error dice c = Some NaN)
    /\ mdice = mean (filter defined (np_delete dice (ignored self))).
Proof.
  destruct self as [[n' b conf] rp ign].
  cbn [ConfusionMatrixBasedMetric.conf_matrix ConfusionMatrix.num_classes
       ConfusionMatrix.conf ConfusionMatrixBasedMetric.ignore_indices].
  intros -> Hsq Hnn Hign.
  pose proof (non_negative_cells Hsq Hnn) as Hcells.
  rewrite (square_tabulate Hsq) in *.
  set (g := cell conf) in *. clearbody g. clear conf Hsq Hnn.
  assert (Hg : forall i j, i < n -> j < n -> (0 <= g i j)%Z).
  { intros i j Hi Hj. specialize (Hcells i j Hi Hj).
    rewrite cell_tabulate in Hcells by assumption. exact Hcells. }
  clear Hcells.
  rewrite value_cases. cbv zeta. unfold effective_counts, ignored.
  cbn [ConfusionMatrixBasedMetric.conf_matrix ConfusionMatrix.num_classes
       ConfusionMatrix.conf ConfusionMatrixBasedMetric.ignore_indices].
  destruct ign as [l|].
  - destruct (index_array_valid Hign) as [idx Hidx]. rewrite Hidx.
    cbn [bind]. unfold ConfusionMatrix.value, DiceCoefficient.assign_zero.
    cbn [ConfusionMatrix.normalized ConfusionMatrix.conf].
    destruct b.
    + unfold DiceCoefficient.dice_of. cbn [ConfusionMatrix.read
        ConfusionMatrix.num_classes].
      do 3 eexists. split; [reflexivity|]. split; [|split].
      * rewrite normalize_tabulate, set_columns_tabulate, set_rows_tabulate,
          dice_float_tabulate, length_map, length_seq. reflexivity.
      * intros c Hc. rewrite set_columns_tabulate, set_rows_tabulate.
        apply dice_float_undefined; assumption.
      * apply nanmean_is_mean_of_defined.
    + unfold DiceCoefficient.dice_of, ConfusionMatrix.set_conf.
      cbn [ConfusionMatrix.read ConfusionMatrix.num_classes
           ConfusionMatrix.conf].
      do 3 eexists. split; [reflexivity|]. split; [|split].
      * rewrite set_columns_tabulate, set_rows_tabulate,
          dice_int_tabulate, length_map, length_seq. reflexivity.
      * intros c Hc. rewrite set_columns_tabulate, set_rows_tabulate.
        apply dice_int_undefined; assumption.
      * apply nanmean_is_mean_of_defined.
  - unfold ConfusionMatrix.value, DiceCoefficient.dice_of.
    cbn [ConfusionMatrix.normalized ConfusionMatrix.conf
         ConfusionMatrix.read ConfusionMatrix.num_classes].
    rewrite set_columns_tabulate, set_rows_tabulate.
    cbn [mem existsb].
    destruct b; cbn [ConfusionMatrix.read ConfusionMatrix.conf].
    + do 3 eexists. split; [reflexivity|]. split; [|split].
      * rewrite normalize_tabulate, dice_float_tabulate, length_map,
          length_seq. reflexivity.
      * intros c Hc Htp Hfp Hfn.
        pose proof (@dice_float_undefined n g [] c Hg Hc Htp Hfp Hfn) as H.
        rewrite normalize_tabulate, set_columns_tabulate,
          set_rows_tabulate in H.
        rewrite normalize_tabulate. exact H.
      * rewrite np_delete_nil. apply nanmean_is_mean_of_defined.
    + do 3 eexists. split; [reflexivity|]. split; [|split].
      * rewrite dice_int_tabulate, length_map, length_seq. reflexivity.
      * intros c Hc. apply dice_int_undefined. exact Hc.
      * rewrite np_delete_nil. apply nanmean_is_mean_of_defined.
Qed.

Lemma dice_value_never_raises_witness :
  exists mdice dice self',
    DiceCoefficient.value
      (ConfusionMatrixBasedMetric.mk
         (ConfusionMatrix.mk 3 false [[5; 1; 0]; [2; 3; 0]; [0; 0; 0]]%Z)
         true (Some [PyInt 0]))
    = Ok ((mdice, dice), self')
    /\ nth_error dice 2 = Some NaN.
Proof.
  destruct (@dice_value_never_raises 3
              (ConfusionMatrixBasedMetric.mk
                 (ConfusionMatrix.mk 3 false
                    [[5; 1; 0]; [2; 3; 0]; [0; 0; 0]]%Z)
                 true (Some [PyInt 0])))
    as (mdice & dice & self' & Hv & _ & Hnan & _).
  - reflexivity.
  - split; [reflexivity|]. repeat constructor.
  - repeat constructor; discriminate.
  - constructor; [|constructor]. exists 0%Z. split; [reflexivity|lia].
  - exists mdice, dice, self'. split; [exact Hv|].
    apply Hnan; [lia | reflexivity | reflexivity | reflexivity].
Defined.

(* ================================================================= *)
(** * A perfect prediction *)

Lemma sum_single (a : nat -> Z) (c n : nat) :
  c < n ->
  sum_list (map (fun i => if i =? c then a i else 0%Z) (seq 0 n)) = a c.
Proof.
  induction n as [|n IH]; intros Hc; [lia|].
  rewrite seq_S, map_app, sum_list_app. cbn [map sum_list plus].
  destruct (Nat.eqb_spec n c) as [->|Hne].
  - rewrite (sum_list_ext _ (fun _ => 0%Z)).
    + rewrite sum_list_map_zero. simpl. lia.
    + intros i Hi. apply in_seq in Hi.
      destruct (Nat.eqb_spec i c); [lia|reflexivity].
  - rewrite IH by lia. simpl. lia.
Qed.

Lemma sum_single_row (a : Z) (c n : nat) :
  c < n ->
  sum_list (map (fun j => if c =? j then a else 0%Z) (seq 0 n)) = a.
Proof.
  intros Hc.
  transitivity
    (sum_list (map (fun i => if i =? c then a else 0%Z) (seq 0 n))).
  - apply sum_list_ext. intros j _. rewrite Nat.eqb_sym. reflexivity.
  - apply (sum_single (fun _ => a) Hc).
Qed.

Lemma int32_double_nonzero (x : Z) :
  (0 < x < 2 ^ 31)%Z -> Int32.mul 2 x <> 0%Z.
Proof.
  intros H. unfold Int32.mul, Int32.wrap.
  destruct (Z.lt_ge_cases (2 * x + 2 ^ 31) (2 ^ 32)).
  - rewrite Z.mod_small by lia. lia.
  - replace (2 * x + 2 ^ 31)%Z with ((2 * x + 2 ^ 31 - 2 ^ 32) + 1 * 2 ^ 32)%Z
      by lia.
    rewrite Z_mod_plus_full, Z.mod_small by lia. lia.
Qed.

Lemma float_div_of_Z_self (z : Z) :
  z <> 0%Z -> Float.div (Float.of_Z z) (Float.of_Z z) = Float.one.
Proof.
  intros H. apply float_div_self. rewrite of_Z_inj_zero. exact H.
Qed.

(** The same quotient in IEEE 754 arithmetic: a finite non-zero float
    divided by itself is [1.0] without rounding, in binary64 and in
    binary32, and every non-zero integer below [2^53] in magnitude, so
    every [int32] count, converts to such a binary64 float. *)
Section IEEE_facts.

Local Open Scope Z_scope.

Lemma div_eucl_multiple (m : positive) (k : Z) :
  Z.div_eucl (Z.pos m * k) (Z.pos m) = (k, 0).
Proof.
  assert (E : forall a b, Z.div_eucl a b = (a / b, a mod b)).
  { intros a b. unfold Z.div, Z.modulo.
    destruct (Z.div_eucl a b); reflexivity. }
  rewrite E, (Z.mul_comm (Z.pos m)), Z.div_mul, Z.mod_mul by lia.
  reflexivity.
Qed.

Ltac quotient_of_self p emax m :=
  unfold SFdiv, SFdiv_core_binary;
  rewrite xorb_nilpotent, !Z.sub_diag;
  change (fexp p emax 0) with (- p); change (Z.min (- p) 0) with (- p);
  change (0 - - p) with p; cbv iota beta;
  rewrite Z.shiftl_mul_pow2, div_eucl_multiple by lia;
  unfold new_location, new_location_even, new_location_odd;
  destruct (Z.even (Z.pos m)); vm_compute; reflexivity.

Lemma binary64_div_self (s : bool) (m : positive) (e : Z) :
  Binary64.div (S754_finite s m e) (S754_finite s m e) = Binary64.one.
Proof.
  unfold Binary64.div, Binary64.prec, Binary64.emax.
  quotient_of_self 53 1024 m.
Qed.

Lemma binary32_div_self (s : bool) (m : positive) (e : Z) :
  Binary32.div (S754_finite s m e) (S754_finite s m e) = Binary32.one.
Proof.
  unfold Binary32.div, Binary32.prec, Binary32.emax.
  quotient_of_self 24 128 m.
Qed.

Lemma digits2_pos_iter_xO (m k : positive) :
  Z.pos (digits2_pos (Pos.iter xO m k)) = Z.pos (digits2_pos m) + Z.pos k.
Proof.
  induction k as [|k IH] using Pos.peano_ind.
  - simpl. lia.
  - rewrite Pos.iter_succ. cbn [digits2_pos]. lia.
Qed.

Lemma digits2_pos_small (m : positive) (d : Z) :
  0 <= d -> Z.pos m < 2 ^ d -> Z.pos (digits2_pos m) <= d.
Proof.
  revert d. induction m as [m IH|m IH|]; intros d Hd H; cbn [digits2_pos].
  - destruct (Z.eq_dec d 0) as [->|]; [simpl in H; lia|].
    replace d with (Z.succ (d - 1)) in H by lia.
    rewrite Z.pow_succ_r in H by lia.
    specialize (IH (d - 1) ltac:(lia) ltac:(lia)). lia.
  - destruct (Z.eq_dec d 0) as [->|]; [simpl in H; lia|].
    replace d with (Z.succ (d - 1)) in H by lia.
    rewrite Z.pow_succ_r in H by lia.
    specialize (IH (d - 1) ltac:(lia) ltac:(lia)). lia.
  - destruct (Z.eq_dec d 0) as [->|]; [simpl in H; lia|]. lia.
Qed.

(** An integer of at most 53 bits is converted by shifting it to a 53-bit
    mantissa; nothing is rounded away and the result is finite. *)
Lemma binary64_round_small (s : bool) (m : positive) :
  Z.pos m < 2 ^ 53 ->
  exists m' e', binary_round 53 1024 s m 0 = S754_finite s m' e'.
Proof.
  intros H.
  pose proof (@digits2_pos_small m 53 ltac:(lia) H) as Hd.
  unfold binary_round, shl_align.
  set (d := Z.pos (digits2_pos m)) in *.
  assert (Hf : fexp 53 1024 (d + 0) = d - 53).
  { unfold fexp, emin. subst d. lia. }
  rewrite Hf. rewrite Z.sub_0_r.
  destruct (d - 53) as [|p|p] eqn:E; try lia.
  - unfold binary_round_aux, shr_fexp. cbn [Zdigits2 shr_record_of_loc].
    fold d. rewrite Hf. cbn [Z.sub Z.add Z.opp Z.pos_sub shr].
    cbn [shr_m loc_of_shr_record round_nearest_even Zdigits2
         shr_record_of_loc].
    fold d. rewrite Hf. cbn. eexists _, _. reflexivity.
  - unfold binary_round_aux, shr_fexp. cbn [Zdigits2 shr_record_of_loc].
    rewrite digits2_pos_iter_xO. fold d.
    assert (Hf2 : fexp 53 1024 (d + Z.pos p + Z.neg p) = Z.neg p).
    { unfold fexp, emin. lia. }
    rewrite Hf2, Z.sub_diag. cbn [shr].
    cbn [shr_m loc_of_shr_record round_nearest_even Zdigits2
         shr_record_of_loc].
    rewrite digits2_pos_iter_xO. fold d.
    rewrite Hf2, Z.sub_diag. cbn [shr shr_m].
    replace (Z.neg p <=? 1024 - 53) with true
      by (symmetry; apply Z.leb_le; lia).
    eexists _, _. reflexivity.
Qed.

Lemma binary64_div_of_Z_self (z : Z) :
  z <> 0 -> Z.abs z < 2 ^ 53 ->
  Binary64.div (Binary64.of_Z z) (Binary64.of_Z z) = Binary64.one.
Proof.
  intros Hz Hb.
  unfold Binary64.of_Z, Binary64.prec, Binary64.emax, binary_normalize.
  destruct z as [|m|m]; [congruence| |].
  - destruct (@binary64_round_small false m) as (m' & e' & ->);
      [simpl in Hb; lia|].
    apply binary64_div_self.
  - destruct (@binary64_round_small true m) as (m' & e' & ->);
      [simpl in Hb; lia|].
    apply binary64_div_self.
Qed.

End IEEE_facts.

Lemma float_sum_ones (n : nat) :
  Float.sum (repeat Float.one n) = Float.of_Z (Z.of_nat n).
Proof.
  induction n as [|n IH]; [reflexivity|].
  cbn [repeat Float.sum fold_right].
  change (fold_right Float.add Float.zero (repeat Float.one n))
    with (Float.sum (repeat Float.one n)).
  rewrite IH. unfold Float.one. rewrite float_add_of_Z. f_equal. lia.
Qed.

Lemma nanmean_ones (n : nat) :
  1 <= n -> nanmean (repeat Float.one n) = Float.one.
Proof.
  intros Hn. rewrite nanmean_is_mean_of_defined.
  replace (filter defined (repeat Float.one n)) with (repeat Float.one n).
  - unfold mean. rewrite float_sum_ones, repeat_length.
    apply float_div_of_Z_self. lia.
  - clear. induction n as [|n IH]; [reflexivity|].
    cbn [repeat filter]. change (defined Float.one) with true.
    cbv iota. f_equal. exact IH.
Qed.

Lemma count_pos {A} (f : A -> bool) (l : list A) (x : A) :
  In x l -> f x = true -> (1 <= count f l)%Z.
Proof.
  intros Hin Hf. induction l as [|y l IH]; [destruct Hin|].
  rewrite count_cons. pose proof (count_bounds f l).
  destruct Hin as [->|Hin].
  - rewrite Hf. simpl ind. lia.
  - specialize (IH Hin). unfold ind. destruct (f y); lia.
Qed.

Lemma combine_diag_In {A} (l : list A) (s : A * A) :
  In s (combine l l) <-> In (fst s) l /\ fst s = snd s.
Proof.
  induction l as [|x l IH]; simpl; [tauto|].
  rewrite IH. destruct s as [a b]. simpl. split.
  - intros [H|[H1 H2]]; [inversion H; subst; auto | auto].
  - intros [[H|H] E]; subst; auto.
Qed.

Lemma count_zero {A} (f : A -> bool) (l : list A) :
  (forall x, In x l -> f x = false) -> count f l = 0%Z.
Proof.
  intros H. rewrite (count_ext f (fun _ => false) l H).
  unfold count. induction l as [|x l IH]; [reflexivity|].
  simpl. apply IH. intros y Hy. apply H. right. exact Hy.
Qed.

(** The counts of a perfect prediction: a diagonal matrix. *)
Lemma counts_perfect (n : nat) (target : ndarray Z) :
  counts n (valid_pairs n target target)
  = tabulate n
      (fun i j =>
         if i =? j
         then count (fun s => (fst s =? Z.of_nat i)%Z)
                    (valid_pairs n target target)
         else 0%Z).
Proof.
  unfold counts. apply tabulate_ext. intros i j Hi Hj.
  destruct (Nat.eqb_spec i j) as [->|Hne].
  - apply count_ext. intros s Hs.
    rewrite in_cell_valid by
        (try assumption; eapply valid_pairs_label; exact Hs).
    unfold valid_pairs in Hs. apply filter_In in Hs. destruct Hs as [Hs Hv].
    apply combine_diag_In in Hs. destruct Hs as [_ E].
    unfold counted_in. rewrite <- E.
    destruct (Z.eqb_spec (fst s) (Z.of_nat j)); [reflexivity|].
    reflexivity.
  - apply count_zero. intros s Hs.
    rewrite in_cell_valid by
        (try assumption; eapply valid_pairs_label; exact Hs).
    pose proof (valid_pairs_label _ _ _ _ Hs) as Hv.
    unfold valid_pairs in Hs. apply filter_In in Hs. destruct Hs as [Hs _].
    apply combine_diag_In in Hs. destruct Hs as [_ E].
    unfold counted_in, ConfusionMatrix.valid_label in *. rewrite <- E.
    apply andb_prop in Hv. destruct Hv as [_ Hv]. apply Z.ltb_lt in Hv.
    destruct (Z.eqb_spec (fst s) (Z.of_nat i)),
      (Z.eqb_spec (fst s) (Z.of_nat j)),
      (Z.eqb_spec (fst s) (Z.of_nat n)); simpl; try reflexivity; lia.
Qed.

Lemma dice_int_diagonal (n : nat) (occ : nat -> Z) :
  (forall c, c < n -> (0 < occ c < 2 ^ 31)%Z) ->
  DiceCoefficient.dice_int n
    (tabulate n (fun i j => if i =? j then occ i else 0%Z))
  = repeat Float.one n.
Proof.
  intros Hocc. rewrite dice_int_tabulate, <- (map_const_seq Float.one 0 n).
  apply map_ext_in. intros c Hc. apply in_seq in Hc.
  unfold true_positive, false_positive, false_negative.
  rewrite cell_tabulate, column_tabulate, tabulate_row by lia.
  rewrite Nat.eqb_refl, sum_single, sum_single_row by lia.
  replace (Int32.mul 2 (occ c) + (occ c - occ c) + (occ c - occ c))%Z
    with (Int32.mul 2 (occ c)) by lia.
  apply float_div_of_Z_self, int32_double_nonzero, Hocc. lia.
Qed.

Lemma float_sum_unit_column (c n : nat) :
  c < n ->
  Float.sum (map (fun i => if i =? c then Float.one else Float.zero)
                 (seq 0 n))
  = Float.one.
Proof.
  intros Hc.
  rewrite (map_ext _ (fun i => Float.of_Z (if i =? c then 1%Z else 0%Z)))
    by (intros i; destruct (i =? c); reflexivity).
  rewrite <- (map_map (fun i => if i =? c then 1%Z else 0%Z) Float.of_Z).
  rewrite float_sum_of_Z, (sum_single (fun _ => 1%Z)) by exact Hc.
  reflexivity.
Qed.

Lemma float_sum_unit_row (c n : nat) :
  c < n ->
  Float.sum (map (fun j => if c =? j then Float.one else Float.zero)
                 (seq 0 n))
  = Float.one.
Proof.
  intros Hc. etransitivity; [|exact (float_sum_unit_column Hc)].
  f_equal. apply map_ext. intros j. rewrite Nat.eqb_sym. reflexivity.
Qed.

Lemma float_double_one :
  Float.mul (Float.of_Z 2) Float.one = Float.of_Z 2.
Proof.
  unfold Float.mul, Float.one, Float.of_Z. f_equal.
Qed.

Lemma dice_float_diagonal (n : nat) (occ : nat -> Z) :
  (forall c, c < n -> (1 <= occ c)%Z) ->
  DiceCoefficient.dice_float n
    (ConfusionMatrix.normalize
       (tabulate n (fun i j => if i =? j then occ i else 0%Z)))
  = repeat Float.one n.
Proof.
  intros Hocc. rewrite normalize_tabulate.
  rewrite (@tabulate_ext _ n _
             (fun i j => if i =? j then Float.one else Float.zero)).
  - rewrite dice_float_tabulate, <- (map_const_seq Float.one 0 n).
    apply map_ext_in. intros c Hc. apply in_seq in Hc. cbv zeta.
    rewrite Nat.eqb_refl, float_sum_unit_column, float_sum_unit_row by lia.
    rewrite float_double_one.
    change Float.one with (Fin (Q2Qc (inject_Z 1))) at 1 2 3 4.
    rewrite float_sub_diag, !float_add_zero_r.
    apply float_div_of_Z_self. lia.
  - intros i j Hi Hj. rewrite sum_single_row by exact Hi.
    rewrite clip_min_of_Z_pos by (apply Hocc; exact Hi).
    destruct (i =? j).
    + apply float_div_of_Z_self. specialize (Hocc i Hi). lia.
    + apply float_div_zero_l. rewrite of_Z_inj_zero.
      specialize (Hocc i Hi). lia.
Qed.

(** C5.  If [predicted] equals [target] at every pixel and every class of
    [[0, num_classes)] occurs in [target] (a filled array of rank at least
    one with fewer than 2^31 elements), then after [add(predicted, target)]
    on a fresh metric that takes labels and ignores no class, the Dice
    coefficient is exactly 1.0 for every class and the mean Dice is exactly
    1.0, with [normalized] set or not.  That all labels lie in
    [[0, num_classes)] is not needed: other labels are left out by [add]. *)
Theorem perfect_prediction_has_dice_one
        (n : nat) (normalized : bool) (target : ndarray Z) :
  1 <= n ->
  wf_array target ->
  shape target <> [] ->
  (Z.of_nat (length (data target)) < 2 ^ 31)%Z ->
  (forall c, c < n -> In (Z.of_nat c) (data target)) ->
  exists accumulated,
    ConfusionMatrixBasedMetric.add
      (ConfusionMatrixBasedMetric.mk (ConfusionMatrix.init n normalized)
                                     true None)
      target target
    = Ok accumulated
    /\ DiceCoefficient.value accumulated
       = Ok ((Float.one, repeat Float.one n), accumulated).
Proof.
  intros Hn Hwf Hne Hsize Hall.
  unfold ConfusionMatrixBasedMetric.add.
  cbn [ConfusionMatrixBasedMetric.reduced_probs
       ConfusionMatrixBasedMetric.reduce bind
       ConfusionMatrixBasedMetric.conf_matrix].
  rewrite add_same_shape by (try (repeat split; assumption); exact Hn).
  cbn [bind ConfusionMatrix.init ConfusionMatrix.reset
       ConfusionMatrix.set_conf ConfusionMatrix.num_classes
       ConfusionMatrix.normalized ConfusionMatrix.conf].
  unfold ConfusionMatrix.init, ConfusionMatrix.reset, ConfusionMatrix.set_conf,
    ConfusionMatrixBasedMetric.set_conf_matrix.
  cbn [ConfusionMatrix.num_classes ConfusionMatrix.normalized
       ConfusionMatrix.conf ConfusionMatrixBasedMetric.reduced_probs
       ConfusionMatrixBasedMetric.ignore_indices].
  pose proof (valid_pairs_length n target target) as Hlen.
  rewrite <- counts_nil, matrix_add_counts by (simpl length; lia).
  cbn [app]. rewrite counts_perfect.
  pose (occ := fun i : nat =>
                 count (fun s : Z * Z => (fst s =? Z.of_nat i)%Z)
                       (valid_pairs n target target)).
  change (fun i j : nat =>
            if i =? j
            then count (fun s : Z * Z => (fst s =? Z.of_nat i)%Z)
                       (valid_pairs n target target)
            else 0%Z)
    with (fun i j : nat => if i =? j then occ i else 0%Z).
  assert (Hocc : forall c, c < n -> (1 <= occ c < 2 ^ 31)%Z).
  { intros c Hc. unfold occ. split.
    - apply (count_pos _ _ (Z.of_nat c, Z.of_nat c)).
      + unfold valid_pairs. apply filter_In. split.
        * apply combine_diag_In. split; [apply Hall, Hc | reflexivity].
        * unfold ConfusionMatrix.valid_label. cbn [fst].
          apply andb_true_intro. split;
            [apply Z.leb_le | apply Z.ltb_lt]; lia.
      + cbn [fst]. apply Z.eqb_refl.
    - pose proof (count_bounds (fun s : Z * Z => (fst s =? Z.of_nat c)%Z)
                               (valid_pairs n target target)). lia. }
  clearbody occ.
  eexists. split; [reflexivity|].
  rewrite value_cases. cbv zeta.
  unfold DiceCoefficient.dice_of, ConfusionMatrix.value.
  cbn [ConfusionMatrixBasedMetric.conf_matrix
       ConfusionMatrixBasedMetric.ignore_indices
       ConfusionMatrix.normalized ConfusionMatrix.conf
       ConfusionMatrix.num_classes].
  destruct normalized; cbn [ConfusionMatrix.read ConfusionMatrix.conf].
  - rewrite dice_float_diagonal by (intros c Hc; apply Hocc, Hc).
    rewrite nanmean_ones by exact Hn. reflexivity.
  - rewrite dice_int_diagonal
      by (intros c Hc; specialize (Hocc c Hc); lia).
    rewrite nanmean_ones by exact Hn. reflexivity.
Qed.

Lemma perfect_prediction_has_dice_one_witness :
  exists accumulated,
    ConfusionMatrixBasedMetric.add
      (ConfusionMatrixBasedMetric.mk (ConfusionMatrix.init 3 false) true None)
      (mk_ndarray [2; 3] [0; 1; 2; 2; 1; 1]%Z)
      (mk_ndarray [2; 3] [0; 1; 2; 2; 1; 1]%Z)
    = Ok accumulated
    /\ DiceCoefficient.value accumulated
       = Ok ((Float.one, repeat Float.one 3), accumulated).
Proof.
  apply (@perfect_prediction_has_dice_one 3 false
           (mk_ndarray [2; 3] [0; 1; 2; 2; 1; 1]%Z)).
  - lia.
  - reflexivity.
  - discriminate.
  - simpl. lia.
  - intros c Hc. simpl.
    destruct c as [|[|[|c]]]; [tauto | tauto | tauto | lia].
Defined.

(* ================================================================= *)
(** * What [value] leaves behind *)

Section Zeroing_twice.

Context {A : Type} (z : A) (idx : list nat).

Lemma mapi_from_twice {B} (f : nat -> B -> B) (s : nat) (l : list B) :
  (forall i x, f i (f i x) = f i x) ->
  mapi_from f s (mapi_from f s l) = mapi_from f s l.
Proof.
  intros Hf. revert s. induction l as [|x l IH]; intros s; simpl;
    [reflexivity|].
  rewrite Hf, IH. reflexivity.
Qed.

Lemma clear_entries_of_cleared (s : nat) (row : list A) :
  mapi_from (fun j x => if mem j idx then z else x) s (map (fun _ => z) row)
  = map (fun _ => z) row.
Proof.
  revert s. induction row as [|x row IH]; intros s; simpl; [reflexivity|].
  rewrite IH. destruct (mem s idx); reflexivity.
Qed.

Lemma map_const_same_length {B} (l : list B) (l' : list A) :
  length l = length l' ->
  map (fun _ => z) l = map (fun _ => z) l'.
Proof.
  revert l'. induction l as [|x l IH]; intros [|y l'] H; simpl in *;
    try discriminate; [reflexivity|].
  f_equal. apply IH. lia.
Qed.

Lemma clear_commute (s : nat) (m : list (list A)) :
  map (mapi_from (fun j x => if mem j idx then z else x) 0)
      (mapi_from (fun i row => if mem i idx then map (fun _ => z) row else row)
                 s m)
  = mapi_from (fun i row => if mem i idx then map (fun _ => z) row else row)
              s (map (mapi_from (fun j x => if mem j idx then z else x) 0) m).
Proof.
  revert s. induction m as [|row m IH]; intros s; simpl; [reflexivity|].
  rewrite IH. f_equal. destruct (mem s idx); [|reflexivity].
  rewrite clear_entries_of_cleared.
  apply map_const_same_length. symmetry. apply mapi_from_length.
Qed.

Lemma set_columns_rows_comm (m : list (list A)) :
  set_columns z idx (set_rows z idx m) = set_rows z idx (set_columns z idx m).
Proof.
  unfold set_columns, set_rows, mapi. apply clear_commute.
Qed.

Lemma set_columns_twice (m : list (list A)) :
  set_columns z idx (set_columns z idx m) = set_columns z idx m.
Proof.
  unfold set_columns, mapi. rewrite map_map. apply map_ext. intros row.
  apply mapi_from_twice. intros i x. destruct (mem i idx); reflexivity.
Qed.

Lemma set_rows_twice (m : list (list A)) :
  set_rows z idx (set_rows z idx m) = set_rows z idx m.
Proof.
  unfold set_rows, mapi. apply mapi_from_twice. intros i row.
  destruct (mem i idx); [|reflexivity]. rewrite map_map. reflexivity.
Qed.

Lemma zeroing_twice (m : list (list A)) :
  set_rows z idx (set_columns z idx (set_rows z idx (set_columns z idx m)))
  = set_rows z idx (set_columns z idx m).
Proof.
  rewrite set_columns_rows_comm, set_rows_twice, set_columns_twice.
  reflexivity.
Qed.

End Zeroing_twice.

Lemma value_only_reads (cm : ConfusionMatrix.t) :
  ConfusionMatrix.read cm (ConfusionMatrix.value cm)
  = if ConfusionMatrix.normalized cm
    then ConfusionMatrix.Float_array
           (ConfusionMatrix.normalize (ConfusionMatrix.conf cm))
    else ConfusionMatrix.Int_array (ConfusionMatrix.conf cm).
Proof.
  unfold ConfusionMatrix.value. destruct (ConfusionMatrix.normalized cm);
    reflexivity.
Qed.

(** Without ignored classes, or on a normalized matrix, the Dice query
    leaves the counts as they are. *)
Lemma dice_value_keeps_counts
      (self self' : ConfusionMatrixBasedMetric.t)
      (r : np_float * list np_float) :
  ConfusionMatrixBasedMetric.ignore_indices self = None
  \/ ConfusionMatrix.normalized (ConfusionMatrixBasedMetric.conf_matrix self)
     = true ->
  DiceCoefficient.value self = Ok (r, self') ->
  self' = self.
Proof.
  destruct self as [[n b conf] rp ign]. rewrite !value_cases. cbv zeta.
  cbn [ConfusionMatrixBasedMetric.conf_matrix
       ConfusionMatrixBasedMetric.ignore_indices
       ConfusionMatrix.normalized ConfusionMatrix.num_classes].
  intros [->| ->].
  - intros H. injection H as _ <-. reflexivity.
  - destruct ign as [l|]; [|intros H; injection H as _ <-; reflexivity].
    destruct (index_array n l) as [idx|e]; cbn [bind]; [|discriminate].
    cbn. intros H. injection H as _ <-. reflexivity.
Qed.

(** A second Dice query right after the first returns the same result and
    leaves the same state. *)
Lemma dice_value_twice
      (self self' : ConfusionMatrixBasedMetric.t)
      (r : np_float * list np_float) :
  DiceCoefficient.value self = Ok (r, self') ->
  DiceCoefficient.value self' = Ok (r, self').
Proof.
  destruct self as [[n b conf] rp ign]. rewrite !value_cases. cbv zeta.
  cbn [ConfusionMatrixBasedMetric.conf_matrix
       ConfusionMatrixBasedMetric.ignore_indices
       ConfusionMatrix.normalized ConfusionMatrix.num_classes].
  destruct ign as [l|].
  - destruct (index_array n l) as [idx|e] eqn:Hidx; cbn [bind];
      [|discriminate].
    unfold ConfusionMatrix.value, DiceCoefficient.assign_zero,
      ConfusionMatrixBasedMetric.set_conf_matrix, ConfusionMatrix.set_conf.
    cbn [ConfusionMatrix.normalized ConfusionMatrix.conf
         ConfusionMatrix.num_classes
         ConfusionMatrixBasedMetric.reduced_probs
         ConfusionMatrixBasedMetric.ignore_indices].
    destruct b; intros H; injection H as <- <-;
      cbn [ConfusionMatrixBasedMetric.conf_matrix
           ConfusionMatrixBasedMetric.ignore_indices
           ConfusionMatrixBasedMetric.reduced_probs
           ConfusionMatrix.normalized ConfusionMatrix.conf
           ConfusionMatrix.num_classes];
      rewrite Hidx; cbn [bind]; [reflexivity|].
    rewrite zeroing_twice. reflexivity.
  - intros H. injection H as <- <-. reflexivity.
Qed.

(* ================================================================= *)
(** * The query that overwrites the counts *)

(** C2 (the code at the failing input).  Two classes, labels given
    directly, [normalized] false, class 0 ignored: after one [add] the
    counts are [[1, 1], [0, 1]]; [DiceCoefficient.value] then returns
    normally and leaves the counts [[0, 0], [0, 1]] in the state, because
    the matrix it zeroes is the array [self.conf] itself. *)
Theorem value_overwrites_ignored_counts :
  ConfusionMatrixBasedMetric.init 2 true false (PyAtom (PyInt 0))
  = Ok (ConfusionMatrixBasedMetric.mk (ConfusionMatrix.init 2 false) true
          (Some [PyInt 0]))
  /\ ConfusionMatrixBasedMetric.add
       (ConfusionMatrixBasedMetric.mk (ConfusionMatrix.init 2 false) true
          (Some [PyInt 0]))
       (vector [0; 1; 1]%Z) (vector [0; 1; 0]%Z)
     = Ok (ConfusionMatrixBasedMetric.mk
             (ConfusionMatrix.mk 2 false [[1; 1]; [0; 1]]%Z) true
             (Some [PyInt 0]))
  /\ result_map
       (fun r => ConfusionMatrix.conf
                   (ConfusionMatrixBasedMetric.conf_matrix (snd r)))
       (DiceCoefficient.value
          (ConfusionMatrixBasedMetric.mk
             (ConfusionMatrix.mk 2 false [[1; 1]; [0; 1]]%Z) true
             (Some [PyInt 0])))
     = Ok [[0; 0]; [0; 1]]%Z.
Proof.
  split; [reflexivity|]. split; reflexivity.
Qed.

(* ================================================================= *)
(** * Wrap-around of the cells *)

Lemma vector_wf {A} (l : list A) : wf_array (vector l).
Proof. unfold wf_array, vector. simpl. lia. Qed.

Lemma vector_same_shaped (l : list Z) : same_shaped (vector l) (vector l).
Proof.
  repeat split; try apply vector_wf. discriminate.
Qed.

Lemma valid_pairs_repeat_zero (k : nat) :
  valid_pairs 1 (vector (repeat 0%Z k)) (vector (repeat 0%Z k))
  = repeat (0%Z, 0%Z) k.
Proof.
  unfold valid_pairs, vector. cbn [data].
  induction k as [|k IH]; [reflexivity|].
  cbn [repeat combine filter fst].
  change (ConfusionMatrix.valid_label 1 0) with true.
  cbv iota. f_equal. exact IH.
Qed.

Lemma count_repeat {A} (f : A -> bool) (x : A) (k : nat) :
  f x = true -> count f (repeat x k) = Z.of_nat k.
Proof.
  intros Hf. induction k as [|k IH]; [reflexivity|].
  cbn [repeat]. rewrite count_cons, Hf, IH. simpl ind. lia.
Qed.

(** The bound on the number of elements in the statements on counts is
    needed: two [add] calls of 2^30 pairs each, all with target and
    predicted label 0, leave the single cell of a one-class matrix at
    -2^31. *)
Lemma accumulation_wraps_around (k : nat) :
  Z.of_nat k = (2 ^ 30)%Z ->
  ConfusionMatrix.add_all (ConfusionMatrix.init 1 false)
    [(vector (repeat 0%Z k), vector (repeat 0%Z k));
     (vector (repeat 0%Z k), vector (repeat 0%Z k))]
  = Ok (ConfusionMatrix.mk 1 false [[(- 2 ^ 31)%Z]]).
Proof.
  intros Hk. cbn [ConfusionMatrix.add_all].
  rewrite add_same_shape by (try apply vector_same_shaped; simpl; lia).
  cbn [bind]. unfold ConfusionMatrix.set_conf, ConfusionMatrix.init,
    ConfusionMatrix.reset, ConfusionMatrix.set_conf.
  cbn [ConfusionMatrix.num_classes ConfusionMatrix.normalized
       ConfusionMatrix.conf].
  rewrite add_same_shape by (try apply vector_same_shaped; simpl; lia).
  cbn [bind]. unfold ConfusionMatrix.set_conf.
  cbn [ConfusionMatrix.num_classes ConfusionMatrix.normalized
       ConfusionMatrix.conf].
  rewrite valid_pairs_repeat_zero.
  change (counts 1 (repeat (0%Z, 0%Z) k))
    with [[count (in_cell 1 0 0) (repeat (0%Z, 0%Z) k)]].
  rewrite count_repeat by reflexivity. rewrite Hk. reflexivity.
Qed.

(** The same at the concrete size. *)
Lemma accumulation_wraps_around_at_2_30 :
  ConfusionMatrix.add_all (ConfusionMatrix.init 1 false)
    [(vector (repeat 0%Z (Z.to_nat (2 ^ 30))),
      vector (repeat 0%Z (Z.to_nat (2 ^ 30))));
     (vector (repeat 0%Z (Z.to_nat (2 ^ 30))),
      vector (repeat 0%Z (Z.to_nat (2 ^ 30))))]
  = Ok (ConfusionMatrix.mk 1 false [[(- 2 ^ 31)%Z]]).
Proof.
  apply accumulation_wraps_around. apply Z2Nat.id. discriminate.
Qed.

(* ================================================================= *)
(** * Rows of the normalized matrix *)

Lemma float_div_add (a b s : Z) :
  s <> 0%Z ->
  Float.add (Float.div (Float.of_Z a) (Float.of_Z s))
            (Float.div (Float.of_Z b) (Float.of_Z s))
  = Float.div (Float.of_Z (a + b)) (Float.of_Z s).
Proof.
  intros Hs. rewrite <- float_add_of_Z.
  unfold Float.div, Float.add, Float.of_Z.
  rewrite (proj2 (is_zero_false (Q2Qc (inject_Z s))))
    by (rewrite of_Z_inj_zero; exact Hs).
  f_equal. unfold Qcdiv. symmetry. apply Qcmult_plus_distr_l.
Qed.

Lemma float_sum_div (a : nat -> Z) (s : Z) (l : list nat) :
  s <> 0%Z ->
  Float.sum (map (fun j => Float.div (Float.of_Z (a j)) (Float.of_Z s)) l)
  = Float.div (Float.of_Z (sum_list (map a l))) (Float.of_Z s).
Proof.
  intros Hs. induction l as [|j l IH].
  - symmetry. apply float_div_zero_l. rewrite of_Z_inj_zero. exact Hs.
  - cbn [map Float.sum fold_right sum_list].
    change (fold_right Float.add Float.zero
              (map (fun j => Float.div (Float.of_Z (a j)) (Float.of_Z s)) l))
      with (Float.sum
              (map (fun j => Float.div (Float.of_Z (a j)) (Float.of_Z s)) l)).
    rewrite IH. apply float_div_add, Hs.
Qed.

(** The matrix handed out when [normalized] holds: row [i] of the counts
    divided by [max(sum(row_i), 1e-12)].  An all-zero row stays all zero.
    In exact arithmetic, which is what [np_float] keeps (the rounding of
    [float32] is left out), a row of non-negative counts that are not all
    zero sums to one. *)
Lemma normalized_rows (n : nat) (cm : ConfusionMatrix.t) :
  ConfusionMatrix.num_classes cm = n ->
  ConfusionMatrix.normalized cm = true ->
  square n (ConfusionMatrix.conf cm) ->
  non_negative (ConfusionMatrix.conf cm) ->
  exists m,
    ConfusionMatrix.value cm = ConfusionMatrix.Fresh m
    /\ m = tabulate n
             (fun i j =>
                Float.div
                  (Float.of_Z (cell (ConfusionMatrix.conf cm) i j))
                  (Float.clip_min ConfusionMatrix.epsilon
                     (Float.of_Z
                        (sum_list (nth i (ConfusionMatrix.conf cm) [])))))
    /\ forall i, i < n ->
         (sum_list (nth i (ConfusionMatrix.conf cm) []) = 0%Z ->
          nth i m [] = repeat Float.zero n)
         /\ (sum_list (nth i (ConfusionMatrix.conf cm) []) <> 0%Z ->
             Float.sum (nth i m []) = Float.one).
Proof.
  destruct cm as [n' b conf]. cbn [ConfusionMatrix.num_classes
    ConfusionMatrix.normalized ConfusionMatrix.conf].
  intros -> -> Hsq Hnn.
  pose proof (non_negative_cells Hsq Hnn) as Hcells.
  unfold ConfusionMatrix.value. cbn [ConfusionMatrix.normalized
    ConfusionMatrix.conf].
  assert (Hrow : forall i, i < n ->
                   nth i conf [] = map (cell conf i) (seq 0 n)).
  { intros i Hi. rewrite (square_tabulate Hsq) at 1.
    apply tabulate_row. exact Hi. }
  eexists. split; [reflexivity|]. split.
  - rewrite (square_tabulate Hsq) at 1. rewrite normalize_tabulate.
    apply tabulate_ext. intros i j Hi Hj. rewrite Hrow by exact Hi.
    reflexivity.
  - intros i Hi. rewrite (square_tabulate Hsq) at 2 4.
    rewrite normalize_tabulate, tabulate_row by exact Hi.
    rewrite Hrow by exact Hi. split; intros Hs.
    + rewrite <- (map_const_seq Float.zero 0 n).
      apply map_ext_in. intros j Hj. apply in_seq in Hj.
      assert (H0 : Forall (fun x => x = 0%Z) (map (cell conf i) (seq 0 n))).
      { apply sum_list_zero; [|exact Hs]. apply Forall_map_seq.
        intros k Hk. apply Hcells; assumption. }
      rewrite Forall_map_seq in H0. rewrite H0 by lia. rewrite Hs.
      reflexivity.
    + assert (Hpos : (1 <= sum_list (map (cell conf i) (seq 0 n)))%Z).
      { assert (0 <= sum_list (map (cell conf i) (seq 0 n)))%Z; [|lia].
        assert (H : Forall (fun x => (0 <= x)%Z)
                           (map (cell conf i) (seq 0 n))).
        { apply Forall_map_seq. intros k Hk. apply Hcells; assumption. }
        clear - H. induction H; simpl; lia. }
      rewrite clip_min_of_Z_pos by exact Hpos.
      rewrite float_sum_div by lia.
      apply float_div_of_Z_self. lia.
Qed.

(* ================================================================= *)
(** * The normalized matrix in binary32 *)

(** ** Rounding to 24 bits *)

Section Binary32_rounding.

Local Open Scope Z_scope.

Lemma digits2_pos_spec (m : positive) :
  2 ^ (Z.pos (digits2_pos m) - 1) <= Z.pos m < 2 ^ Z.pos (digits2_pos m).
Proof.
  induction m as [m IH|m IH|]; cbn [digits2_pos].
  - rewrite Pos2Z.inj_succ.
    set (d := Z.pos (digits2_pos m)) in *.
    assert (0 < d) by (subst d; lia).
    replace (Z.succ d - 1) with (Z.succ (d - 1)) by lia.
    rewrite !Z.pow_succ_r by lia. lia.
  - rewrite Pos2Z.inj_succ.
    set (d := Z.pos (digits2_pos m)) in *.
    assert (0 < d) by (subst d; lia).
    replace (Z.succ d - 1) with (Z.succ (d - 1)) by lia.
    rewrite !Z.pow_succ_r by lia. lia.
  - simpl. lia.
Qed.

Lemma digits2_pos_unique (m : positive) (d : Z) :
  2 ^ (d - 1) <= Z.pos m < 2 ^ d -> Z.pos (digits2_pos m) = d.
Proof.
  intros H. pose proof (digits2_pos_spec m) as S.
  set (D := Z.pos (digits2_pos m)) in *.
  assert (HD : 0 < D) by (subst D; lia).
  assert (Hd : 0 < d).
  { destruct (Z.lt_trichotomy d 0) as [Hn|[->|Hp]]; [|simpl in H; lia|lia].
    rewrite (Z.pow_neg_r 2 d) in H by lia. lia. }
  destruct (Z.lt_trichotomy D d) as [Hlt|[E|Hgt]]; [|exact E|].
  - assert (2 ^ D <= 2 ^ (d - 1)) by (apply Z.pow_le_mono_r; lia). lia.
  - assert (2 ^ d <= 2 ^ (D - 1)) by (apply Z.pow_le_mono_r; lia). lia.
Qed.

Lemma shr_1_m (r : shr_record) :
  0 <= shr_m r -> shr_m (shr_1 r) = shr_m r / 2 /\ 0 <= shr_m (shr_1 r).
Proof.
  destruct r as [m rb sb]. cbn [shr_m]. intros H.
  destruct m as [|p|p]; [split; reflexivity| |lia].
  destruct p as [p|p|]; cbn [shr_1 shr_m].
  - split; [|lia]. apply (Z.div_unique _ 2 _ 1); lia.
  - split; [|lia]. apply (Z.div_unique _ 2 _ 0); lia.
  - split; [reflexivity|lia].
Qed.

Lemma iter_shr_m (p : positive) (r : shr_record) :
  0 <= shr_m r ->
  shr_m (iter_pos shr_1 p r) = shr_m r / 2 ^ Z.pos p
  /\ 0 <= shr_m (iter_pos shr_1 p r).
Proof.
  revert r. induction p as [p IH|p IH|]; intros r Hr; cbn [iter_pos].
  - destruct (shr_1_m r Hr) as [E1 H1].
    destruct (IH _ H1) as [E2 H2]. destruct (IH _ H2) as [E3 H3].
    split; [|exact H3]. rewrite E3, E2, E1.
    assert (0 < 2 ^ Z.pos p) by (apply Z.pow_pos_nonneg; lia).
    rewrite !Z.div_div by lia. f_equal.
    replace (Z.pos p~1) with (1 + Z.pos p + Z.pos p) by lia.
    rewrite !Z.pow_add_r by lia. lia.
  - destruct (IH _ Hr) as [E2 H2]. destruct (IH _ H2) as [E3 H3].
    split; [|exact H3]. rewrite E3, E2.
    assert (0 < 2 ^ Z.pos p) by (apply Z.pow_pos_nonneg; lia).
    rewrite !Z.div_div by lia. f_equal.
    replace (Z.pos p~0) with (Z.pos p + Z.pos p) by lia.
    rewrite !Z.pow_add_r by lia. lia.
  - destruct (shr_1_m r Hr) as [E1 H1]. split; [|exact H1].
    rewrite E1. reflexivity.
Qed.

Lemma shr_record_of_loc_m (m : Z) (l : location) :
  shr_m (shr_record_of_loc m l) = m.
Proof. destruct l as [|[| |]]; reflexivity. Qed.

Lemma round_nearest_even_cases (m : Z) (l : location) :
  round_nearest_even m l = m \/ round_nearest_even m l = m + 1.
Proof.
  destruct l as [|[| |]]; cbn [round_nearest_even]; auto.
  destruct (Z.even m); auto.
Qed.

(** The last step of rounding: a mantissa that rounding has carried to
    2^24 is renormalized, any other 24-bit mantissa is kept. *)
Lemma round_renormalize (s : bool) (m2 e1 : Z) :
  2 ^ 23 <= m2 <= 2 ^ 24 ->
  -149 <= e1 <= 103 ->
  exists (m : positive) (e : Z),
    (let '(mrs, e2) := shr_fexp 24 128 m2 e1 loc_Exact in
     match shr_m mrs with
     | Z0 => S754_zero s
     | Zpos m => if e2 <=? 128 - 24 then S754_finite s m e2
                 else S754_infinity s
     | Zneg _ => S754_nan
     end) = S754_finite s m e
    /\ 2 ^ 23 <= Z.pos m < 2 ^ 24
    /\ e1 <= e
    /\ Z.pos m * 2 ^ (e - e1) = m2.
Proof.
  intros Hm He.
  destruct (Z.eq_dec m2 (2 ^ 24)) as [->|Hne].
  - exists 8388608%positive, (e1 + 1).
    unfold shr_fexp. change (Zdigits2 (2 ^ 24)) with 25.
    assert (Hf : fexp 24 128 (25 + e1) - e1 = 1)
      by (unfold fexp, emin; lia).
    rewrite Hf. cbn [shr shr_record_of_loc iter_pos].
    change (shr_m (shr_1 {| shr_m := 2 ^ 24; shr_r := false; shr_s := false |}))
      with (Z.pos 8388608).
    cbv iota beta.
    replace (e1 + 1 <=? 128 - 24) with true
      by (symmetry; apply Z.leb_le; lia).
    split; [reflexivity|]. split; [simpl; lia|]. split; [lia|].
    replace (e1 + 1 - e1) with 1 by lia. reflexivity.
  - destruct m2 as [|q|q]; [simpl in Hm; lia| |lia].
    exists q, e1.
    assert (Hd : Z.pos (digits2_pos q) = 24)
      by (apply digits2_pos_unique; simpl; simpl in Hm; lia).
    unfold shr_fexp. cbn [Zdigits2]. rewrite Hd.
    assert (Hf : fexp 24 128 (24 + e1) - e1 = 0)
      by (unfold fexp, emin; lia).
    rewrite Hf. cbn [shr]. rewrite shr_record_of_loc_m.
    replace (e1 <=? 128 - 24) with true
      by (symmetry; apply Z.leb_le; lia).
    split; [reflexivity|]. split; [simpl in Hm |- *; lia|]. split; [lia|].
    rewrite Z.sub_diag. simpl. lia.
Qed.

(** Rounding a mantissa of at least 24 bits, away from the subnormal
    numbers and from overflow: the result is finite and normal, and it
    is one of the two neighbours [lo] and [lo + 2^k] of the mantissa
    among the multiples of [2^k], in units of [2^ex]. *)
Lemma binary_round_aux_neighbour
      (s : bool) (mx : positive) (ex : Z) (lx : location) :
  24 <= Z.pos (digits2_pos mx) ->
  -149 <= Z.pos (digits2_pos mx) + ex - 24 ->
  Z.pos (digits2_pos mx) + ex <= 127 ->
  exists (m : positive) (e lo k : Z),
    binary_round_aux 24 128 s (Z.pos mx) ex lx = S754_finite s m e
    /\ 2 ^ 23 <= Z.pos m < 2 ^ 24
    /\ ex <= e
    /\ 0 <= k
    /\ lo <= Z.pos mx < lo + 2 ^ k
    /\ 2 ^ 23 * 2 ^ k <= lo
    /\ (Z.pos m * 2 ^ (e - ex) = lo \/ Z.pos m * 2 ^ (e - ex) = lo + 2 ^ k).
Proof.
  intros Hd Hlow Hhigh.
  pose proof (digits2_pos_spec mx) as Hspec.
  set (d := Z.pos (digits2_pos mx)) in *.
  set (k := d - 24).
  assert (Hk : 0 <= k) by (subst k; lia).
  assert (Hpk : 0 < 2 ^ k) by (apply Z.pow_pos_nonneg; lia).
  set (m1 := Z.pos mx / 2 ^ k).
  assert (Hlo : m1 * 2 ^ k <= Z.pos mx < m1 * 2 ^ k + 2 ^ k).
  { subst m1. pose proof (Z.mul_div_le (Z.pos mx) (2 ^ k) Hpk).
    pose proof (Z.mul_succ_div_gt (Z.pos mx) (2 ^ k) Hpk). lia. }
  assert (Hm1 : 2 ^ 23 <= m1 < 2 ^ 24).
  { assert (E1 : 2 ^ (d - 1) = 2 ^ 23 * 2 ^ k)
      by (rewrite <- Z.pow_add_r by lia; f_equal; subst k; lia).
    assert (E2 : 2 ^ d = 2 ^ 24 * 2 ^ k)
      by (rewrite <- Z.pow_add_r by lia; f_equal; subst k; lia).
    subst m1. split.
    - apply Z.div_le_lower_bound; lia.
    - apply Z.div_lt_upper_bound; lia. }
  assert (Hstage : exists r,
             shr_fexp 24 128 (Z.pos mx) ex lx = (r, ex + k)
             /\ shr_m r = m1).
  { unfold shr_fexp. cbn [Zdigits2]. fold d.
    assert (Hf : fexp 24 128 (d + ex) - ex = k)
      by (unfold fexp, emin; subst k; lia).
    rewrite Hf. destruct k as [|p|p] eqn:Ek; [| |lia].
    - cbn [shr]. eexists. split; [rewrite Z.add_0_r; reflexivity|].
      rewrite shr_record_of_loc_m. subst m1. simpl. rewrite Z.div_1_r.
      reflexivity.
    - cbn [shr]. eexists. split; [reflexivity|].
      destruct (@iter_shr_m p (shr_record_of_loc (Z.pos mx) lx)) as [E _].
      + rewrite shr_record_of_loc_m. lia.
      + rewrite E, shr_record_of_loc_m. reflexivity. }
  destruct Hstage as (r & Hr & Hrm).
  unfold binary_round_aux. rewrite Hr, Hrm.
  set (m2 := round_nearest_even m1 (loc_of_shr_record r)).
  assert (Hm2 : m2 = m1 \/ m2 = m1 + 1)
    by (apply round_nearest_even_cases).
  destruct (@round_renormalize s m2 (ex + k)) as (m & e & Hres & Hm & He & Hv);
    [lia | subst k; lia |].
  exists m, e, (m1 * 2 ^ k), k.
  split; [exact Hres|]. split; [exact Hm|]. split; [lia|].
  split; [exact Hk|]. split; [exact Hlo|]. split; [nia|].
  assert (Hval : Z.pos m * 2 ^ (e - ex) = m2 * 2 ^ k).
  { replace (e - ex) with (e - (ex + k) + k) by lia.
    rewrite Z.pow_add_r by lia. rewrite Z.mul_assoc, Hv. reflexivity. }
  rewrite Hval. destruct Hm2 as [->| ->]; [left; reflexivity|right; lia].
Qed.

End Binary32_rounding.

Section Powers_of_two.

Local Open Scope Q_scope.

Lemma pow2_pos (e : Z) : 0 < 2 ^ e.
Proof. apply Qpower_0_lt. reflexivity. Qed.

Lemma pow2_add (a b : Z) : 2 ^ (a + b) == 2 ^ a * 2 ^ b.
Proof. apply Qpower_plus. discriminate. Qed.

Lemma pow2_Z (e : Z) : (0 <= e)%Z -> 2 ^ e == inject_Z (2 ^ e).
Proof. intros H. symmetry. exact (Zpower_Qpower 2 e H). Qed.

Lemma pow2_le (a b : Z) : (a <= b)%Z -> 2 ^ a <= 2 ^ b.
Proof.
  intros H. replace (2 ^ b) with (2 ^ (a + (b - a))) by (f_equal; lia).
  rewrite pow2_add, (@pow2_Z (b - a)) by lia.
  assert (H1 : (1 <= Z.pow 2 (b - a))%Z)
    by (apply Z.lt_pred_le, Z.pow_pos_nonneg; lia).
  rewrite Zle_Qle in H1. pose proof (pow2_pos a).
  set (x := 2 ^ a) in *. set (y := inject_Z (2 ^ (b - a))) in *.
  change (inject_Z 1) with 1 in H1. nra.
Qed.

Lemma pow2_lt_inv (a b : Z) : 2 ^ a < 2 ^ b -> (a < b)%Z.
Proof.
  intros H. destruct (Z.lt_ge_cases a b) as [Hlt|Hge]; [exact Hlt|].
  pose proof (pow2_le Hge). lra.
Qed.

Lemma F2Q_pos (m : positive) (e : Z) : 0 < F2Q m e.
Proof.
  unfold F2Q. pose proof (pow2_pos e).
  assert (H1 : 0 < inject_Z (Z.pos m)) by (rewrite <- (Zlt_Qlt 0); lia).
  set (x := 2 ^ e) in *. set (y := inject_Z (Z.pos m)) in *. nra.
Qed.

(** The value of a mantissa with [d] digits at exponent [e] lies between
    [2^(d - 1 + e)] and [2^(d + e)]. *)
Lemma F2Q_digits (m : positive) (e : Z) :
  2 ^ (Z.pos (digits2_pos m) - 1 + e) <= F2Q m e
  /\ F2Q m e < 2 ^ (Z.pos (digits2_pos m) + e).
Proof.
  pose proof (digits2_pos_spec m) as [Hl Hu].
  set (d := Z.pos (digits2_pos m)) in *.
  assert (Hd : (0 < d)%Z) by (subst d; lia).
  rewrite Zle_Qle in Hl. rewrite Zlt_Qlt in Hu.
  rewrite <- pow2_Z in Hl, Hu by lia.
  rewrite !pow2_add. unfold F2Q. pose proof (pow2_pos e).
  set (x := 2 ^ e) in *. set (y := inject_Z (Z.pos m)) in *.
  set (a := 2 ^ (d - 1)) in *. set (b := 2 ^ d) in *. split; nra.
Qed.

Lemma F2Q_mantissa (m : positive) (e : Z) :
  (2 ^ 23 <= Z.pos m < 2 ^ 24)%Z ->
  2 ^ (23 + e) <= F2Q m e /\ F2Q m e < 2 ^ (24 + e).
Proof.
  intros H. rewrite <- (@digits2_pos_unique m 24) by exact H.
  replace (23 + e)%Z with (24 - 1 + e)%Z by lia.
  rewrite <- (@digits2_pos_unique m 24) at 1 by exact H.
  apply F2Q_digits.
Qed.

End Powers_of_two.

Section Binary32_errors.

Local Open Scope Q_scope.

(** Rounding in the normal range moves a value by at most the fraction
    [2^-23] of itself. *)
Lemma binary_round_aux_error
      (s : bool) (mx : positive) (ex : Z) (lx : location) (T : Q) :
  (24 <= Z.pos (digits2_pos mx))%Z ->
  (-149 <= Z.pos (digits2_pos mx) + ex - 24)%Z ->
  (Z.pos (digits2_pos mx) + ex <= 127)%Z ->
  inject_Z (Z.pos mx) <= T < inject_Z (Z.pos mx) + 1 ->
  exists (m : positive) (e : Z),
    binary_round_aux 24 128 s (Z.pos mx) ex lx = S754_finite s m e
    /\ (2 ^ 23 <= Z.pos m < 2 ^ 24)%Z
    /\ (1 - ulp32) * (T * 2 ^ ex) <= F2Q m e
    /\ F2Q m e <= (1 + ulp32) * (T * 2 ^ ex).
Proof.
  intros Hd Hlow Hhigh [HT1 HT2].
  destruct (@binary_round_aux_neighbour s mx ex lx Hd Hlow Hhigh)
    as (m & e & lo & k & Hres & Hm & He & Hk & [Hlo1 Hlo2] & Hrel & Hv).
  exists m, e. split; [exact Hres|]. split; [exact Hm|].
  assert (EV : F2Q m e == inject_Z (Z.pos m * 2 ^ (e - ex)) * 2 ^ ex).
  { unfold F2Q. rewrite inject_Z_mult.
    replace e with (e - ex + ex)%Z at 1 by lia.
    rewrite pow2_add, (@pow2_Z (e - ex)) by lia. ring. }
  assert (Hlo2' : (Z.pos mx + 1 <= lo + 2 ^ k)%Z) by lia.
  rewrite Zle_Qle in Hlo1, Hlo2', Hrel.
  rewrite !inject_Z_plus in Hlo2'. rewrite inject_Z_mult in Hrel.
  change (inject_Z (2 ^ 23)) with (8388608 # 1) in Hrel.
  change (inject_Z 1) with 1 in Hlo2'.
  assert (HV : inject_Z (Z.pos m * 2 ^ (e - ex)) == inject_Z lo
               \/ inject_Z (Z.pos m * 2 ^ (e - ex))
                  == inject_Z lo + inject_Z (2 ^ k)).
  { destruct Hv as [-> | ->]; [left; reflexivity|right].
    rewrite inject_Z_plus. reflexivity. }
  pose proof (pow2_pos ex) as Hp.
  rewrite EV. unfold ulp32.
  set (V := inject_Z (Z.pos m * 2 ^ (e - ex))) in *.
  set (L := inject_Z lo) in *. set (P := inject_Z (2 ^ k)) in *.
  set (X := inject_Z (Z.pos mx)) in *. set (B := 2 ^ ex) in *.
  assert (HB1 : (1 - (1 # 8388608)) * T <= V)
    by (destruct HV as [E|E]; rewrite E; lra).
  assert (HB2 : V <= (1 + (1 # 8388608)) * T)
    by (destruct HV as [E|E]; rewrite E; lra).
  split; nra.
Qed.

End Binary32_errors.

Section Binary32_operations.

Local Open Scope Q_scope.

Lemma iter_xO_value (m k : positive) :
  (Z.pos (Pos.iter xO m k) = Z.pos m * 2 ^ Z.pos k)%Z.
Proof.
  induction k as [|k IH] using Pos.peano_ind.
  - simpl. lia.
  - rewrite Pos.iter_succ, Pos2Z.inj_succ, Z.pow_succ_r by lia.
    change (Z.pos (Pos.iter xO m k)~0) with (2 * Z.pos (Pos.iter xO m k))%Z.
    rewrite IH. ring.
Qed.

Lemma F2Q_iter_xO (m k : positive) (e : Z) :
  F2Q (Pos.iter xO m k) e == F2Q m (Z.pos k + e).
Proof.
  unfold F2Q. rewrite iter_xO_value, inject_Z_mult, pow2_add.
  rewrite (@pow2_Z (Z.pos k)) by lia. ring.
Qed.

(** [binary_round] of a mantissa at an exponent, in the normal range. *)
Lemma binary_round_error (s : bool) (M : positive) (e : Z) :
  2 ^ (-100) <= F2Q M e -> F2Q M e <= 2 ^ 100 ->
  exists (m : positive) (e' : Z),
    binary_round 24 128 s M e = S754_finite s m e'
    /\ (2 ^ 23 <= Z.pos m < 2 ^ 24)%Z
    /\ (1 - ulp32) * F2Q M e <= F2Q m e'
    /\ F2Q m e' <= (1 + ulp32) * F2Q M e.
Proof.
  intros Hlo Hhi.
  destruct (F2Q_digits M e) as [D1 D2].
  set (d := Z.pos (digits2_pos M)) in *.
  assert (Hd1 : (-100 < d + e)%Z)
    by (apply pow2_lt_inv; lra).
  assert (Hd2 : (d - 1 + e < 101)%Z).
  { apply pow2_lt_inv.
    assert (2 ^ 100 < 2 ^ 101) by reflexivity. lra. }
  unfold binary_round, shl_align. fold d.
  assert (Hf : fexp 24 128 (d + e) = (d + e - 24)%Z)
    by (unfold fexp, emin; lia).
  rewrite Hf. replace (d + e - 24 - e)%Z with (d - 24)%Z by lia.
  destruct (d - 24)%Z as [|p|p] eqn:Ek.
  - destruct (@binary_round_aux_error s M e loc_Exact (inject_Z (Z.pos M)))
      as (m & e' & Hres & Hm & H1 & H2); try (fold d; lia).
    { split; [apply Qle_refl | lra]. }
    exists m, e'. split; [exact Hres|]. split; [exact Hm|].
    unfold F2Q at 1 3. split; assumption.
  - destruct (@binary_round_aux_error s M e loc_Exact (inject_Z (Z.pos M)))
      as (m & e' & Hres & Hm & H1 & H2); try (fold d; lia).
    { split; [apply Qle_refl | lra]. }
    exists m, e'. split; [exact Hres|]. split; [exact Hm|].
    unfold F2Q at 1 3. split; assumption.
  - destruct (@binary_round_aux_error s (Pos.iter xO M p) (d + e - 24)
                loc_Exact (inject_Z (Z.pos (Pos.iter xO M p))))
      as (m & e' & Hres & Hm & H1 & H2);
      try (rewrite digits2_pos_iter_xO; fold d; lia).
    { split; [apply Qle_refl | lra]. }
    exists m, e'. split; [exact Hres|]. split; [exact Hm|].
    fold (F2Q (Pos.iter xO M p) (d + e - 24)) in H1, H2.
    rewrite F2Q_iter_xO in H1, H2.
    replace (Z.pos p + (d + e - 24))%Z with e in H1, H2 by lia.
    split; assumption.
Qed.

Lemma F2Q_shl_align (m : positive) (e e' : Z) :
  (e' <= e)%Z -> F2Q (fst (shl_align m e e')) e' == F2Q m e.
Proof.
  intros H. unfold shl_align.
  destruct (e' - e)%Z as [|p|p] eqn:E; try lia.
  - cbn [fst]. replace e' with e by lia. reflexivity.
  - cbn [fst]. rewrite F2Q_iter_xO. replace (Z.pos p + e')%Z with e by lia.
    reflexivity.
Qed.

Lemma F2Q_add (a b : positive) (e : Z) :
  F2Q (a + b) e == F2Q a e + F2Q b e.
Proof.
  unfold F2Q. rewrite Pos2Z.inj_add, inject_Z_plus. ring.
Qed.

(** The sum of two positive numbers. *)
Lemma add_error (mx my : positive) (ex ey : Z) :
  2 ^ (-100) <= F2Q mx ex + F2Q my ey ->
  F2Q mx ex + F2Q my ey <= 2 ^ 100 ->
  exists (m : positive) (e : Z),
    Binary32.add (S754_finite false mx ex) (S754_finite false my ey)
    = S754_finite false m e
    /\ (2 ^ 23 <= Z.pos m < 2 ^ 24)%Z
    /\ (1 - ulp32) * (F2Q mx ex + F2Q my ey) <= F2Q m e
    /\ F2Q m e <= (1 + ulp32) * (F2Q mx ex + F2Q my ey).
Proof.
  intros Hlo Hhi.
  unfold Binary32.add, Binary32.prec, Binary32.emax, SFadd.
  cbn [cond_Zopp]. cbv zeta.
  set (ez := Z.min ex ey).
  pose proof (@F2Q_shl_align mx ex ez ltac:(subst ez; lia)) as Ex.
  pose proof (@F2Q_shl_align my ey ez ltac:(subst ez; lia)) as Ey.
  set (a := fst (shl_align mx ex ez)) in *.
  set (b := fst (shl_align my ey ez)) in *.
  change (Z.pos a + Z.pos b)%Z with (Z.pos (a + b)).
  cbn [binary_normalize].
  pose proof (F2Q_add a b ez) as Es.
  destruct (@binary_round_error false (a + b) ez)
    as (m & e & Hres & Hm & H1 & H2); try lra.
  exists m, e. split; [exact Hres|]. split; [exact Hm|].
  unfold ulp32 in *. split; lra.
Qed.

(** The conversion of a positive [int32]. *)
Lemma of_Z_error (z : Z) :
  (0 < z < 2 ^ 31)%Z ->
  exists (m : positive) (e : Z),
    Binary32.of_Z z = S754_finite false m e
    /\ (2 ^ 23 <= Z.pos m < 2 ^ 24)%Z
    /\ (1 - ulp32) * inject_Z z <= F2Q m e
    /\ F2Q m e <= (1 + ulp32) * inject_Z z.
Proof.
  intros [H0 H1]. destruct z as [|p|p]; try lia.
  unfold Binary32.of_Z, Binary32.prec, Binary32.emax, binary_normalize.
  assert (E : F2Q p 0 == inject_Z (Z.pos p)).
  { unfold F2Q. change (2 ^ 0) with 1. ring. }
  assert (Hp1 : 1 <= inject_Z (Z.pos p))
    by (rewrite <- (Zle_Qle 1); lia).
  assert (Hp2 : inject_Z (Z.pos p) <= inject_Z (2 ^ 31))
    by (rewrite <- Zle_Qle; lia).
  assert (B1 : 2 ^ (-100) <= 1) by discriminate.
  assert (B2 : inject_Z (2 ^ 31) <= 2 ^ 100) by discriminate.
  destruct (@binary_round_error false p 0)
    as (m & e & Hres & Hm & Ha & Hb); try lra.
  exists m, e. split; [exact Hres|]. split; [exact Hm|].
  unfold ulp32 in *. split; lra.
Qed.

Lemma div_eucl_div_mod (a b : Z) : Z.div_eucl a b = ((a / b)%Z, (a mod b)%Z).
Proof.
  unfold Z.div, Z.modulo. destruct (Z.div_eucl a b); reflexivity.
Qed.

(** The quotient of two positive numbers, stated without a division:
    [x / y] lies between [2^-100] and [2^100], and the result times [y]
    is [x] up to the fraction [2^-23]. *)
Lemma div_error (mx my : positive) (ex ey : Z) :
  2 ^ (-100) * F2Q my ey <= F2Q mx ex ->
  F2Q mx ex <= 2 ^ 100 * F2Q my ey ->
  exists (m : positive) (e : Z),
    Binary32.div (S754_finite false mx ex) (S754_finite false my ey)
    = S754_finite false m e
    /\ (2 ^ 23 <= Z.pos m < 2 ^ 24)%Z
    /\ (1 - ulp32) * F2Q mx ex <= F2Q m e * F2Q my ey
    /\ F2Q m e * F2Q my ey <= (1 + ulp32) * F2Q mx ex.
Proof.
  intros Hlo Hhi.
  destruct (F2Q_digits mx ex) as [X1 X2].
  destruct (F2Q_digits my ey) as [Y1 Y2].
  pose proof (digits2_pos_spec mx) as Sx.
  pose proof (digits2_pos_spec my) as Sy.
  set (d1 := Z.pos (digits2_pos mx)) in *.
  set (d2 := Z.pos (digits2_pos my)) in *.
  assert (Hd1 : (0 < d1)%Z) by (subst d1; lia).
  assert (Hd2 : (0 < d2)%Z) by (subst d2; lia).
  pose proof (F2Q_pos mx ex) as Px. pose proof (F2Q_pos my ey) as Py.
  (* the difference of the magnitudes is moderate *)
  assert (HD : (-100 < d1 + ex - (d2 + ey) + 1)%Z).
  { apply pow2_lt_inv.
    assert (E : 2 ^ (d1 + ex - (d2 + ey) + 1) * 2 ^ (d2 - 1 + ey)
                == 2 ^ (d1 + ex)).
    { rewrite <- pow2_add.
      replace (d1 + ex - (d2 + ey) + 1 + (d2 - 1 + ey))%Z with (d1 + ex)%Z
        by lia.
      reflexivity. }
    pose proof (pow2_pos (d1 + ex - (d2 + ey) + 1)).
    pose proof (pow2_pos (-100)).
    set (u := 2 ^ (d1 + ex - (d2 + ey) + 1)) in *.
    set (v := 2 ^ (-100)) in *.
    set (x := F2Q mx ex) in *. set (y := F2Q my ey) in *.
    set (py := 2 ^ (d2 - 1 + ey)) in *. set (px := 2 ^ (d1 + ex)) in *.
    destruct (Qlt_le_dec v u) as [?|Hc]; [assumption|exfalso].
    assert (H1 : u * y <= v * y) by nra.
    assert (H2 : u * py <= u * y) by nra. lra. }
  unfold Binary32.div, Binary32.prec, Binary32.emax, SFdiv, SFdiv_core_binary.
  cbn [Zdigits2 xorb]. fold d1 d2.
  assert (Hf : fexp 24 128 (d1 + ex - (d2 + ey))
               = (d1 + ex - (d2 + ey) - 24)%Z)
    by (unfold fexp, emin; lia).
  rewrite Hf.
  set (e' := Z.min (d1 + ex - (d2 + ey) - 24) (ex - ey)).
  set (sh := (ex - ey - e')%Z).
  assert (Hsh : (0 <= sh)%Z) by (subst sh e'; lia).
  assert (Hsh2 : (24 + d2 - d1 <= sh)%Z) by (subst sh e'; lia).
  set (m' := match sh with
             | 0%Z => Z.pos mx
             | Z.pos _ => Z.shiftl (Z.pos mx) sh
             | Z.neg _ => 0%Z
             end).
  assert (Em : m' = (Z.pos mx * 2 ^ sh)%Z).
  { subst m'. destruct sh as [|p|p] eqn:E; [simpl; lia| |lia].
    apply Z.shiftl_mul_pow2. lia. }
  rewrite div_eucl_div_mod.
  set (q := (m' / Z.pos my)%Z).
  assert (Hq : (Z.pos my * q <= m' < Z.pos my * (q + 1))%Z).
  { subst q. pose proof (Z.mul_div_le m' (Z.pos my) ltac:(lia)).
    pose proof (Z.mul_succ_div_gt m' (Z.pos my) ltac:(lia)). lia. }
  assert (Hq23 : (2 ^ 23 <= q)%Z).
  { subst q. apply Z.div_le_lower_bound; [lia|].
    assert (E1 : (2 ^ (d1 - 1) * 2 ^ sh = 2 ^ (d1 - 1 + sh))%Z)
      by (rewrite Z.pow_add_r by lia; reflexivity).
    assert (E2 : (2 ^ (d1 - 1 + sh)
                  = 2 ^ (23 + d2) * 2 ^ (d1 - 1 + sh - (23 + d2)))%Z)
      by (rewrite <- Z.pow_add_r by lia; f_equal; lia).
    assert (E3 : (2 ^ (23 + d2) = 2 ^ 23 * 2 ^ d2)%Z)
      by (rewrite Z.pow_add_r by lia; reflexivity).
    assert (0 < 2 ^ (d1 - 1 + sh - (23 + d2)))%Z
      by (apply Z.pow_pos_nonneg; lia).
    assert (0 < 2 ^ sh)%Z by (apply Z.pow_pos_nonneg; lia).
    nia. }
  destruct q as [|qp|qp] eqn:Eq; [simpl in Hq23; lia| |lia].
  pose proof (digits2_pos_spec qp) as Sq.
  set (dq := Z.pos (digits2_pos qp)) in *.
  assert (Hdq : (24 <= dq)%Z).
  { destruct (Z.lt_ge_cases dq 24) as [Hc|]; [exfalso|assumption].
    assert (2 ^ dq <= 2 ^ 23)%Z by (apply Z.pow_le_mono_r; lia). lia. }
  (* the exact quotient, in units of 2^e' *)
  set (T := inject_Z m' / inject_Z (Z.pos my)).
  assert (Pm : 0 < inject_Z (Z.pos my)) by (rewrite <- (Zlt_Qlt 0); lia).
  assert (ET : T * inject_Z (Z.pos my) == inject_Z m')
    by (subst T; field; lra).
  assert (HT : inject_Z (Z.pos qp) <= T < inject_Z (Z.pos qp) + 1).
  { destruct Hq as [Hq1 Hq2].
    rewrite Zle_Qle in Hq1. rewrite Zlt_Qlt in Hq2.
    rewrite inject_Z_mult in Hq1, Hq2. rewrite inject_Z_plus in Hq2.
    change (inject_Z 1) with 1 in Hq2.
    set (Y := inject_Z (Z.pos my)) in *. set (Qq := inject_Z (Z.pos qp)) in *.
    set (M := inject_Z m') in *. split; nra. }
  (* the exact quotient times [y] is [x] *)
  assert (EX : T * 2 ^ e' * F2Q my ey == F2Q mx ex).
  { unfold F2Q.
    transitivity (T * inject_Z (Z.pos my) * (2 ^ e' * 2 ^ ey)); [ring|].
    rewrite ET, Em, inject_Z_mult, <- (@pow2_Z sh) by lia.
    rewrite <- pow2_add.
    transitivity (inject_Z (Z.pos mx) * (2 ^ sh * 2 ^ (e' + ey))); [ring|].
    rewrite <- pow2_add. replace (sh + (e' + ey))%Z with ex by (subst sh; lia).
    reflexivity. }
  destruct (F2Q_digits qp e') as [Q1 Q2]. fold dq in Q1, Q2.
  pose proof (pow2_pos e') as Pe.
  assert (HTq : F2Q qp e' <= T * 2 ^ e' /\ T * 2 ^ e' < 2 ^ (dq + e')).
  { assert (Hs : inject_Z (Z.pos qp) + 1 <= inject_Z (2 ^ dq)).
    { change 1 with (inject_Z 1). rewrite <- inject_Z_plus, <- Zle_Qle. lia. }
    rewrite <- pow2_Z in Hs by lia. rewrite pow2_add.
    unfold F2Q. set (Qq := inject_Z (Z.pos qp)) in *.
    set (B := 2 ^ e') in *. set (Dq := 2 ^ dq) in *. split; nra. }
  assert (Hr1 : (-100 < dq + e')%Z).
  { apply pow2_lt_inv.
    pose proof (pow2_pos (-100)).
    set (v := 2 ^ (-100)) in *. set (u := 2 ^ (dq + e')) in *.
    set (x := F2Q mx ex) in *. set (y := F2Q my ey) in *.
    set (t := T * 2 ^ e') in *.
    destruct (Qlt_le_dec v u) as [?|Hc]; [assumption|exfalso]. nra. }
  assert (Hr2 : (dq - 1 + e' < 101)%Z).
  { apply pow2_lt_inv.
    assert (H100 : 2 ^ 100 < 2 ^ 101) by reflexivity.
    set (v := 2 ^ 100) in *. set (u := 2 ^ (dq - 1 + e')) in *.
    set (w := 2 ^ 101) in *.
    set (x := F2Q mx ex) in *. set (y := F2Q my ey) in *.
    set (t := T * 2 ^ e') in *. set (fq := F2Q qp e') in *.
    destruct (Qlt_le_dec u w) as [?|Hc]; [assumption|exfalso]. nra. }
  destruct (@binary_round_aux_error false qp e'
              (new_location (Z.pos my) (m' mod Z.pos my)) T)
    as (m & e & Hres & Hm & H1 & H2); try (fold dq; lia); [exact HT|].
  exists m, e. split; [exact Hres|]. split; [exact Hm|].
  set (x := F2Q mx ex) in *. set (y := F2Q my ey) in *.
  set (t := T * 2 ^ e') in *. set (f := F2Q m e) in *.
  unfold ulp32 in *. split; nra.
Qed.

End Binary32_operations.

Section Binary32_sums.

Local Open Scope Q_scope.

Lemma of_Z_converted (z : Z) :
  (0 <= z < 2 ^ 31)%Z -> converted (Binary32.of_Z z).
Proof.
  intros [H0 H1]. destruct (Z.eq_dec z 0) as [->|Hz].
  - left. reflexivity.
  - right. destruct (@of_Z_error z ltac:(lia)) as (m & e & -> & Hm & Ha & Hb).
    exists m, e. split; [reflexivity|]. split; [exact Hm|].
    assert (Hz1 : 1 <= inject_Z z) by (rewrite <- (Zle_Qle 1); lia).
    assert (Hz2 : inject_Z z <= inject_Z (2 ^ 31)) by (rewrite <- Zle_Qle; lia).
    change (inject_Z (2 ^ 31)) with 2147483648 in Hz2.
    unfold ulp32 in *. split; lra.
Qed.

Lemma converted_value (x : spec_float) :
  converted x -> B2Q x == 0 \/ (1 # 2 <= B2Q x /\ B2Q x <= 4294967296).
Proof.
  intros [->|(m & e & -> & _ & H1 & H2)]; [left; reflexivity|right].
  cbn [B2Q]. split; assumption.
Qed.

Lemma total_cons (x : spec_float) (l : list spec_float) :
  exact_sum (x :: l) = B2Q x + exact_sum l.
Proof. reflexivity. Qed.

Lemma total_app (l1 l2 : list spec_float) :
  exact_sum (l1 ++ l2) == exact_sum l1 + exact_sum l2.
Proof.
  induction l1 as [|x l1 IH]; cbn [app].
  - unfold exact_sum at 2. cbn. ring.
  - rewrite !total_cons, IH. ring.
Qed.

Lemma total_perm (l l' : list spec_float) :
  Permutation l l' -> exact_sum l == exact_sum l'.
Proof.
  induction 1 as [|x l l' _ IH|x y l|l l' l'' _ IH1 _ IH2].
  - reflexivity.
  - rewrite !total_cons, IH. reflexivity.
  - rewrite !total_cons. ring.
  - rewrite IH1. exact IH2.
Qed.

(** The exact sum of converted counts: zero, or at least 1/2, and at most
    [2^32] for each of them. *)
Lemma total_converted (l : list spec_float) :
  Forall converted l ->
  (exact_sum l == 0 \/ 1 # 2 <= exact_sum l)
  /\ exact_sum l <= inject_Z (Z.of_nat (length l)) * 4294967296
  /\ (0 < exact_sum l -> (1 <= length l)%nat).
Proof.
  induction 1 as [|x l Hx _ (IH1 & IH2 & IH3)].
  - unfold exact_sum. cbn. split; [left; reflexivity|].
    split; [discriminate|]. intros H. discriminate H.
  - rewrite total_cons. cbn [length]. rewrite Nat2Z.inj_succ.
    unfold Z.succ. rewrite inject_Z_plus. change (inject_Z 1) with 1.
    set (K := inject_Z (Z.of_nat (length l))) in *.
    set (A := exact_sum l) in *.
    destruct (converted_value Hx) as [E|[E1 E2]].
    + rewrite E. split; [destruct IH1; [left|right]; lra|].
      split; [lra|]. intros _. lia.
    + split; [right; destruct IH1; lra|]. split; [lra|]. intros _. lia.
Qed.

Lemma Qmult_zero (a b : Q) : b == 0 -> a * b == 0.
Proof. intros H. rewrite H. ring. Qed.

Lemma add_zero_l (s : bool) (x : spec_float) :
  (exists m e, x = S754_finite false m e) ->
  Binary32.add (S754_zero s) x = x.
Proof. intros (m & e & ->). reflexivity. Qed.

Lemma add_zero_r (s : bool) (x : spec_float) :
  (exists m e, x = S754_finite false m e) ->
  Binary32.add x (S754_zero s) = x.
Proof. intros (m & e & ->). reflexivity. Qed.

Lemma add_zeros (s s' : bool) :
  exists b, Binary32.add (S754_zero s) (S754_zero s') = S754_zero b.
Proof. destruct s, s'; eexists; reflexivity. Qed.

(** The float32 sum of at most 2^20 converted counts, in any order: zero
    when they are all zero, else within the fraction [k * 2^-23] below
    and [2 * k * 2^-23] above the exact sum, [k] the number of terms. *)
Lemma float32_sum_error (l : list spec_float) (s : spec_float) :
  float32_sum l s ->
  Forall converted l ->
  (Z.of_nat (length l) <= 2 ^ 20)%Z ->
  (exact_sum l == 0 -> exists b, s = S754_zero b)
  /\ (0 < exact_sum l ->
      exists m e,
        s = S754_finite false m e
        /\ (2 ^ 23 <= Z.pos m < 2 ^ 24)%Z
        /\ (1 - inject_Z (Z.of_nat (length l)) * ulp32) * exact_sum l <= F2Q m e
        /\ F2Q m e
           <= (1 + 2 * inject_Z (Z.of_nat (length l)) * ulp32) * exact_sum l).
Proof.
  induction 1 as [b|x|l1 l2 s1 s2 _ IH1 _ IH2|l l' s Hp _ IH];
    intros Hall Hlen.
  - split; [intros _; exists b; reflexivity|].
    intros H. discriminate H.
  - apply Forall_inv in Hall. unfold exact_sum. cbn [map fold_right length].
    destruct Hall as [->|(m & e & -> & Hm & H1 & H2)].
    + split; [intros _; exists false; reflexivity|].
      cbn [B2Q]. intros H. exfalso. lra.
    + cbn [B2Q]. split; [intros H; exfalso; lra|].
      intros _. exists m, e. split; [reflexivity|]. split; [exact Hm|].
      change (inject_Z (Z.of_nat 1)) with 1. unfold ulp32. split; lra.
  - apply Forall_app in Hall. destruct Hall as [Hall1 Hall2].
    rewrite length_app, Nat2Z.inj_add in Hlen.
    specialize (IH1 Hall1 ltac:(lia)). specialize (IH2 Hall2 ltac:(lia)).
    destruct (total_converted Hall1) as (T1 & U1 & N1).
    destruct (total_converted Hall2) as (T2 & U2 & N2).
    rewrite length_app, Nat2Z.inj_add, inject_Z_plus.
    assert (K1 : 0 <= inject_Z (Z.of_nat (length l1)))
      by (rewrite <- (Zle_Qle 0); lia).
    assert (K2 : 0 <= inject_Z (Z.of_nat (length l2)))
      by (rewrite <- (Zle_Qle 0); lia).
    assert (K3 : inject_Z (Z.of_nat (length l1))
                 + inject_Z (Z.of_nat (length l2)) <= 1048576).
    { rewrite <- inject_Z_plus. change 1048576 with (inject_Z (2 ^ 20)).
      rewrite <- Zle_Qle. exact Hlen. }
    assert (N1' : 0 < exact_sum l1 -> 1 <= inject_Z (Z.of_nat (length l1))).
    { intros H. rewrite <- (Zle_Qle 1). specialize (N1 H). lia. }
    assert (N2' : 0 < exact_sum l2 -> 1 <= inject_Z (Z.of_nat (length l2))).
    { intros H. rewrite <- (Zle_Qle 1). specialize (N2 H). lia. }
    pose proof (total_app l1 l2) as Eapp.
    destruct IH1 as [Z1 P1], IH2 as [Z2 P2].
    set (k1 := inject_Z (Z.of_nat (length l1))) in *.
    set (k2 := inject_Z (Z.of_nat (length l2))) in *.
    set (A1 := exact_sum l1) in *. set (A2 := exact_sum l2) in *.
    unfold ulp32 in *.
    destruct T1 as [E1|G1], T2 as [E2|G2].
    + destruct (Z1 E1) as (b1 & ->). destruct (Z2 E2) as (b2 & ->).
      split; [intros _; apply add_zeros|]. intros H. exfalso. lra.
    + destruct (Z1 E1) as (b1 & ->).
      destruct (P2 ltac:(lra)) as (m & e & -> & Hm & B1 & B2).
      split; [intros H; exfalso; lra|]. intros _.
      rewrite add_zero_l by (do 2 eexists; reflexivity).
      exists m, e. split; [reflexivity|]. split; [exact Hm|].
      rewrite Eapp, E1. assert (0 <= k1 * A2) by nra. split; lra.
    + destruct (Z2 E2) as (b2 & ->).
      destruct (P1 ltac:(lra)) as (m & e & -> & Hm & B1 & B2).
      split; [intros H; exfalso; lra|]. intros _.
      rewrite add_zero_r by (do 2 eexists; reflexivity).
      exists m, e. split; [reflexivity|]. split; [exact Hm|].
      rewrite Eapp, E2. assert (0 <= k2 * A1) by nra. split; lra.
    + destruct (P1 ltac:(lra)) as (m1 & e1 & -> & Hm1 & B1 & B1').
      destruct (P2 ltac:(lra)) as (m2 & e2 & -> & Hm2 & B2 & B2').
      specialize (N1' ltac:(lra)). specialize (N2' ltac:(lra)).
      split; [intros H; exfalso; lra|]. intros _.
      set (v1 := F2Q m1 e1) in *. set (v2 := F2Q m2 e2) in *.
      assert (L1 : 1 # 4 <= v1) by nra.
      assert (L2 : 1 # 4 <= v2) by nra.
      assert (H1 : v1 <= 2 * A1) by nra.
      assert (H2 : v2 <= 2 * A2) by nra.
      assert (U : A1 + A2 <= 1048576 * 4294967296) by nra.
      assert (Blo : 2 ^ (-100) <= 1 # 2) by discriminate.
      assert (Bhi : 2 * (1048576 * 4294967296) <= 2 ^ 100) by discriminate.
      destruct (@add_error m1 m2 e1 e2) as (m & e & Hres & Hm & C1 & C2);
        try (fold v1 v2; lra).
      fold v1 v2 in C1, C2. unfold ulp32 in C1, C2.
      exists m, e. split; [exact Hres|]. split; [exact Hm|].
      set (v := F2Q m e) in *. rewrite Eapp.
      split.
      * assert (S1 : (1 - (k1 + k2) * (1 # 8388608)) * A1
                     <= (1 - (1 # 8388608)) * v1) by nra.
        assert (S2 : (1 - (k1 + k2) * (1 # 8388608)) * A2
                     <= (1 - (1 # 8388608)) * v2) by nra.
        lra.
      * assert (S1 : (1 + (1 # 8388608)) * v1
                     <= (1 + 2 * (k1 + k2) * (1 # 8388608)) * A1) by nra.
        assert (S2 : (1 + (1 # 8388608)) * v2
                     <= (1 + 2 * (k1 + k2) * (1 # 8388608)) * A2) by nra.
        lra.
  - assert (Hall' : Forall converted l)
      by (apply (Permutation_Forall (Permutation_sym Hp)); exact Hall).
    rewrite <- (Permutation_length Hp) in *.
    pose proof (total_perm Hp) as Ep.
    destruct (IH Hall' Hlen) as [Z0 P0]. split.
    + intros H. apply Z0. lra.
    + intros H. destruct (P0 ltac:(lra)) as (m & e & -> & Hm & B1 & B2).
      exists m, e. split; [reflexivity|]. split; [exact Hm|].
      rewrite <- Ep. split; assumption.
Qed.

End Binary32_sums.

Section Binary32_rows.

Local Open Scope Q_scope.

Lemma sum_from (l pre : list spec_float) (s : spec_float) :
  float32_sum pre s -> float32_sum (pre ++ l) (fold_left Binary32.add l s).
Proof.
  revert pre s. induction l as [|x l IH]; intros pre s H; cbn [fold_left].
  - rewrite app_nil_r. exact H.
  - replace (pre ++ x :: l) with ((pre ++ [x]) ++ l)
      by (rewrite <- app_assoc; reflexivity).
    apply IH. apply sum_app; [exact H | apply sum_one].
Qed.

Lemma sum_left_to_right (l : list spec_float) :
  float32_sum l (Binary32.sum l).
Proof. apply (@sum_from l [] _ (sum_nil false)). Qed.

Lemma clip_min_zero (b : bool) :
  Binary32.clip_min Binary32.epsilon (S754_zero b) = Binary32.epsilon.
Proof. reflexivity. Qed.

Lemma clip_min_large (m : positive) (e : Z) :
  (2 ^ 23 <= Z.pos m < 2 ^ 24)%Z -> 1 # 4 <= F2Q m e ->
  Binary32.clip_min Binary32.epsilon (S754_finite false m e)
  = S754_finite false m e.
Proof.
  intros Hm Hv. destruct (F2Q_mantissa e Hm) as [_ Hu].
  assert (He : (-2 < 24 + e)%Z).
  { apply pow2_lt_inv. assert (2 ^ (-2) == 1 # 4) by reflexivity. lra. }
  unfold Binary32.clip_min, Binary32.epsilon, SFcompare.
  rewrite (proj2 (Z.compare_gt_iff e (-63))) by lia. reflexivity.
Qed.

Lemma total_zeros (row : list Z) :
  Forall (fun c => c = 0%Z) row ->
  map Binary32.of_Z row = repeat (S754_zero false) (length row)
  /\ exact_sum (map Binary32.of_Z row) == 0.
Proof.
  induction 1 as [|c row -> _ [IH1 IH2]]; [split; reflexivity|].
  cbn [map length repeat]. rewrite total_cons, IH1.
  split; [reflexivity|]. rewrite <- IH1, IH2. reflexivity.
Qed.

Lemma total_non_negative (l : list spec_float) :
  Forall converted l -> 0 <= exact_sum l.
Proof.
  intros H. destruct (total_converted H) as ([E|G] & _); lra.
Qed.

Lemma total_positive (row : list Z) :
  Forall (fun c => (0 <= c < 2 ^ 31)%Z) row ->
  Exists (fun c => c <> 0%Z) row ->
  0 < exact_sum (map Binary32.of_Z row).
Proof.
  intros Hall Hex. induction Hex as [c row Hc|c row _ IH].
  - cbn [map]. rewrite total_cons.
    pose proof (Forall_inv Hall) as Hr. apply Forall_inv_tail in Hall.
    assert (Hl : Forall converted (map Binary32.of_Z row)).
    { apply Forall_map. eapply Forall_impl; [|exact Hall].
      intros z Hz. apply of_Z_converted, Hz. }
    pose proof (total_non_negative Hl). cbv beta in Hr, Hc.
    destruct (@of_Z_error c ltac:(lia)) as (m & e & -> & _ & Ha & _).
    cbn [B2Q]. assert (1 <= inject_Z c) by (rewrite <- (Zle_Qle 1); lia).
    unfold ulp32 in *. lra.
  - cbn [map]. rewrite total_cons.
    pose proof (Forall_inv Hall) as Hr. apply Forall_inv_tail in Hall.
    specialize (IH Hall).
    destruct (converted_value (of_Z_converted Hr)) as [E|[E _]]; lra.
Qed.

(** The quotients of converted counts by a float [s], summed exactly and
    multiplied by [s], are the sum of the counts up to the fraction
    [2^-23]. *)
Lemma quotients_error (l : list spec_float) (ms : positive) (es : Z) :
  Forall converted l ->
  exact_sum l <= 2 * F2Q ms es ->
  F2Q ms es <= 1152921504606846976 ->
  let out := map (fun x => Binary32.div x (S754_finite false ms es)) l in
  Forall finite_non_negative out
  /\ (1 - ulp32) * exact_sum l <= exact_sum out * F2Q ms es
  /\ exact_sum out * F2Q ms es <= (1 + ulp32) * exact_sum l.
Proof.
  intros Hall. cbv zeta. pose proof (F2Q_pos ms es) as Ps.
  set (vs := F2Q ms es) in *.
  induction Hall as [|x l Hx Hl IH]; intros Ht Hs.
  - cbn [map]. split; [constructor|]. unfold exact_sum. cbn. split; lra.
  - cbn [map]. rewrite !total_cons in *.
    pose proof (total_non_negative Hl) as Hn.
    destruct Hx as [->|(m & e & -> & Hm & H1 & H2)].
    + destruct IH as (F & B1 & B2); [cbn [B2Q] in Ht; lra | exact Hs |].
      change (Binary32.div (S754_zero false) (S754_finite false ms es))
        with (S754_zero false).
      split; [constructor; [left; reflexivity | exact F]|].
      cbn [B2Q]. split; lra.
    + cbn [B2Q] in Ht |- *.
      destruct IH as (F & B1 & B2); [lra | exact Hs |].
      assert (G1 : 2 ^ (-100) * 1152921504606846976 <= 1 # 2)
        by discriminate.
      assert (G2 : 2 <= 2 ^ 100) by discriminate.
      pose proof (pow2_pos (-100)) as G3.
      set (g := 2 ^ (-100)) in *. set (h := 2 ^ 100) in *.
      destruct (@div_error m ms e es) as (q & eq & -> & Hq & C1 & C2);
        fold vs; fold g; fold h; try nra.
      split; [constructor; [right; do 2 eexists; reflexivity | exact F]|].
      cbn [B2Q]. fold vs in C1, C2. unfold ulp32 in *.
      set (r := F2Q q eq) in *.
      set (R := exact_sum (map (fun x => Binary32.div x (S754_finite false ms es)) l)) in *.
      split; nra.
Qed.

Lemma tolerance_value (n : nat) :
  tolerance n == (2 * inject_Z (Z.of_nat n) + 2) * ulp32.
Proof.
  unfold tolerance, ulp32. rewrite Nat2Z.inj_add.
  rewrite (Qmake_Qdiv (Z.of_nat n + Z.of_nat 1) 4194304).
  rewrite inject_Z_plus. change (inject_Z (Z.of_nat 1)) with 1.
  change (inject_Z (Z.pos 4194304)) with 4194304. field.
Qed.

(** One row: the float32 entries [c / max(s, 1e-12)], [s] a float32 sum
    of the row in any order. *)
Lemma normalized_row (row : list Z) (s : spec_float) :
  float32_sum (map Binary32.of_Z row) s ->
  Forall (fun c => (0 <= c < 2 ^ 31)%Z) row ->
  (Z.of_nat (length row) <= 2 ^ 20)%Z ->
  let out := map (fun x => Binary32.div
                             x (Binary32.clip_min Binary32.epsilon s))
                 (map Binary32.of_Z row) in
  (Forall (fun c => c = 0%Z) row ->
   out = repeat (S754_zero false) (length row))
  /\ (Exists (fun c => c <> 0%Z) row ->
      Forall finite_non_negative out
      /\ 1 - tolerance (length row) <= exact_sum out
      /\ exact_sum out <= 1 + tolerance (length row)).
Proof.
  intros Hs Hall Hlen. cbv zeta.
  assert (Hconv : Forall converted (map Binary32.of_Z row)).
  { apply Forall_map. eapply Forall_impl; [|exact Hall].
    intros z Hz. apply of_Z_converted, Hz. }
  destruct (@float32_sum_error _ _ Hs Hconv) as [Z0 P0];
    [rewrite length_map; exact Hlen|].
  rewrite length_map in P0. split.
  - intros Hz. destruct (total_zeros Hz) as [E1 E2].
    destruct (Z0 E2) as (b & ->). rewrite clip_min_zero, E1.
    clear. induction (length row) as [|k IH]; [reflexivity|].
    cbn [repeat map]. rewrite IH. reflexivity.
  - intros Hex. pose proof (total_positive Hall Hex) as Hpos.
    destruct (P0 Hpos) as (m & e & -> & Hm & B1 & B2).
    destruct (total_converted Hconv) as ([E|G] & U & _); [lra|].
    rewrite length_map in U.
    assert (K1 : 1 <= inject_Z (Z.of_nat (length row))).
    { rewrite <- (Zle_Qle 1). destruct row; [inversion Hex|]. cbn [length]. lia. }
    assert (K2 : inject_Z (Z.of_nat (length row)) <= 1048576).
    { change 1048576 with (inject_Z (2 ^ 20)). rewrite <- Zle_Qle. exact Hlen. }
    rewrite tolerance_value. unfold ulp32 in *.
    set (k := inject_Z (Z.of_nat (length row))) in *.
    set (A := exact_sum (map Binary32.of_Z row)) in *.
    set (v := F2Q m e) in *.
    assert (V1 : 1 # 4 <= v) by nra.
    assert (V2 : A <= 2 * v) by nra.
    assert (V3 : v <= 1152921504606846976) by nra.
    rewrite clip_min_large by assumption.
    destruct (@quotients_error _ m e Hconv V2 V3) as (F & C1 & C2).
    split; [exact F|]. fold A v in C1, C2. unfold ulp32 in C1, C2.
    set (R := exact_sum (map (fun x => Binary32.div x (S754_finite false m e))
                         (map Binary32.of_Z row))) in *.
    assert (R0 : 0 <= R) by nra.
    assert (S1 : R * ((1 - k * (1 # 8388608)) * A) <= R * v) by nra.
    assert (S2 : R * v <= R * ((1 + 2 * k * (1 # 8388608)) * A)) by nra.
    assert (S3 : R * (1 - k * (1 # 8388608)) <= 1 + (1 # 8388608)) by nra.
    assert (S4 : 1 - (1 # 8388608) <= R * (1 + 2 * k * (1 # 8388608))) by nra.
    split; nra.
Qed.

End Binary32_rows.

(** The constant the sums are clipped at is the [float32] nearest to
    10^-12. *)
Lemma epsilon_is_nearest :
  nearest_float32 (1 # 1000000000000) Binary32.epsilon = true.
Proof. vm_compute. reflexivity. Qed.

Lemma nth_normalize32
      (sum : list spec_float -> spec_float) (c : matrix) (i : nat) :
  i < length c ->
  nth i (ConfusionMatrix.normalize32 sum c) []
  = map (fun x => Binary32.div
                    x (Binary32.clip_min
                         Binary32.epsilon
                         (sum (map Binary32.of_Z (nth i c [])))))
        (map Binary32.of_Z (nth i c [])).
Proof.
  intros Hi. unfold ConfusionMatrix.normalize32.
  rewrite (nth_indep _ [] ((fun row =>
             map (fun x => Binary32.div
                             x (Binary32.clip_min
                                  Binary32.epsilon
                                  (sum (map Binary32.of_Z row))))
                 (map Binary32.of_Z row)) []))
    by (rewrite length_map; exact Hi).
  rewrite (map_nth (fun row =>
             map (fun x => Binary32.div
                             x (Binary32.clip_min
                                  Binary32.epsilon
                                  (sum (map Binary32.of_Z row))))
                 (map Binary32.of_Z row))).
  reflexivity.
Qed.

(** C8.  With [normalized] set, [value] returns a [float32] matrix whose
    row [i] holds the counts of row [i], each divided by
    [max(sum(row_i), 1e-12)], conversion, sum and quotient all rounded to
    [float32].  For at most 2^20 classes and counts in [[0, 2^31)],
    whatever the order in which NumPy adds a row: a row without counts
    stays all zero ([+0.0]); in any other row every entry is a finite
    number, and the entries add up, exactly, to a number within
    [(n + 1) * 2^-22] of 1, [n] the number of classes. *)
Theorem normalized_rows_sum_to_one
        (sum : list spec_float -> spec_float) (cm : ConfusionMatrix.t)
        (i : nat) :
  let n := ConfusionMatrix.num_classes cm in
  (forall l, float32_sum l (sum l)) ->
  ConfusionMatrix.normalized cm = true ->
  square n (ConfusionMatrix.conf cm) ->
  Forall (Forall (fun c => (0 <= c < 2 ^ 31)%Z)) (ConfusionMatrix.conf cm) ->
  (Z.of_nat n <= 2 ^ 20)%Z ->
  i < n ->
  exists out,
    ConfusionMatrix.value32 sum cm = ConfusionMatrix.Normalized out
    /\ length out = n
    /\ let counts := nth i (ConfusionMatrix.conf cm) [] in
       let row := nth i out [] in
       row = map (fun c =>
                    Binary32.div
                      (Binary32.of_Z c)
                      (Binary32.clip_min
                         Binary32.epsilon
                         (sum (map Binary32.of_Z counts))))
                 counts
       /\ (Forall (fun c => c = 0%Z) counts ->
           row = repeat (S754_zero false) n)
       /\ (Exists (fun c => c <> 0%Z) counts ->
           Forall finite_non_negative row
           /\ (1 - tolerance n <= exact_sum row)%Q
           /\ (exact_sum row <= 1 + tolerance n)%Q).
Proof.
  cbv zeta. intros Hsum Hnorm [Hlen Hrows] Hrange Hn Hi.
  unfold ConfusionMatrix.value32. rewrite Hnorm.
  eexists. split; [reflexivity|].
  split; [unfold ConfusionMatrix.normalize32; rewrite length_map; exact Hlen|].
  rewrite nth_normalize32 by lia.
  assert (Hin : In (nth i (ConfusionMatrix.conf cm) [])
                   (ConfusionMatrix.conf cm))
    by (apply nth_In; lia).
  rewrite Forall_forall in Hrows, Hrange.
  specialize (Hrows _ Hin). specialize (Hrange _ Hin).
  set (counts := nth i (ConfusionMatrix.conf cm) []) in *.
  split; [rewrite map_map; reflexivity|].
  destruct (@normalized_row counts (sum (map Binary32.of_Z counts))
              (Hsum _) Hrange ltac:(lia)) as [Hzero Hone].
  rewrite Hrows in Hzero, Hone. split; assumption.
Qed.

Lemma normalized_rows_sum_to_one_witness :
  exists out,
    ConfusionMatrix.value32
      Binary32.sum
      (ConfusionMatrix.mk 3 true [[1667; 1711; 1622]; [0; 0; 0]; [2; 1; 0]]%Z)
    = ConfusionMatrix.Normalized out
    /\ length out = 3
    /\ let counts := [1667; 1711; 1622]%Z in
       let row := nth 0 out [] in
       row = map (fun c =>
                    Binary32.div
                      (Binary32.of_Z c)
                      (Binary32.clip_min
                         Binary32.epsilon
                         (Binary32.sum (map Binary32.of_Z counts))))
                 counts
       /\ (Forall (fun c => c = 0%Z) counts ->
           row = repeat (S754_zero false) 3)
       /\ (Exists (fun c => c <> 0%Z) counts ->
           Forall finite_non_negative row
           /\ (1 - tolerance 3 <= exact_sum row)%Q
           /\ (exact_sum row <= 1 + tolerance 3)%Q).
Proof.
  apply (@normalized_rows_sum_to_one
           Binary32.sum
           (ConfusionMatrix.mk 3 true
              [[1667; 1711; 1622]; [0; 0; 0]; [2; 1; 0]]%Z) 0).
  - exact sum_left_to_right.
  - reflexivity.
  - split; [reflexivity|]. repeat constructor.
  - repeat constructor; cbv beta; lia.
  - cbn. lia.
  - cbn. lia.
Defined.

(* ================================================================= *)
(** * The state invariant *)

Lemma matrix_add_tabulate (n : nat) (f g : nat -> nat -> Z) :
  matrix_add (tabulate n f) (tabulate n g)
  = tabulate n (fun i j => Int32.add (f i j) (g i j)).
Proof.
  unfold matrix_add, tabulate. rewrite map2_map_seq.
  apply map_ext. intros i. apply map2_map_seq.
Qed.

Lemma init_wf (n : nat) (b : bool) :
  ConfusionMatrix.wf (ConfusionMatrix.init n b).
Proof.
  unfold ConfusionMatrix.wf, ConfusionMatrix.init, ConfusionMatrix.reset,
    ConfusionMatrix.set_conf.
  cbn [ConfusionMatrix.num_classes ConfusionMatrix.conf].
  rewrite <- counts_nil. split; [apply counts_square|].
  unfold counts. apply Forall_map_seq. intros i _.
  apply Forall_map_seq. intros j _. reflexivity.
Qed.

Lemma reset_wf (cm : ConfusionMatrix.t) :
  ConfusionMatrix.wf (ConfusionMatrix.reset cm).
Proof.
  destruct cm as [n b conf].
  exact (init_wf n b).
Qed.

Lemma increment_square (n : nat) (pred target : ndarray Z) (inc : matrix) :
  increment n pred target = Ok inc -> square n inc.
Proof.
  unfold increment.
  destruct (np_where _) as [vi|e]; cbn [bind]; [|discriminate].
  destruct (take_flat pred vi) as [p|e]; cbn [bind]; [|discriminate].
  destruct (take_flat target vi) as [t|e]; cbn [bind]; [|discriminate].
  destruct (vstack_T t p) as [r|e]; cbn [bind]; [|discriminate].
  unfold histogramdd. destruct (n <? 1); cbn [bind]; [discriminate|].
  intros H. injection H as <-. apply astype_int32_square, counts_square.
Qed.

(** Counts are not negative: below the wrap-around bound the states
    reached from a fresh matrix hold such counts ([add_all_counts]). *)
Lemma counts_non_negative (n : nat) (l : list (Z * Z)) :
  non_negative (counts n l).
Proof.
  unfold non_negative, counts. apply Forall_map_seq. intros i _.
  apply Forall_map_seq. intros j _. apply count_bounds.
Qed.

(** Every [add] that returns keeps the number of classes and leaves an
    [n] x [n] matrix of [int32] cells. *)
Lemma add_wf (cm cm' : ConfusionMatrix.t) (pred target : ndarray Z) :
  ConfusionMatrix.wf cm ->
  ConfusionMatrix.add cm pred target = Ok cm' ->
  ConfusionMatrix.wf cm'
  /\ ConfusionMatrix.num_classes cm' = ConfusionMatrix.num_classes cm.
Proof.
  intros [Hsq _]. rewrite add_increment.
  destruct (increment _ pred target) as [inc|e] eqn:Hinc; cbn [bind];
    [|discriminate].
  intros H. injection H as <-. split; [|reflexivity].
  apply increment_square in Hinc.
  unfold ConfusionMatrix.wf, ConfusionMatrix.set_conf.
  cbn [ConfusionMatrix.num_classes ConfusionMatrix.conf].
  rewrite (square_tabulate Hsq), (square_tabulate Hinc), matrix_add_tabulate.
  split; [apply tabulate_square|].
  unfold tabulate. apply Forall_map_seq. intros i _.
  apply Forall_map_seq. intros j _. apply wrap_range.
Qed.

(* ================================================================= *)
(** * An [ignore_indices] that cannot index the matrix *)

(** What the constructor lets through surfaces in the query: a tuple
    holding a string, or an index outside the matrix, makes
    [DiceCoefficient.value] raise [IndexError]. *)
Lemma value_raises_on_unusable_ignore :
  DiceCoefficient.value
    (ConfusionMatrixBasedMetric.mk (ConfusionMatrix.init 3 false) false
       (Some [PyStr "a"]))
  = Raise IndexError
  /\ DiceCoefficient.value
       (ConfusionMatrixBasedMetric.mk (ConfusionMatrix.init 3 false) false
          (Some [PyInt 5]))
     = Raise IndexError.
Proof. split; reflexivity. Qed.

(* ================================================================= *)
(** * The outputs recorded in the notebook *)

(** On the printed counts the model returns the printed Dice values:
    [mdice: 0.2379727729935648],
    [dice: [0.47558773 0.0892497 0.14908088]]. *)
Lemma notebook_dice :
  exists mdice d0 d1 d2 self',
    DiceCoefficient.value
      (ConfusionMatrixBasedMetric.mk
         (ConfusionMatrix.mk 3 false notebook_counts) true None)
    = Ok ((mdice, [d0; d1; d2]), self')
    /\ within 0.23797277299 0.23797277300 mdice = true
    /\ within 0.475587725 0.475587735 d0 = true
    /\ within 0.089249695 0.089249705 d1 = true
    /\ within 0.149080875 0.149080885 d2 = true.
Proof.
  do 5 eexists. split; [reflexivity|]. repeat split; vm_compute; reflexivity.
Qed.

(** With class 0 ignored: [mdice: 0.4838796700573852],
    [dice: [nan 0.40573578 0.56202356]]. *)
Lemma notebook_dice_ignoring_class_0 :
  exists mdice d1 d2 self',
    DiceCoefficient.value
      (ConfusionMatrixBasedMetric.mk
         (ConfusionMatrix.mk 3 false notebook_counts) true (Some [PyInt 0]))
    = Ok ((mdice, [NaN; d1; d2]), self')
    /\ within 0.48387967005 0.48387967006 mdice = true
    /\ within 0.405735775 0.405735785 d1 = true
    /\ within 0.562023555 0.562023565 d2 = true.
Proof.
  do 4 eexists. split; [reflexivity|]. repeat split; vm_compute; reflexivity.
Qed.

(** The normalized matrix printed in the notebook:
    [[0.33016214, 0.33426282, 0.33557504],
     [0.328, 0.3452, 0.3268], [0.3334, 0.3422, 0.3244]].  The first row is
    printed from [float32] values, which agree with the exact quotients
    to seven digits. *)
Lemma notebook_normalized :
  match ConfusionMatrix.value (ConfusionMatrix.mk 3 true notebook_counts) with
  | ConfusionMatrix.Fresh [[a; b; c]; [d; e; f]; [g; h; i]] =>
      within 0.33016209 0.33016219 a
      && within 0.33426277 0.33426287 b
      && within 0.33557499 0.33557509 c
      && within 0.328 0.328 d && within 0.3452 0.3452 e
      && within 0.3268 0.3268 f
      && within 0.3334 0.3334 g && within 0.3422 0.3422 h
      && within 0.3244 0.3244 i
  | _ => false
  end = true.
Proof. vm_compute. reflexivity. Qed.

(** In binary32 the normalized matrix of these counts is, entry by
    entry, the [float32] the notebook prints; the entries of its third
    row add up to a little more than 1. *)
Lemma notebook_normalized32 :
  match ConfusionMatrix.normalize32 Binary32.sum notebook_counts with
  | [[a; b; c]; [d; e; f]; [g; h; i]] =>
      nearest_float32 0.33016214 a
      && nearest_float32 0.33426282 b
      && nearest_float32 0.33557504 c
      && nearest_float32 0.328 d && nearest_float32 0.3452 e
      && nearest_float32 0.3268 f
      && nearest_float32 0.3334 g && nearest_float32 0.3422 h
      && nearest_float32 0.3244 i
      && negb (Qle_bool (exact_sum [g; h; i]) 1)
  | _ => false
  end = true.
Proof. vm_compute. reflexivity. Qed.

(* ================================================================= *)
(** * Further properties of the accumulate / query cycle *)

(** ** Rows, columns and the Dice formula *)

Lemma fresh_add_all (n : nat) (b : bool) (batches : list batch) :
  1 <= n ->
  Forall (fun x => same_shaped (fst x) (snd x)) batches ->
  (total_size batches < 2 ^ 31)%Z ->
  ConfusionMatrix.add_all (ConfusionMatrix.init n b) batches
  = Ok (ConfusionMatrix.mk n b (counts n (all_valid_pairs n batches))).
Proof.
  intros Hn Hall Hsize.
  unfold ConfusionMatrix.init, ConfusionMatrix.reset, ConfusionMatrix.set_conf.
  cbn [ConfusionMatrix.num_classes ConfusionMatrix.normalized].
  rewrite <- counts_nil.
  rewrite (add_all_counts b Hn Hall []) by (simpl length; lia).
  reflexivity.
Qed.

Lemma sum_ind_and_r {A} (a : bool) (f : A -> bool) (l : list A) :
  sum_list (map (fun x => ind (f x && a)) l)
  = if a then sum_list (map (fun x => ind (f x)) l) else 0%Z.
Proof.
  rewrite <- sum_ind_and. apply sum_list_ext. intros x _.
  rewrite andb_comm. reflexivity.
Qed.

Lemma sum_counts_over {A} (f : nat -> A -> bool) (g : A -> bool)
      (js : list nat) (l : list A) :
  (forall x, In x l ->
     sum_list (map (fun j => ind (f j x)) js) = ind (g x)) ->
  sum_list (map (fun j => count (f j) l) js) = count g l.
Proof.
  induction l as [|x l IH]; intros H.
  - rewrite count_nil. rewrite (sum_list_ext _ (fun _ => 0%Z)).
    + apply sum_list_map_zero.
    + intros j _. apply count_nil.
  - rewrite count_cons.
    rewrite <- IH by (intros y Hy; apply H; right; exact Hy).
    rewrite <- (H x (or_introl eq_refl)).
    rewrite <- sum_list_map_add. apply sum_list_ext. intros j _.
    apply count_cons.
Qed.

Lemma row_sum_counts (n : nat) (l : list (Z * Z)) (i : nat) :
  1 <= n -> i < n ->
  row_sum (counts n l) i
  = count (fun s => (bin_number n (fst s) =? S i)
                    && between_edges n (snd s)) l.
Proof.
  intros Hn Hi. unfold row_sum, counts.
  rewrite (nth_map_seq (fun i => map (fun j => count (in_cell n i j) l)
                                     (seq 0 n)) 0 [] Hi).
  cbn [plus]. apply sum_counts_over. intros x _. unfold in_cell.
  rewrite sum_ind_and, sum_ind_bin, bin_number_core by exact Hn.
  destruct (bin_number n (fst x) =? S i); reflexivity.
Qed.

Lemma column_sum_counts (n : nat) (l : list (Z * Z)) (j : nat) :
  1 <= n -> j < n ->
  column_sum (counts n l) j
  = count (fun s => between_edges n (fst s)
                    && (bin_number n (snd s) =? S j)) l.
Proof.
  intros Hn Hj. unfold column_sum.
  change (counts n l) with (tabulate n (fun i j => count (in_cell n i j) l)).
  rewrite column_tabulate by exact Hj.
  apply sum_counts_over. intros x _. unfold in_cell.
  rewrite sum_ind_and_r, sum_ind_bin, bin_number_core by exact Hn.
  destruct (bin_number n (snd x) =? S j);
    [rewrite andb_true_r | rewrite andb_false_r]; reflexivity.
Qed.

Lemma valid_label_bin (n i : nat) (v : Z) :
  i < n -> ConfusionMatrix.valid_label n v = true ->
  (bin_number n v =? S i) = (v =? Z.of_nat i)%Z.
Proof.
  intros Hi Hv. rewrite bin_number_counted_in by exact Hi.
  unfold counted_in, ConfusionMatrix.valid_label in *.
  apply andb_prop in Hv. destruct Hv as [_ Hv]. apply Z.ltb_lt in Hv.
  destruct (Z.eqb_spec v (Z.of_nat n)); [lia|]. apply orb_false_r.
Qed.

(** X1.  After any sequence of [add] calls on a fresh matrix (arrays of
    one shape, at least one class, fewer than 2^31 elements in all), row
    [i] of the counts sums to the number of pixels whose target label is
    [i] and whose predicted label lies in [[0, num_classes]]: the size of
    class [i] in the ground truth, as far as it was counted. *)
Theorem row_sums_count_target_labels
        (n : nat) (normalized : bool) (batches : list batch) (i : nat) :
  1 <= n ->
  Forall (fun x => same_shaped (fst x) (snd x)) batches ->
  (total_size batches < 2 ^ 31)%Z ->
  i < n ->
  exists cm,
    ConfusionMatrix.add_all (ConfusionMatrix.init n normalized) batches = Ok cm
    /\ row_sum (ConfusionMatrix.conf cm) i
       = count (fun s => with_target i s && between_edges n (snd s))
               (all_valid_pairs n batches).
Proof.
  intros Hn Hall Hsize Hi. rewrite fresh_add_all by assumption.
  eexists. split; [reflexivity|]. cbn [ConfusionMatrix.conf].
  rewrite row_sum_counts by assumption.
  apply count_ext. intros s Hs. unfold with_target.
  rewrite valid_label_bin;
    [reflexivity | exact Hi | eapply all_valid_pairs_label; exact Hs].
Qed.

Lemma row_sums_count_target_labels_witness :
  exists cm,
    ConfusionMatrix.add_all (ConfusionMatrix.init 3 false)
      [(vector [0; 1; 2; 0; 3; 7; -1]%Z, vector [0; 1; 1; 2; 2; 2; 5]%Z)]
    = Ok cm
    /\ row_sum (ConfusionMatrix.conf cm) 2
       = count (fun s => with_target 2 s && between_edges 3 (snd s))
               (all_valid_pairs 3
                  [(vector [0; 1; 2; 0; 3; 7; -1]%Z,
                    vector [0; 1; 1; 2; 2; 2; 5]%Z)]).
Proof.
  apply (@row_sums_count_target_labels 3 false
           [(vector [0; 1; 2; 0; 3; 7; -1]%Z,
             vector [0; 1; 1; 2; 2; 2; 5]%Z)] 2).
  - lia.
  - constructor; [|constructor].
    repeat split; try reflexivity; discriminate.
  - reflexivity.
  - lia.
Defined.

(** X2.  Under the same conditions column [j] of the counts sums to the
    number of pixels with a target label in [[0, num_classes)] that are
    counted as predicted [j]: predicted label [j], or, for the last
    column, also the label [num_classes]. *)
Theorem column_sums_count_predicted_labels
        (n : nat) (normalized : bool) (batches : list batch) (j : nat) :
  1 <= n ->
  Forall (fun x => same_shaped (fst x) (snd x)) batches ->
  (total_size batches < 2 ^ 31)%Z ->
  j < n ->
  exists cm,
    ConfusionMatrix.add_all (ConfusionMatrix.init n normalized) batches = Ok cm
    /\ column_sum (ConfusionMatrix.conf cm) j
       = count (fun s => counted_in n j (snd s)) (all_valid_pairs n batches).
Proof.
  intros Hn Hall Hsize Hj. rewrite fresh_add_all by assumption.
  eexists. split; [reflexivity|]. cbn [ConfusionMatrix.conf].
  rewrite column_sum_counts by assumption.
  apply count_ext. intros s Hs.
  rewrite bin_number_counted_in by exact Hj.
  rewrite (valid_label_between n (fst s)); [reflexivity|].
  eapply all_valid_pairs_label. exact Hs.
Qed.

Lemma column_sums_count_predicted_labels_witness :
  exists cm,
    ConfusionMatrix.add_all (ConfusionMatrix.init 3 false)
      [(vector [0; 1; 2; 0; 3; 7; -1]%Z, vector [0; 1; 1; 2; 2; 2; 5]%Z)]
    = Ok cm
    /\ column_sum (ConfusionMatrix.conf cm) 2
       = count (fun s => counted_in 3 2 (snd s))
               (all_valid_pairs 3
                  [(vector [0; 1; 2; 0; 3; 7; -1]%Z,
                    vector [0; 1; 1; 2; 2; 2; 5]%Z)]).
Proof.
  apply (@column_sums_count_predicted_labels 3 false
           [(vector [0; 1; 2; 0; 3; 7; -1]%Z,
             vector [0; 1; 1; 2; 2; 2; 5]%Z)] 2).
  - lia.
  - constructor; [|constructor].
    repeat split; try reflexivity; discriminate.
  - reflexivity.
  - lia.
Defined.

Lemma int32_double_exact (x : Z) :
  (0 <= x < 2 ^ 30)%Z -> Int32.mul 2 x = (2 * x)%Z.
Proof.
  intros H. unfold Int32.mul. apply wrap_in_range.
  unfold Int32.in_range, Int32.min_int, Int32.max_int.
  apply andb_true_intro. split; apply Z.leb_le; lia.
Qed.


Lemma dice_value_of_counts (n : nat) (rp : bool) (m : matrix) :
  DiceCoefficient.value
    (ConfusionMatrixBasedMetric.mk (ConfusionMatrix.mk n false m) rp None)
  = Ok ((nanmean (DiceCoefficient.dice_int n m),
         DiceCoefficient.dice_int n m),
        ConfusionMatrixBasedMetric.mk (ConfusionMatrix.mk n false m) rp None).
Proof. reflexivity. Qed.

Lemma dice_int_sums (n : nat) (f : nat -> nat -> Z) :
  DiceCoefficient.dice_int n (tabulate n f)
  = map (fun c =>
           Float.div
             (Float.of_Z (Int32.mul 2 (f c c)))
             (Float.of_Z (Int32.mul 2 (f c c) - 2 * f c c
                          + column_sum (tabulate n f) c
                          + row_sum (tabulate n f) c)))
        (seq 0 n).
Proof.
  rewrite dice_int_tabulate. apply map_ext_in. intros c Hc.
  apply in_seq in Hc.
  unfold true_positive, false_positive, false_negative, column_sum, row_sum.
  rewrite cell_tabulate by lia. do 2 f_equal. lia.
Qed.



(** The quotient of 4 by 6, a Dice value of the run above, is the
    binary64 number 0.6666666666666666 = 6004799503160661 / 2^53. *)
Lemma overlap_ratio_rounds :
  overlap_ratio 1 [(1, 1); (1, 1); (1, 2); (0, 1)]%Z
  = S754_finite false 6004799503160661 (-53).
Proof. vm_compute. reflexivity. Qed.


Lemma count_map {A B} (f : B -> bool) (g : A -> B) (l : list A) :
  count f (map g l) = count (fun x => f (g x)) l.
Proof.
  induction l as [|x l IH]; [reflexivity|].
  cbn [map]. rewrite !count_cons, IH. reflexivity.
Qed.

Lemma filter_all {A} (f : A -> bool) (l : list A) :
  Forall (fun x => f x = true) l -> filter f l = l.
Proof.
  induction 1 as [|x l Hx _ IH]; [reflexivity|].
  cbn [filter]. rewrite Hx, IH. reflexivity.
Qed.

Lemma combine_swap {A B} (l : list A) (l' : list B) :
  combine l' l = map (fun s => (snd s, fst s)) (combine l l').
Proof.
  revert l'. induction l as [|x l IH]; intros [|y l']; try reflexivity.
  cbn [combine map fst snd]. rewrite IH. reflexivity.
Qed.

Lemma Forall_combine_fst {A B} (P : A -> Prop) (l : list A) (l' : list B) :
  Forall P l -> Forall (fun s => P (fst s)) (combine l l').
Proof.
  intros H. revert l'. induction H as [|x l Hx _ IH]; intros [|y l'];
    cbn [combine]; constructor; [exact Hx | apply IH].
Qed.

Lemma valid_pairs_all (n : nat) (pred target : ndarray Z) :
  labels_in_range n target ->
  valid_pairs n pred target = combine (data target) (data pred).
Proof.
  intros H. unfold valid_pairs. apply filter_all.
  apply (@Forall_combine_fst _ _
           (fun v => ConfusionMatrix.valid_label n v = true) _ _ H).
Qed.

Lemma all_valid_pairs_swapped (n : nat) (batches : list batch) :
  Forall (fun x => labels_in_range n (fst x) /\ labels_in_range n (snd x))
         batches ->
  all_valid_pairs n (swapped batches)
  = map swap_pair (all_valid_pairs n batches).
Proof.
  induction 1 as [|[pred target] rest [Hp Ht] _ IH]; [reflexivity|].
  cbn [swapped map all_valid_pairs fst snd] in *.
  rewrite map_app. fold (swapped rest). rewrite IH. f_equal.
  rewrite !valid_pairs_all by assumption. apply combine_swap.
Qed.

Lemma counts_swap (n : nat) (l : list (Z * Z)) :
  counts n (map swap_pair l)
  = tabulate n (fun i j => count (in_cell n j i) l).
Proof.
  unfold counts. apply tabulate_ext. intros i j _ _. rewrite count_map.
  apply count_ext. intros s _. unfold in_cell, swap_pair. cbn [fst snd].
  apply andb_comm.
Qed.

Lemma dice_int_transpose (n : nat) (f : nat -> nat -> Z) :
  DiceCoefficient.dice_int n (tabulate n (fun i j => f j i))
  = DiceCoefficient.dice_int n (tabulate n f).
Proof.
  rewrite !dice_int_sums. apply map_ext_in. intros c Hc. apply in_seq in Hc.
  unfold column_sum, row_sum.
  rewrite !column_tabulate, !tabulate_row by lia.
  do 2 f_equal.
  set (a := sum_list (map (fun i => f c i) (seq 0 n))).
  set (b := sum_list (map (fun i => f i c) (seq 0 n))).
  change (map (f c) (seq 0 n)) with (map (fun i => f c i) (seq 0 n)).
  fold a. lia.
Qed.

Lemma total_size_swapped (batches : list batch) :
  Forall (fun x => same_shaped (fst x) (snd x)) batches ->
  total_size (swapped batches) = total_size batches.
Proof.
  induction 1 as [|[pred target] rest (Hp & Ht & Hs & _) _ IH];
    [reflexivity|].
  cbn [swapped map total_size fst snd] in *. fold (swapped rest).
  rewrite IH. unfold wf_array in *. rewrite Hp, Ht, Hs. reflexivity.
Qed.

Lemma same_shaped_swapped (batches : list batch) :
  Forall (fun x => same_shaped (fst x) (snd x)) batches ->
  Forall (fun x => same_shaped (fst x) (snd x)) (swapped batches).
Proof.
  induction 1 as [|[pred target] rest (Hp & Ht & Hs & Hne) _ IH];
    [constructor|].
  cbn [swapped map fst snd] in *. constructor; [|exact IH].
  cbn [fst snd]. repeat split; try assumption.
  - symmetry. exact Hs.
  - rewrite Hs. exact Hne.
Qed.

(** X4.  Exchanging the roles of prediction and target (all labels
    being classes) transposes the counts and leaves the Dice values and
    their mean unchanged. *)
Theorem dice_is_symmetric
        (n : nat) (reduced_probs : bool) (batches : list batch) :
  1 <= n ->
  Forall (fun x => same_shaped (fst x) (snd x)) batches ->
  Forall (fun x => labels_in_range n (fst x) /\ labels_in_range n (snd x))
         batches ->
  (total_size batches < 2 ^ 31)%Z ->
  exists cm cm' r,
    ConfusionMatrix.add_all (ConfusionMatrix.init n false) batches = Ok cm
    /\ ConfusionMatrix.add_all (ConfusionMatrix.init n false)
         (swapped batches) = Ok cm'
    /\ (forall i j, i < n -> j < n ->
          cell (ConfusionMatrix.conf cm') i j
          = cell (ConfusionMatrix.conf cm) j i)
    /\ DiceCoefficient.value
         (ConfusionMatrixBasedMetric.mk cm reduced_probs None)
       = Ok (r, ConfusionMatrixBasedMetric.mk cm reduced_probs None)
    /\ DiceCoefficient.value
         (ConfusionMatrixBasedMetric.mk cm' reduced_probs None)
       = Ok (r, ConfusionMatrixBasedMetric.mk cm' reduced_probs None).
Proof.
  intros Hn Hall Hlab Hsize.
  rewrite !fresh_add_all
    by (try assumption; try apply same_shaped_swapped;
        try rewrite total_size_swapped; assumption).
  rewrite all_valid_pairs_swapped by exact Hlab.
  set (L := all_valid_pairs n batches).
  do 3 eexists. split; [reflexivity|]. split; [reflexivity|].
  cbn [ConfusionMatrix.conf]. rewrite counts_swap. split; [|split].
  - intros i j Hi Hj. rewrite cell_tabulate, cell_counts by assumption.
    reflexivity.
  - apply dice_value_of_counts.
  - rewrite dice_value_of_counts, dice_int_transpose. reflexivity.
Qed.

Lemma dice_is_symmetric_witness :
  exists cm cm' r,
    ConfusionMatrix.add_all (ConfusionMatrix.init 3 false)
      [(vector [0; 1; 1; 2]%Z, vector [0; 1; 2; 2]%Z)] = Ok cm
    /\ ConfusionMatrix.add_all (ConfusionMatrix.init 3 false)
         (swapped [(vector [0; 1; 1; 2]%Z, vector [0; 1; 2; 2]%Z)]) = Ok cm'
    /\ (forall i j, i < 3 -> j < 3 ->
          cell (ConfusionMatrix.conf cm') i j
          = cell (ConfusionMatrix.conf cm) j i)
    /\ DiceCoefficient.value (ConfusionMatrixBasedMetric.mk cm true None)
       = Ok (r, ConfusionMatrixBasedMetric.mk cm true None)
    /\ DiceCoefficient.value (ConfusionMatrixBasedMetric.mk cm' true None)
       = Ok (r, ConfusionMatrixBasedMetric.mk cm' true None).
Proof.
  apply (@dice_is_symmetric 3 true
           [(vector [0; 1; 1; 2]%Z, vector [0; 1; 2; 2]%Z)]).
  - lia.
  - constructor; [|constructor].
    repeat split; try reflexivity; discriminate.
  - constructor; [|constructor]. split; repeat constructor.
  - reflexivity.
Defined.

(** ** The range of the Dice values *)

Lemma within_iff (lo hi : Q) (q : Qc) :
  within lo hi (Fin q) = true <-> (lo <= q)%Q /\ (q <= hi)%Q.
Proof.
  unfold within. rewrite andb_true_iff, !Qle_bool_iff. reflexivity.
Qed.

Lemma this_div_of_Z (a b : Z) :
  (this (Qcdiv (Q2Qc (inject_Z a)) (Q2Qc (inject_Z b)))
   == inject_Z a / inject_Z b)%Q.
Proof.
  unfold Qcdiv, Qcmult, Qcinv. cbn [this Q2Qc].
  rewrite !Qred_correct. reflexivity.
Qed.

Lemma float_div_of_Z (a b : Z) :
  b <> 0%Z ->
  Float.div (Float.of_Z a) (Float.of_Z b)
  = Fin (Qcdiv (Q2Qc (inject_Z a)) (Q2Qc (inject_Z b))).
Proof.
  intros Hb. unfold Float.div, Float.of_Z.
  rewrite (proj2 (is_zero_false (Q2Qc (inject_Z b))))
    by (rewrite of_Z_inj_zero; exact Hb).
  reflexivity.
Qed.

Lemma of_Z_inj (a b : Z) : Float.of_Z a = Float.of_Z b -> a = b.
Proof.
  unfold Float.of_Z. intros H.
  assert (E : Q2Qc (inject_Z a) = Q2Qc (inject_Z b)) by congruence.
  apply Q2Qc_eq_iff in E. unfold Qeq, inject_Z in E. cbn [Qnum Qden] in E.
  lia.
Qed.

Lemma div_of_Z_in_unit (a b : Z) :
  (0 <= a <= b)%Z -> in_unit_interval (Float.div (Float.of_Z a) (Float.of_Z b)).
Proof.
  intros H. destruct (Z.eq_dec b 0) as [->|Hb].
  - assert (a = 0%Z) as -> by lia. left. reflexivity.
  - right. rewrite float_div_of_Z by exact Hb.
    apply within_iff. rewrite this_div_of_Z.
    assert (Hpos : (0 < inject_Z b)%Q).
    { change (inject_Z 0 < inject_Z b)%Q. rewrite <- Zlt_Qlt. lia. }
    split.
    + apply Qle_shift_div_l; [exact Hpos|].
      rewrite Qmult_0_l. change (inject_Z 0 <= inject_Z a)%Q.
      rewrite <- Zle_Qle. lia.
    + apply Qle_shift_div_r; [exact Hpos|].
      rewrite Qmult_1_l. rewrite <- Zle_Qle. lia.
Qed.

Lemma div_of_Z_nan (a b : Z) :
  (0 <= a <= b)%Z ->
  Float.div (Float.of_Z a) (Float.of_Z b) = NaN <-> b = 0%Z.
Proof.
  intros H. split.
  - intros E. destruct (Z.eq_dec b 0) as [|Hb]; [assumption|].
    rewrite float_div_of_Z in E by exact Hb. discriminate E.
  - intros ->. assert (a = 0%Z) as -> by lia. reflexivity.
Qed.

Lemma div_of_Z_one (a b : Z) :
  Float.div (Float.of_Z a) (Float.of_Z b) = Float.one
  <-> a = b /\ b <> 0%Z.
Proof.
  split.
  - intros E. destruct (Z.eq_dec b 0) as [->|Hb].
    + exfalso. unfold Float.div, Float.of_Z in E.
      rewrite (proj2 (is_zero_true (Q2Qc (inject_Z 0)))) in E by reflexivity.
      destruct (Float.is_zero (Q2Qc (inject_Z a))); discriminate E.
    + split; [|exact Hb]. rewrite float_div_of_Z in E by exact Hb.
      unfold Float.one, Float.of_Z in E.
      assert (E' : Qcdiv (Q2Qc (inject_Z a)) (Q2Qc (inject_Z b))
                   = Q2Qc (inject_Z 1)) by congruence.
      assert (Hq : Q2Qc (inject_Z b) <> Q2Qc 0)
        by (rewrite of_Z_inj_zero; exact Hb).
      pose proof (Qcmult_div_r (Q2Qc (inject_Z a)) (Q2Qc (inject_Z b)) Hq)
        as Hm.
      rewrite E' in Hm. change (Q2Qc (inject_Z 1)) with 1%Qc in Hm.
      rewrite Qcmult_1_r in Hm.
      apply of_Z_inj. unfold Float.of_Z. f_equal. symmetry. exact Hm.
  - intros [-> Hb]. apply float_div_of_Z_self. exact Hb.
Qed.

Lemma div_of_Z_zero (a b : Z) :
  Float.div (Float.of_Z a) (Float.of_Z b) = Float.zero
  <-> a = 0%Z /\ b <> 0%Z.
Proof.
  split.
  - intros E. destruct (Z.eq_dec b 0) as [->|Hb].
    + exfalso. unfold Float.div, Float.of_Z in E.
      rewrite (proj2 (is_zero_true (Q2Qc (inject_Z 0)))) in E by reflexivity.
      destruct (Float.is_zero (Q2Qc (inject_Z a))); discriminate E.
    + split; [|exact Hb]. rewrite float_div_of_Z in E by exact Hb.
      unfold Float.zero, Float.of_Z in E.
      assert (E' : Qcdiv (Q2Qc (inject_Z a)) (Q2Qc (inject_Z b))
                   = Q2Qc (inject_Z 0)) by congruence.
      assert (Hq : Q2Qc (inject_Z b) <> Q2Qc 0)
        by (rewrite of_Z_inj_zero; exact Hb).
      pose proof (Qcmult_div_r (Q2Qc (inject_Z a)) (Q2Qc (inject_Z b)) Hq)
        as Hm.
      rewrite E' in Hm. change (Q2Qc (inject_Z 0)) with 0%Qc in Hm.
      rewrite Qcmult_0_r in Hm.
      apply of_Z_inj. unfold Float.of_Z. f_equal. symmetry. exact Hm.
  - intros [-> Hb]. apply float_div_zero_l. rewrite of_Z_inj_zero. exact Hb.
Qed.

Lemma set_rows_nil {A} (z : A) (m : list (list A)) : set_rows z [] m = m.
Proof.
  unfold set_rows, mapi. generalize 0.
  induction m as [|row m IH]; intros s; [reflexivity|].
  cbn [mapi_from mem existsb]. rewrite IH. reflexivity.
Qed.

Lemma set_columns_nil {A} (z : A) (m : list (list A)) :
  set_columns z [] m = m.
Proof.
  unfold set_columns. rewrite <- (map_id m) at 2. apply map_ext.
  intros row. unfold mapi. generalize 0.
  induction row as [|x row IH]; intros s; [reflexivity|].
  cbn [mapi_from mem existsb]. rewrite IH. reflexivity.
Qed.

Lemma effective_counts_tabulate (self : ConfusionMatrixBasedMetric.t) (n : nat) :
  square n
    (ConfusionMatrix.conf (ConfusionMatrixBasedMetric.conf_matrix self)) ->
  effective_counts self
  = tabulate n
      (fun i j =>
         if mem i (ignored self) then 0%Z
         else if mem j (ignored self) then 0%Z
              else cell (ConfusionMatrix.conf
                           (ConfusionMatrixBasedMetric.conf_matrix self)) i j).
Proof.
  intros Hsq. unfold effective_counts.
  rewrite (square_tabulate Hsq) at 1.
  rewrite set_columns_tabulate, set_rows_tabulate. reflexivity.
Qed.

(** The result of [value] on unnormalized counts. *)
Lemma dice_value_int (self : ConfusionMatrixBasedMetric.t) :
  ConfusionMatrix.normalized (ConfusionMatrixBasedMetric.conf_matrix self)
  = false ->
  valid_ignore
    (ConfusionMatrix.num_classes (ConfusionMatrixBasedMetric.conf_matrix self))
    (ConfusionMatrixBasedMetric.ignore_indices self) ->
  let dice :=
    DiceCoefficient.dice_int
      (ConfusionMatrix.num_classes
         (ConfusionMatrixBasedMetric.conf_matrix self))
      (effective_counts self) in
  DiceCoefficient.value self
  = Ok ((nanmean (np_delete dice (ignored self)), dice),
        ConfusionMatrixBasedMetric.set_conf_matrix self
          (ConfusionMatrix.set_conf
             (ConfusionMatrixBasedMetric.conf_matrix self)
             (effective_counts self))).
Proof.
  destruct self as [[n b conf] rp ign].
  cbn [ConfusionMatrixBasedMetric.conf_matrix ConfusionMatrix.num_classes
       ConfusionMatrix.normalized ConfusionMatrixBasedMetric.ignore_indices].
  intros -> Hign. cbv zeta. rewrite value_cases. cbv zeta.
  unfold effective_counts, ignored.
  cbn [ConfusionMatrixBasedMetric.conf_matrix ConfusionMatrix.num_classes
       ConfusionMatrix.conf ConfusionMatrixBasedMetric.ignore_indices].
  destruct ign as [l|].
  - destruct (index_array_valid Hign) as [idx Hidx]. rewrite Hidx.
    reflexivity.
  - rewrite set_columns_nil, set_rows_nil, np_delete_nil. reflexivity.
Qed.

Lemma sum_list_member (f : nat -> Z) (n c : nat) :
  (forall i, i < n -> (0 <= f i)%Z) -> c < n ->
  (f c <= sum_list (map f (seq 0 n)))%Z.
Proof.
  intros Hf Hc.
  rewrite <- (sum_single f Hc) at 1.
  assert (H : forall l, (forall i, In i l -> (0 <= f i)%Z) ->
                (sum_list (map (fun i => if (i =? c)%nat then f i else 0%Z) l)
                 <= sum_list (map f l))%Z).
  { induction l as [|i l IH]; intros Hl; [simpl; lia|].
    specialize (IH (fun i Hi => Hl i (or_intror Hi))).
    specialize (Hl i (or_introl eq_refl)).
    cbn [map]. unfold sum_list in *. cbn [fold_right].
    destruct (i =? c); lia. }
  apply H. intros i Hi. apply in_seq in Hi. apply Hf. lia.
Qed.

(** The entry of a class in the Dice vector of a matrix of non-negative
    cells whose diagonal stays below 2^30. *)
Lemma dice_int_entry (n : nat) (e : nat -> nat -> Z) (c : nat) :
  (forall i j, i < n -> j < n -> (0 <= e i j)%Z) ->
  (e c c < 2 ^ 30)%Z ->
  c < n ->
  let tp := true_positive (tabulate n e) c in
  let fp := false_positive (tabulate n e) c in
  let fn := false_negative (tabulate n e) c in
  nth_error (DiceCoefficient.dice_int n (tabulate n e)) c
  = Some (Float.div (Float.of_Z (2 * tp)) (Float.of_Z (2 * tp + fp + fn)))
  /\ (0 <= tp)%Z /\ (0 <= fp)%Z /\ (0 <= fn)%Z.
Proof.
  intros He Hd Hc. cbv zeta.
  unfold true_positive, false_positive, false_negative.
  rewrite dice_int_tabulate, nth_error_map_seq by exact Hc.
  cbn [plus]. unfold true_positive, false_positive, false_negative.
  rewrite column_tabulate, tabulate_row, cell_tabulate by exact Hc.
  pose proof (He c c Hc Hc) as H0.
  rewrite int32_double_exact by lia.
  split; [reflexivity|]. split; [exact H0|].
  pose proof (@sum_list_member (fun i => e i c) n c
                (fun i Hi => He i c Hi Hc) Hc) as H1.
  pose proof (@sum_list_member (e c) n c (fun j Hj => He c j Hc Hj) Hc) as H2.
  cbv beta in H1. lia.
Qed.

Lemma np_delete_Forall {A} (P : A -> Prop) (a : list A) (idx : list nat) :
  Forall P a -> Forall P (np_delete a idx).
Proof.
  intros H. unfold np_delete. rewrite Forall_forall in *.
  intros x Hx. apply in_map_iff in Hx. destruct Hx as ([i y] & <- & Hin).
  apply filter_In in Hin. destruct Hin as [Hin _].
  apply in_combine_r in Hin. apply H. exact Hin.
Qed.

Lemma float_sum_unit (l : list np_float) :
  Forall (fun x => exists q, x = Fin q /\ (0 <= q)%Q /\ (q <= 1)%Q) l ->
  exists s, Float.sum l = Fin s
            /\ (0 <= s)%Q /\ (s <= inject_Z (Z.of_nat (length l)))%Q.
Proof.
  induction 1 as [|x l (q & -> & Hq0 & Hq1) _ (s & Hs & Hs0 & Hs1)].
  - exists (Q2Qc 0). repeat split; cbn; discriminate.
  - cbn [Float.sum fold_right].
    change (fold_right Float.add Float.zero l) with (Float.sum l).
    rewrite Hs. cbn [Float.add]. eexists. split; [reflexivity|].
    unfold Qcplus. cbn [this Q2Qc]. rewrite Qred_correct.
    cbn [length]. rewrite Nat2Z.inj_succ, <- Z.add_1_l, inject_Z_plus.
    split.
    + change 0%Q with (0 + 0)%Q. apply Qplus_le_compat; assumption.
    + apply Qplus_le_compat; assumption.
Qed.

Lemma mean_in_unit (l : list np_float) :
  Forall (fun x => exists q, x = Fin q /\ (0 <= q)%Q /\ (q <= 1)%Q) l ->
  in_unit_interval (mean l).
Proof.
  intros H. destruct (float_sum_unit H) as (s & Hs & Hs0 & Hs1).
  unfold mean. rewrite Hs. destruct l as [|x l].
  - left. cbn in Hs. injection Hs as <-. reflexivity.
  - right. set (k := Z.of_nat (length (x :: l))) in *.
    assert (Hk : (0 < k)%Z) by (subst k; cbn [length]; lia).
    unfold Float.div, Float.of_Z.
    rewrite (proj2 (is_zero_false (Q2Qc (inject_Z k))))
      by (rewrite of_Z_inj_zero; lia).
    apply within_iff. unfold Qcdiv, Qcmult, Qcinv. cbn [this Q2Qc].
    rewrite !Qred_correct.
    assert (Hpos : (0 < inject_Z k)%Q).
    { change (inject_Z 0 < inject_Z k)%Q. rewrite <- Zlt_Qlt. exact Hk. }
    split.
    + apply Qle_shift_div_l; [exact Hpos|]. rewrite Qmult_0_l. exact Hs0.
    + apply Qle_shift_div_r; [exact Hpos|]. rewrite Qmult_1_l. exact Hs1.
Qed.

Lemma nanmean_in_unit (l : list np_float) :
  Forall in_unit_interval l -> in_unit_interval (nanmean l).
Proof.
  intros H. rewrite nanmean_is_mean_of_defined. apply mean_in_unit.
  rewrite Forall_forall in *. intros x Hx. apply filter_In in Hx.
  destruct Hx as [Hx Hd]. destruct (H x Hx) as [->|Hw]; [discriminate Hd|].
  destruct x as [| |q]; try discriminate Hw.
  exists q. split; [reflexivity|]. apply within_iff. exact Hw.
Qed.

Lemma effective_counts_cells (self : ConfusionMatrixBasedMetric.t) (n : nat) :
  square n
    (ConfusionMatrix.conf (ConfusionMatrixBasedMetric.conf_matrix self)) ->
  non_negative
    (ConfusionMatrix.conf (ConfusionMatrixBasedMetric.conf_matrix self)) ->
  (forall c, c < n ->
     (cell (ConfusionMatrix.conf (ConfusionMatrixBasedMetric.conf_matrix self))
           c c < 2 ^ 30)%Z) ->
  exists e,
    effective_counts self = tabulate n e
    /\ (forall i j, i < n -> j < n -> (0 <= e i j)%Z)
    /\ (forall c, c < n -> (e c c < 2 ^ 30)%Z).
Proof.
  intros Hsq Hnn Hd. eexists. split; [apply effective_counts_tabulate, Hsq|].
  pose proof (non_negative_cells Hsq Hnn) as Hcells. split.
  - intros i j Hi Hj. cbv beta.
    destruct (mem i (ignored self)); [lia|].
    destruct (mem j (ignored self)); [lia|]. apply Hcells; assumption.
  - intros c Hc. cbv beta. specialize (Hd c Hc).
    destruct (mem c (ignored self)); lia.
Qed.

(** X5.  On unnormalized non-negative counts whose diagonal stays below
    2^30, every Dice value returned by [value] is not-a-number or lies in
    [[0, 1]], and so does the mean, whatever classes are ignored. *)
Theorem dice_lies_in_unit_interval
        (n : nat) (self : ConfusionMatrixBasedMetric.t) :
  ConfusionMatrix.num_classes (ConfusionMatrixBasedMetric.conf_matrix self)
  = n ->
  ConfusionMatrix.normalized (ConfusionMatrixBasedMetric.conf_matrix self)
  = false ->
  square n
    (ConfusionMatrix.conf (ConfusionMatrixBasedMetric.conf_matrix self)) ->
  non_negative
    (ConfusionMatrix.conf (ConfusionMatrixBasedMetric.conf_matrix self)) ->
  (forall c, c < n ->
     (cell (ConfusionMatrix.conf (ConfusionMatrixBasedMetric.conf_matrix self))
           c c < 2 ^ 30)%Z) ->
  valid_ignore n (ConfusionMatrixBasedMetric.ignore_indices self) ->
  exists mdice dice self',
    DiceCoefficient.value self = Ok ((mdice, dice), self')
    /\ Forall in_unit_interval dice
    /\ in_unit_interval mdice.
Proof.
  intros Hn Hnorm Hsq Hnn Hd Hign. subst n.
  rewrite (dice_value_int self Hnorm Hign).
  do 3 eexists. split; [reflexivity|].
  destruct (effective_counts_cells self Hsq Hnn Hd) as (e & -> & He & Hed).
  set (n := ConfusionMatrix.num_classes _) in *.
  assert (Hall : Forall in_unit_interval
                   (DiceCoefficient.dice_int n (tabulate n e))).
  { rewrite dice_int_tabulate. apply Forall_map_seq. intros c Hc.
    destruct (@dice_int_entry n e c He (Hed c Hc) Hc) as (_ & H0 & H1 & H2).
    unfold true_positive, false_positive, false_negative in *.
    rewrite int32_double_exact
      by (split; [exact H0 | rewrite cell_tabulate by exact Hc; apply Hed, Hc]).
    apply div_of_Z_in_unit. lia. }
  split; [exact Hall|]. apply nanmean_in_unit, np_delete_Forall, Hall.
Qed.

Lemma dice_lies_in_unit_interval_witness :
  exists mdice dice self',
    DiceCoefficient.value
      (ConfusionMatrixBasedMetric.mk
         (ConfusionMatrix.mk 3 false [[5; 1; 0]; [2; 3; 0]; [0; 0; 0]]%Z)
         true (Some [PyInt 0]))
    = Ok ((mdice, dice), self')
    /\ Forall in_unit_interval dice
    /\ in_unit_interval mdice.
Proof.
  apply (@dice_lies_in_unit_interval 3
           (ConfusionMatrixBasedMetric.mk
              (ConfusionMatrix.mk 3 false
                 [[5; 1; 0]; [2; 3; 0]; [0; 0; 0]]%Z)
              true (Some [PyInt 0]))).
  - reflexivity.
  - reflexivity.
  - split; [reflexivity|]. repeat constructor.
  - repeat constructor; discriminate.
  - intros c Hc. destruct c as [|[|[|c]]]; [reflexivity ..|lia].
  - constructor; [|constructor]. exists 0%Z. split; [reflexivity|lia].
Defined.

(** X6.  Under the same conditions the Dice value of a class is [1.0]
    exactly when the class has a true positive and neither a false
    positive nor a false negative, [0.0] exactly when it has no true
    positive but some false positive or negative, and not-a-number exactly
    when it has none of the three (the counts being read after the
    ignored rows and columns are zeroed). *)
Theorem dice_extremes
        (n : nat) (self : ConfusionMatrixBasedMetric.t) (c : nat) :
  ConfusionMatrix.num_classes (ConfusionMatrixBasedMetric.conf_matrix self)
  = n ->
  ConfusionMatrix.normalized (ConfusionMatrixBasedMetric.conf_matrix self)
  = false ->
  square n
    (ConfusionMatrix.conf (ConfusionMatrixBasedMetric.conf_matrix self)) ->
  non_negative
    (ConfusionMatrix.conf (ConfusionMatrixBasedMetric.conf_matrix self)) ->
  (forall c, c < n ->
     (cell (ConfusionMatrix.conf (ConfusionMatrixBasedMetric.conf_matrix self))
           c c < 2 ^ 30)%Z) ->
  valid_ignore n (ConfusionMatrixBasedMetric.ignore_indices self) ->
  c < n ->
  let tp := true_positive (effective_counts self) c in
  let fp := false_positive (effective_counts self) c in
  let fn := false_negative (effective_counts self) c in
  exists mdice dice self' d,
    DiceCoefficient.value self = Ok ((mdice, dice), self')
    /\ nth_error dice c = Some d
    /\ (d = Float.one <-> (0 < tp)%Z /\ fp = 0%Z /\ fn = 0%Z)
    /\ (d = Float.zero <-> tp = 0%Z /\ (0 < fp + fn)%Z)
    /\ (d = NaN <-> tp = 0%Z /\ fp = 0%Z /\ fn = 0%Z).
Proof.
  intros Hn Hnorm Hsq Hnn Hd Hign Hc. subst n. cbv zeta.
  rewrite (dice_value_int self Hnorm Hign).
  destruct (effective_counts_cells self Hsq Hnn Hd) as (e & -> & He & Hed).
  set (n := ConfusionMatrix.num_classes _) in *.
  destruct (@dice_int_entry n e c He (Hed c Hc) Hc) as (Hnth & H0 & H1 & H2).
  cbv zeta in Hnth.
  do 4 eexists. split; [reflexivity|]. split; [exact Hnth|].
  set (tp := true_positive (tabulate n e) c) in *.
  set (fp := false_positive (tabulate n e) c) in *.
  set (fn := false_negative (tabulate n e) c) in *.
  split; [|split].
  - rewrite div_of_Z_one. lia.
  - rewrite div_of_Z_zero. lia.
  - rewrite div_of_Z_nan by lia. lia.
Qed.

Lemma dice_extremes_witness :
  exists mdice dice self' d,
    DiceCoefficient.value
      (ConfusionMatrixBasedMetric.mk
         (ConfusionMatrix.mk 3 false [[5; 1; 0]; [2; 3; 0]; [0; 0; 0]]%Z)
         true (Some [PyInt 0]))
    = Ok ((mdice, dice), self')
    /\ nth_error dice 1 = Some d
    /\ d = Float.one.
Proof.
  destruct (@dice_extremes 3
              (ConfusionMatrixBasedMetric.mk
                 (ConfusionMatrix.mk 3 false
                    [[5; 1; 0]; [2; 3; 0]; [0; 0; 0]]%Z)
                 true (Some [PyInt 0])) 1)
    as (mdice & dice & self' & d & Hv & Hd & Hone & _).
  - reflexivity.
  - reflexivity.
  - split; [reflexivity|]. repeat constructor.
  - repeat constructor; discriminate.
  - intros c Hc. destruct c as [|[|[|c]]]; [reflexivity ..|lia].
  - constructor; [|constructor]. exists 0%Z. split; [reflexivity|lia].
  - lia.
  - exists mdice, dice, self', d. split; [exact Hv|]. split; [exact Hd|].
    apply Hone. repeat split.
Defined.

Lemma int32_double_wraps (x : Z) :
  (2 ^ 30 <= x < 2 ^ 31)%Z -> Int32.mul 2 x = (2 * x - 2 ^ 32)%Z.
Proof.
  intros H. unfold Int32.mul, Int32.wrap.
  replace (2 * x + 2 ^ 31)%Z with ((2 * x + 2 ^ 31 - 2 ^ 32) + 1 * 2 ^ 32)%Z
    by lia.
  rewrite Z_mod_plus_full, Z.mod_small by lia. lia.
Qed.

Lemma quotient_of_negatives (a b : Z) :
  (a < b)%Z -> (b < 0)%Z -> (1 < inject_Z a / inject_Z b)%Q.
Proof.
  intros Hab Hb. destruct b as [|p|p]; try lia.
  unfold Qlt, Qdiv, Qmult, Qinv, inject_Z. cbn [Qnum Qden]. lia.
Qed.

(** X7.  [2 * true_positive] is computed in 32 bits: for a class with at
    least 2^30 true positives and some false positive or negative (fewer
    than [2^32 - 2 TP] of them) the numerator wraps around to a negative
    number and the value returned for the class is greater than 1. *)
Theorem dice_exceeds_one_after_overflow
        (n : nat) (reduced_probs : bool) (conf : matrix) (c : nat) :
  square n conf ->
  c < n ->
  (2 ^ 30 <= true_positive conf c < 2 ^ 31)%Z ->
  (0 < false_positive conf c + false_negative conf c
   < 2 ^ 32 - 2 * true_positive conf c)%Z ->
  exists mdice dice self' q,
    DiceCoefficient.value
      (ConfusionMatrixBasedMetric.mk (ConfusionMatrix.mk n false conf)
                                     reduced_probs None)
    = Ok ((mdice, dice), self')
    /\ nth_error dice c = Some (Fin q)
    /\ (1 < q)%Q.
Proof.
  intros Hsq Hc Htp Herr. rewrite dice_value_of_counts.
  rewrite (square_tabulate Hsq) in *.
  set (e := cell conf) in *. clearbody e.
  do 4 eexists. split; [reflexivity|].
  rewrite dice_int_tabulate, nth_error_map_seq by exact Hc. cbn [plus].
  set (tp := true_positive (tabulate n e) c) in *.
  set (fp := false_positive (tabulate n e) c) in *.
  set (fn := false_negative (tabulate n e) c) in *.
  rewrite int32_double_wraps by exact Htp.
  rewrite float_div_of_Z by lia. split; [reflexivity|].
  rewrite this_div_of_Z. apply quotient_of_negatives; lia.
Qed.

Lemma dice_exceeds_one_after_overflow_witness :
  exists mdice dice self' q,
    DiceCoefficient.value
      (ConfusionMatrixBasedMetric.mk
         (ConfusionMatrix.mk 2 false [[2 ^ 30; 1]; [0; 0]]%Z) true None)
    = Ok ((mdice, dice), self')
    /\ nth_error dice 0 = Some (Fin q)
    /\ (1 < q)%Q.
Proof.
  apply (@dice_exceeds_one_after_overflow 2 true
           [[2 ^ 30; 1]; [0; 0]]%Z 0).
  - split; [reflexivity|]. repeat constructor.
  - lia.
  - split; [discriminate | reflexivity].
  - split; reflexivity.
Defined.

(** ** What [add] reads *)

(** Targets without a class. *)

Lemma select_none {A} (mask : list bool) (l : list A) :
  Forall (fun b => b = false) mask -> select mask l = [].
Proof.
  intros H. unfold select. revert l.
  induction H as [|b mask -> _ IH]; intros [|x l]; try reflexivity.
  cbn [combine filter snd]. apply IH.
Qed.

Lemma increment_without_valid_label (n : nat) (pred target : ndarray Z) :
  shape target <> [] ->
  ndim target <= ndim pred ->
  Forall (fun v => ConfusionMatrix.valid_label n v = false) (data target) ->
  increment n pred target
  = (conf' <- histogramdd n [] ;; Ok (astype_int32 conf')).
Proof.
  intros Hne Hdim Hnone. unfold increment.
  rewrite np_where_select by exact Hne.
  cbn [bind map_array shape data].
  rewrite select_none by (apply Forall_map; exact Hnone).
  unfold take_flat.
  replace (ndim pred <? length (shape target)) with false
    by (symmetry; apply Nat.ltb_ge; exact Hdim).
  replace (ndim target <? length (shape target)) with false
    by (symmetry; apply Nat.ltb_ge; unfold ndim; lia).
  cbn [forallb flat_map bind]. reflexivity.
Qed.

Lemma matrix_add_zeros (n : nat) (m : matrix) :
  square n m ->
  Forall (Forall (fun c => Int32.in_range c = true)) m ->
  matrix_add m (astype_int32 (zeros n)) = m.
Proof.
  intros Hsq Hr.
  assert (Hc : forall i j, i < n -> j < n ->
                 Int32.in_range (cell m i j) = true).
  { intros i j Hi Hj. destruct Hsq as [Hlen Hrows].
    rewrite Forall_forall in Hr, Hrows. unfold cell.
    assert (Hin : In (nth i m []) m) by (apply nth_In; lia).
    specialize (Hr _ Hin). specialize (Hrows _ Hin).
    rewrite Forall_forall in Hr. apply Hr, nth_In. lia. }
  rewrite (square_tabulate Hsq) at 1 2.
  replace (astype_int32 (zeros n)) with (tabulate n (fun _ _ => 0%Z)).
  - rewrite matrix_add_tabulate. apply tabulate_ext. intros i j Hi Hj.
    unfold Int32.add. rewrite Z.add_0_r. apply wrap_in_range, Hc; assumption.
  - unfold tabulate, zeros, astype_int32.
    rewrite !map_const_seq, map_repeat, map_repeat. reflexivity.
Qed.

(** X8.  [add] on a target without any label in [[0, num_classes)] (a
    mask of void labels, say) returns normally and leaves the counts as
    they are, whatever the predictions. *)
Theorem add_without_valid_label_changes_nothing
        (cm : ConfusionMatrix.t) (pred target : ndarray Z) :
  ConfusionMatrix.wf cm ->
  1 <= ConfusionMatrix.num_classes cm ->
  shape target <> [] ->
  ndim target <= ndim pred ->
  Forall (fun v => ConfusionMatrix.valid_label
                     (ConfusionMatrix.num_classes cm) v = false)
         (data target) ->
  ConfusionMatrix.add cm pred target = Ok cm.
Proof.
  intros [Hsq Hr] Hn Hne Hdim Hnone.
  rewrite add_increment, increment_without_valid_label by assumption.
  unfold histogramdd.
  replace (ConfusionMatrix.num_classes cm <? 1) with false
    by (symmetry; apply Nat.ltb_ge; exact Hn).
  cbn [bind]. rewrite counts_nil, matrix_add_zeros by assumption.
  destruct cm. reflexivity.
Qed.

Lemma add_without_valid_label_changes_nothing_witness :
  ConfusionMatrix.add
    (ConfusionMatrix.mk 2 false [[1; 1]; [0; 1]]%Z)
    (vector [0; 1; 0]%Z) (vector [255; -1; 2]%Z)
  = Ok (ConfusionMatrix.mk 2 false [[1; 1]; [0; 1]]%Z).
Proof.
  apply (@add_without_valid_label_changes_nothing
           (ConfusionMatrix.mk 2 false [[1; 1]; [0; 1]]%Z)
           (vector [0; 1; 0]%Z) (vector [255; -1; 2]%Z)).
  - split; [split; [reflexivity|]|]; repeat constructor.
  - cbn. lia.
  - discriminate.
  - unfold ndim. cbn. lia.
  - repeat constructor.
Defined.

Lemma no_label_without_classes (l : list Z) :
  Forall (fun v => ConfusionMatrix.valid_label 0 v = false) l.
Proof.
  apply Forall_forall. intros v _. unfold ConfusionMatrix.valid_label.
  cbn [Z.of_nat]. destruct (Z.ltb_spec v 0); [|apply andb_false_r].
  replace (0 <=? v)%Z with false by (symmetry; apply Z.leb_gt; assumption).
  reflexivity.
Qed.

(** X9.  A matrix with [num_classes = 0] can be constructed, but every
    [add] on it that gets as far as the histogram raises [ValueError]
    (zero bins are refused). *)
Theorem add_raises_without_classes
        (cm : ConfusionMatrix.t) (pred target : ndarray Z) :
  ConfusionMatrix.num_classes cm = 0 ->
  shape target <> [] ->
  ndim target <= ndim pred ->
  ConfusionMatrix.add cm pred target = Raise ValueError.
Proof.
  intros Hn Hne Hdim. rewrite add_increment, Hn.
  rewrite increment_without_valid_label; [reflexivity | assumption ..|].
  apply no_label_without_classes.
Qed.

Lemma add_raises_without_classes_witness :
  ConfusionMatrix.add (ConfusionMatrix.init 0 false)
    (vector [0; 1]%Z) (vector [0; 1]%Z)
  = Raise ValueError.
Proof.
  apply (@add_raises_without_classes (ConfusionMatrix.init 0 false)
           (vector [0; 1]%Z) (vector [0; 1]%Z)).
  - reflexivity.
  - discriminate.
  - unfold ndim. cbn. lia.
Defined.

(** Arrays of rank above one. *)

Lemma same_shaped_dims (pred target : ndarray Z) :
  same_shaped pred target ->
  shape target <> [] /\ ndim target <= ndim pred
  /\ length (data pred) = length (data target).
Proof.
  intros (Hp & Ht & Hs & Hne). unfold ndim, wf_array in *.
  rewrite Hs. repeat split; [assumption | lia | congruence].
Qed.

Lemma same_shaped_vectors (l l' : list Z) :
  length l = length l' -> same_shaped (vector l) (vector l').
Proof.
  intros H. unfold same_shaped. repeat split; try apply vector_wf.
  - unfold vector. cbn [shape]. rewrite H. reflexivity.
  - discriminate.
Qed.

(** X10.  [add] on two arrays of one shape does what it does on their
    flattened copies: the counts depend on the row-major sequences of
    labels only, not on the batch and image axes. *)
Theorem add_reads_arrays_flat
        (cm : ConfusionMatrix.t) (pred target : ndarray Z) :
  same_shaped pred target ->
  ConfusionMatrix.add cm pred target
  = ConfusionMatrix.add cm (vector (data pred)) (vector (data target)).
Proof.
  intros Hs. destruct (same_shaped_dims Hs) as (Hne & Hdim & Hlen).
  pose proof (same_shaped_vectors _ _ Hlen) as Hv.
  destruct (ConfusionMatrix.num_classes cm) as [|n] eqn:Hn.
  - rewrite !add_increment, Hn.
    rewrite !increment_without_valid_label;
      [reflexivity | discriminate | unfold ndim; cbn; lia
       | apply no_label_without_classes | assumption | assumption
       | apply no_label_without_classes].
  - rewrite !add_same_shape by (try assumption; lia). reflexivity.
Qed.

Lemma add_reads_arrays_flat_witness :
  ConfusionMatrix.add (ConfusionMatrix.init 3 false)
    (mk_ndarray [2; 2] [0; 1; 2; 2]%Z) (mk_ndarray [2; 2] [0; 1; 1; 2]%Z)
  = ConfusionMatrix.add (ConfusionMatrix.init 3 false)
      (vector [0; 1; 2; 2]%Z) (vector [0; 1; 1; 2]%Z).
Proof.
  apply (@add_reads_arrays_flat (ConfusionMatrix.init 3 false)
           (mk_ndarray [2; 2] [0; 1; 2; 2]%Z)
           (mk_ndarray [2; 2] [0; 1; 1; 2]%Z)).
  repeat split; try reflexivity; discriminate.
Defined.

(** Predictions next to a void target. *)

Lemma filter_combine_agree {A B} (f : A -> bool) (d : A) (e : B)
      (t : list A) (p p' : list B) :
  length p = length t -> length p' = length t ->
  (forall k, k < length t -> f (nth k t d) = true ->
             nth k p e = nth k p' e) ->
  filter (fun s => f (fst s)) (combine t p)
  = filter (fun s => f (fst s)) (combine t p').
Proof.
  revert p p'. induction t as [|x t IH]; intros [|y p] [|y' p'] Hp Hp' H;
    try discriminate; [reflexivity|].
  cbn [combine filter fst].
  assert (E : filter (fun s => f (fst s)) (combine t p)
              = filter (fun s => f (fst s)) (combine t p')).
  { apply IH.
    - simpl in Hp. lia.
    - simpl in Hp'. lia.
    - intros k Hk Hf. apply (H (S k)); [simpl; lia | exact Hf]. }
  rewrite E. destruct (f x) eqn:Hx; [|reflexivity].
  f_equal. f_equal. apply (H 0); [simpl; lia | exact Hx].
Qed.

(** X11.  [add] never looks at a prediction whose target label is
    outside [[0, num_classes)]: two prediction arrays that agree wherever
    the target holds a class give the same outcome. *)
Theorem add_ignores_predictions_at_void_targets
        (cm : ConfusionMatrix.t) (pred pred' target : ndarray Z) :
  same_shaped pred target ->
  same_shaped pred' target ->
  (forall k, k < length (data target) ->
     ConfusionMatrix.valid_label (ConfusionMatrix.num_classes cm)
                                 (nth k (data target) 0%Z) = true ->
     nth k (data pred) 0%Z = nth k (data pred') 0%Z) ->
  ConfusionMatrix.add cm pred target = ConfusionMatrix.add cm pred' target.
Proof.
  intros Hs Hs' Hagree.
  destruct (same_shaped_dims Hs) as (Hne & Hdim & Hlen).
  destruct (same_shaped_dims Hs') as (_ & Hdim' & Hlen').
  destruct (ConfusionMatrix.num_classes cm) as [|n] eqn:Hn.
  - rewrite !add_increment, Hn.
    rewrite !increment_without_valid_label
      by (assumption || apply no_label_without_classes).
    reflexivity.
  - rewrite !add_same_shape by (try assumption; lia). rewrite Hn.
    unfold valid_pairs.
    rewrite (@filter_combine_agree _ _ (ConfusionMatrix.valid_label (S n))
               0%Z 0%Z (data target) (data pred) (data pred') Hlen Hlen'
               Hagree).
    reflexivity.
Qed.

Lemma add_ignores_predictions_at_void_targets_witness :
  ConfusionMatrix.add (ConfusionMatrix.init 3 false)
    (vector [0; 1; 2]%Z) (vector [0; 1; 5]%Z)
  = ConfusionMatrix.add (ConfusionMatrix.init 3 false)
      (vector [0; 1; 7]%Z) (vector [0; 1; 5]%Z).
Proof.
  apply (@add_ignores_predictions_at_void_targets
           (ConfusionMatrix.init 3 false)
           (vector [0; 1; 2]%Z) (vector [0; 1; 7]%Z) (vector [0; 1; 5]%Z)).
  - repeat split; try reflexivity; discriminate.
  - repeat split; try reflexivity; discriminate.
  - intros k Hk Hv. destruct k as [|[|[|k]]];
      [reflexivity | reflexivity | discriminate Hv | simpl in Hk; lia].
Defined.

(** ** [value] between two [add] calls *)

Section Zeroing_and_adding.

Context {A : Type} (z : A) (idx : list nat) (f : A -> A -> A).

Lemma map2_length_min {B C D} (g : B -> C -> D) (l : list B) (l' : list C) :
  length (map2 g l l') = Nat.min (length l) (length l').
Proof.
  revert l'. induction l as [|x l IH]; intros [|y l']; cbn [map2 length];
    try reflexivity.
  rewrite IH. reflexivity.
Qed.

Lemma clear_entries_before_adding (s : nat) (ra rb : list A) :
  mapi_from (fun j x => if mem j idx then z else x) s
    (map2 f (mapi_from (fun j x => if mem j idx then z else x) s ra) rb)
  = mapi_from (fun j x => if mem j idx then z else x) s (map2 f ra rb).
Proof.
  revert s rb. induction ra as [|x ra IH]; intros s [|y rb];
    try reflexivity.
  cbn [mapi_from map2]. rewrite IH.
  destruct (mem s idx); reflexivity.
Qed.

Lemma set_columns_before_adding (a b : list (list A)) :
  set_columns z idx (map2 (map2 f) (set_columns z idx a) b)
  = set_columns z idx (map2 (map2 f) a b).
Proof.
  unfold set_columns, mapi. revert b.
  induction a as [|ra a IH]; intros [|rb b]; try reflexivity.
  cbn [map map2]. rewrite IH, clear_entries_before_adding. reflexivity.
Qed.

Lemma clear_rows_before_adding (s : nat) (a b : list (list A)) :
  mapi_from (fun i row => if mem i idx then map (fun _ => z) row else row) s
    (map2 (map2 f)
       (mapi_from
          (fun i row => if mem i idx then map (fun _ => z) row else row) s a)
       b)
  = mapi_from (fun i row => if mem i idx then map (fun _ => z) row else row) s
      (map2 (map2 f) a b).
Proof.
  revert s b. induction a as [|ra a IH]; intros s [|rb b]; try reflexivity.
  cbn [mapi_from map2]. rewrite IH. f_equal.
  destruct (mem s idx); [|reflexivity].
  apply map_const_same_length.
  rewrite !map2_length_min, length_map. reflexivity.
Qed.

Lemma set_rows_before_adding (a b : list (list A)) :
  set_rows z idx (map2 (map2 f) (set_rows z idx a) b)
  = set_rows z idx (map2 (map2 f) a b).
Proof. apply clear_rows_before_adding. Qed.

Lemma zeroing_before_adding (a b : list (list A)) :
  set_rows z idx
    (set_columns z idx
       (map2 (map2 f) (set_rows z idx (set_columns z idx a)) b))
  = set_rows z idx (set_columns z idx (map2 (map2 f) a b)).
Proof.
  rewrite <- set_columns_rows_comm, set_rows_before_adding.
  rewrite set_columns_rows_comm, set_columns_before_adding. reflexivity.
Qed.

End Zeroing_and_adding.

Lemma zeroed_add (idx : list nat) (a b : matrix) :
  zeroed idx (matrix_add (zeroed idx a) b) = zeroed idx (matrix_add a b).
Proof. apply zeroing_before_adding. Qed.

Lemma zeroed_twice (idx : list nat) (m : matrix) :
  zeroed idx (zeroed idx m) = zeroed idx m.
Proof. apply zeroing_twice. Qed.

Lemma add_all_after_zeroing (n : nat) (b : bool) (idx : list nat)
      (batches : list batch) :
  forall m1 m2 : matrix,
    zeroed idx m1 = zeroed idx m2 ->
    match ConfusionMatrix.add_all (ConfusionMatrix.mk n b m1) batches with
    | Ok cm1 =>
        exists c1 c2,
          cm1 = ConfusionMatrix.mk n b c1
          /\ ConfusionMatrix.add_all (ConfusionMatrix.mk n b m2) batches
             = Ok (ConfusionMatrix.mk n b c2)
          /\ zeroed idx c1 = zeroed idx c2
    | Raise e =>
        ConfusionMatrix.add_all (ConfusionMatrix.mk n b m2) batches = Raise e
    end.
Proof.
  induction batches as [|x rest IH]; intros m1 m2 Hm.
  - cbn [ConfusionMatrix.add_all]. exists m1, m2. repeat split. exact Hm.
  - rewrite !add_all_cons.
    destruct (increment n (fst x) (snd x)) as [inc|e]; cbn [bind];
      [|reflexivity].
    apply IH. rewrite <- (zeroed_add idx m1), <- (zeroed_add idx m2), Hm.
    reflexivity.
Qed.

Lemma dice_value_ignoring (n : nat) (rp : bool) (l : list pyatom)
      (idx : list nat) (m : matrix) :
  index_array n l = Ok idx ->
  DiceCoefficient.value
    (ConfusionMatrixBasedMetric.mk (ConfusionMatrix.mk n false m) rp (Some l))
  = Ok ((nanmean (np_delete (DiceCoefficient.dice_int n (zeroed idx m)) idx),
         DiceCoefficient.dice_int n (zeroed idx m)),
        ConfusionMatrixBasedMetric.mk
          (ConfusionMatrix.mk n false (zeroed idx m)) rp (Some l)).
Proof.
  intros H. rewrite value_cases. cbv zeta.
  cbn [ConfusionMatrixBasedMetric.conf_matrix ConfusionMatrix.num_classes
       ConfusionMatrixBasedMetric.ignore_indices].
  rewrite H. reflexivity.
Qed.

(** X12.  [value] may zero the stored rows and columns of the ignored
    classes, but no later result shows it: accumulating further calls
    after a [value] call fails exactly when accumulating them without
    that call fails, and otherwise the next [value] returns the same mean
    and the same Dice values in both cases. *)
Theorem value_between_adds_changes_no_result
        (self self' : ConfusionMatrixBasedMetric.t)
        (r : np_float * list np_float) (batches : list batch) :
  DiceCoefficient.value self = Ok (r, self') ->
  match
    ConfusionMatrix.add_all (ConfusionMatrixBasedMetric.conf_matrix self)
                            batches
  with
  | Ok cm =>
      exists cm',
        ConfusionMatrix.add_all (ConfusionMatrixBasedMetric.conf_matrix self')
                                batches = Ok cm'
        /\ result_map fst
             (DiceCoefficient.value
                (ConfusionMatrixBasedMetric.set_conf_matrix self' cm'))
           = result_map fst
               (DiceCoefficient.value
                  (ConfusionMatrixBasedMetric.set_conf_matrix self cm))
  | Raise e =>
      ConfusionMatrix.add_all (ConfusionMatrixBasedMetric.conf_matrix self')
                              batches = Raise e
  end.
Proof.
  destruct self as [[n b m] rp [l|]].
  - destruct (index_array n l) as [idx|e] eqn:Hidx.
    + destruct b.
      * (* a fresh float array is zeroed: the state is kept *)
        intros H.
        apply dice_value_keeps_counts in H; [|right; reflexivity].
        subst self'.
        destruct (ConfusionMatrix.add_all _ batches); [|reflexivity].
        eexists. split; reflexivity.
      * rewrite (@dice_value_ignoring n rp l idx m Hidx). intros H.
        injection H as _ <-.
        cbn [ConfusionMatrixBasedMetric.conf_matrix].
        pose proof (@add_all_after_zeroing n false idx batches m
                      (zeroed idx m) (eq_sym (zeroed_twice idx m))) as Hrun.
        destruct (ConfusionMatrix.add_all (ConfusionMatrix.mk n false m)
                                          batches) as [cm|e];
          [|exact Hrun].
        destruct Hrun as (c1 & c2 & -> & Hadd & Hz).
        eexists. split; [exact Hadd|].
        unfold ConfusionMatrixBasedMetric.set_conf_matrix.
        cbn [ConfusionMatrixBasedMetric.reduced_probs
             ConfusionMatrixBasedMetric.ignore_indices].
        rewrite !(@dice_value_ignoring n rp l idx _ Hidx). cbn [result_map fst].
        rewrite Hz. reflexivity.
    + rewrite value_cases. cbv zeta.
      cbn [ConfusionMatrixBasedMetric.conf_matrix ConfusionMatrix.num_classes
           ConfusionMatrixBasedMetric.ignore_indices].
      rewrite Hidx. discriminate.
  - intros H.
    apply dice_value_keeps_counts in H; [|left; reflexivity]. subst self'.
    destruct (ConfusionMatrix.add_all _ batches); [|reflexivity].
    eexists. split; reflexivity.
Qed.

Lemma value_between_adds_changes_no_result_witness :
  match
    ConfusionMatrix.add_all
      (ConfusionMatrix.mk 2 false [[1; 1]; [0; 1]]%Z)
      [(vector [0; 1]%Z, vector [1; 1]%Z)]
  with
  | Ok cm =>
      exists cm',
        ConfusionMatrix.add_all
          (ConfusionMatrix.mk 2 false [[0; 0]; [0; 1]]%Z)
          [(vector [0; 1]%Z, vector [1; 1]%Z)] = Ok cm'
        /\ result_map fst
             (DiceCoefficient.value
                (ConfusionMatrixBasedMetric.mk cm' true (Some [PyInt 0])))
           = result_map fst
               (DiceCoefficient.value
                  (ConfusionMatrixBasedMetric.mk cm true (Some [PyInt 0])))
  | Raise e =>
      ConfusionMatrix.add_all
        (ConfusionMatrix.mk 2 false [[0; 0]; [0; 1]]%Z)
        [(vector [0; 1]%Z, vector [1; 1]%Z)] = Raise e
  end.
Proof.
  exact (@value_between_adds_changes_no_result _ _ _
           [(vector [0; 1]%Z, vector [1; 1]%Z)]
           (@dice_value_ignoring 2 true [PyInt 0] [0]
              [[1; 1]; [0; 1]]%Z eq_refl)).
Defined.

(** ** Ignored classes *)

(** Lists, indices and classes without counts. *)

Lemma list_eq_repeat {A} (x : A) (n : nat) (l : list A) :
  length l = n -> (forall c, c < n -> nth_error l c = Some x) ->
  l = repeat x n.
Proof.
  revert n. induction l as [|y l IH]; intros [|n] Hlen H;
    try discriminate; [reflexivity|].
  cbn [repeat]. f_equal.
  - specialize (H 0 ltac:(lia)). cbn in H. congruence.
  - apply IH; [simpl in Hlen; lia|]. intros c Hc.
    apply (H (S c)). lia.
Qed.

Lemma nanmean_all_nan (l : list np_float) :
  Forall (fun x => x = NaN) l -> nanmean l = NaN.
Proof.
  intros H. rewrite nanmean_is_mean_of_defined.
  replace (filter defined l) with (@nil np_float); [reflexivity|].
  symmetry. induction H as [|x l -> _ IH]; [reflexivity|]. exact IH.
Qed.

Lemma dice_float_zero_class (n : nat) (m : nat -> nat -> np_float) (c : nat) :
  c < n ->
  (forall k, k < n -> m c k = Float.zero /\ m k c = Float.zero) ->
  nth_error (DiceCoefficient.dice_float n (tabulate n m)) c = Some NaN.
Proof.
  intros Hc Hm.
  rewrite dice_float_tabulate, nth_error_map_seq by exact Hc. cbn [plus].
  cbv zeta. rewrite (proj1 (Hm c Hc)).
  rewrite (float_sum_zeros (l := map (fun i => m i c) (seq 0 n)))
    by (apply Forall_map_seq; intros k Hk; apply Hm, Hk).
  rewrite (float_sum_zeros (l := map (m c) (seq 0 n)))
    by (apply Forall_map_seq; intros k Hk; apply Hm, Hk).
  reflexivity.
Qed.

Lemma dice_int_zero_class (n : nat) (e : nat -> nat -> Z) (c : nat) :
  c < n ->
  (forall k, k < n -> e c k = 0%Z /\ e k c = 0%Z) ->
  nth_error (DiceCoefficient.dice_int n (tabulate n e)) c = Some NaN.
Proof.
  intros Hc He. apply dice_int_undefined; [exact Hc|..];
    unfold true_positive, false_positive, false_negative;
    rewrite ?column_tabulate, ?tabulate_row, cell_tabulate by exact Hc.
  - apply He, Hc.
  - rewrite (sum_list_ext _ (fun _ => 0%Z)), sum_list_map_zero.
    + rewrite (proj1 (He c Hc)). reflexivity.
    + intros k Hk. apply in_seq in Hk. apply He. lia.
  - rewrite (sum_list_ext _ (fun _ => 0%Z)), sum_list_map_zero.
    + rewrite (proj1 (He c Hc)). reflexivity.
    + intros k Hk. apply in_seq in Hk. apply He. lia.
Qed.

Lemma norm_index_some (n : nat) (i : Z) (k : nat) :
  norm_index n i = Some k ->
  (- Z.of_nat n <= i < Z.of_nat n)%Z /\ k < n.
Proof.
  unfold norm_index.
  destruct (Z.leb_spec 0 i), (Z.ltb_spec i (Z.of_nat n)),
    (Z.leb_spec (- Z.of_nat n) i), (Z.ltb_spec i 0);
    cbn [andb]; intros E; try discriminate; injection E as <-; lia.
Qed.

Lemma as_int_index (n : nat) (a : pyatom) (i : Z) (k : nat) :
  as_int a = Some i -> norm_index n i = Some k -> integer_index n a.
Proof.
  intros Ha Hk. pose proof (norm_index_some _ _ Hk) as Hlt.
  unfold norm_index in Hk.
  destruct a as [z|q|s|[|]]; try discriminate; injection Ha as <-.
  - left. exists z. split; [reflexivity|].
    destruct (Z.leb_spec 0 z), (Z.ltb_spec z (Z.of_nat n)),
      (Z.leb_spec (- Z.of_nat n) z), (Z.ltb_spec z 0);
      cbn [andb] in Hk; try discriminate; lia.
  - right. right. split; [reflexivity|].
    destruct (Z.ltb_spec 1 (Z.of_nat n)); [lia|].
    destruct (Z.leb_spec (- Z.of_nat n) 1); cbn in Hk; discriminate.
  - right. left. split; [reflexivity|].
    destruct (Z.ltb_spec 0 (Z.of_nat n)); [lia|].
    destruct (Z.leb_spec (- Z.of_nat n) 0); cbn in Hk; discriminate.
Qed.

Lemma integer_index_norm (n : nat) (a : pyatom) :
  integer_index n a ->
  exists i k, as_int a = Some i /\ norm_index n i = Some k.
Proof.
  intros [(i & -> & Hi)|[[-> Hn]|[-> Hn]]].
  - exists i. unfold norm_index.
    destruct (Z.leb_spec 0 i), (Z.ltb_spec i (Z.of_nat n)),
      (Z.leb_spec (- Z.of_nat n) i), (Z.ltb_spec i 0);
      cbn [andb]; try lia; eexists; split; reflexivity.
  - exists 0%Z. unfold norm_index.
    destruct (Z.ltb_spec 0 (Z.of_nat n)); [|lia].
    eexists. split; reflexivity.
  - exists 1%Z. unfold norm_index.
    destruct (Z.ltb_spec 1 (Z.of_nat n)); [|lia].
    eexists. split; reflexivity.
Qed.

Lemma int_indices_bound (n : nat) (l : list pyatom) (idx : list nat) :
  int_indices n l = Ok idx ->
  Forall (fun k => k < n) idx /\ Forall (integer_index n) l.
Proof.
  revert idx. induction l as [|a l IH]; intros idx H.
  - injection H as <-. split; constructor.
  - cbn [int_indices] in H.
    destruct (as_int a) as [i|] eqn:Ha; [|discriminate].
    destruct (norm_index n i) as [k|] eqn:Hk; [|discriminate].
    destruct (int_indices n l) as [rest|e]; [|discriminate].
    cbn [bind] in H. injection H as <-.
    destruct (IH rest eq_refl) as [Hb Hi].
    split; constructor; try assumption.
    + apply (norm_index_some _ _ Hk).
    + apply (as_int_index n a Ha Hk).
Qed.

Lemma int_indices_defined (n : nat) (l : list pyatom) :
  Forall (integer_index n) l -> exists idx, int_indices n l = Ok idx.
Proof.
  induction 1 as [|a l Ha _ (idx & IH)].
  - exists []. reflexivity.
  - destruct (integer_index_norm Ha) as (i & k & Hi & Hk).
    cbn [int_indices]. rewrite Hi, Hk, IH. eexists. reflexivity.
Qed.

Lemma int_indices_error (n : nat) (l : list pyatom) (e : exn) :
  int_indices n l = Raise e -> e = IndexError.
Proof.
  induction l as [|a l IH]; intros H; [discriminate|].
  cbn [int_indices] in H.
  destruct (as_int a) as [i|]; [|congruence].
  destruct (norm_index n i) as [k|]; [|congruence].
  destruct (int_indices n l) as [rest|e']; [discriminate|].
  cbn [bind] in H. injection H as <-. apply IH. reflexivity.
Qed.

Lemma mask_indices_bound (i : nat) (l : list pyatom) :
  Forall (fun k => k < i + length l) (mask_indices i l).
Proof.
  revert i. induction l as [|a l IH]; intros i; [constructor|].
  cbn [mask_indices length].
  assert (H : Forall (fun k => k < i + S (length l)) (mask_indices (S i) l)).
  { eapply Forall_impl; [|apply (IH (S i))]. cbn beta. intros k Hk. lia. }
  destruct a as [z|q|s|[|]]; try exact H.
  constructor; [lia | exact H].
Qed.

Lemma forallb_is_bool (l : list pyatom) :
  forallb is_bool l = true <-> Forall (fun a => exists b, a = PyBool b) l.
Proof.
  rewrite forallb_forall, Forall_forall. split; intros H a Ha.
  - specialize (H a Ha). destruct a as [z|q|s|b]; try discriminate.
    exists b. reflexivity.
  - destruct (H a Ha) as (b & ->). reflexivity.
Qed.

Lemma index_array_bound (n : nat) (l : list pyatom) (idx : list nat) :
  index_array n l = Ok idx -> Forall (fun k => k < n) idx.
Proof.
  destruct l as [|a l]; intros H.
  - injection H as <-. constructor.
  - unfold index_array in H.
    destruct (forallb is_bool (a :: l)).
    + destruct (Nat.eqb_spec (length (a :: l)) n) as [E|]; [|discriminate].
      assert (Hidx : idx = mask_indices 0 (a :: l)) by congruence.
      rewrite Hidx, <- E. exact (mask_indices_bound 0 (a :: l)).
    + apply (int_indices_bound _ _ H).
Qed.

(** The tuples that index an axis of length [n]. *)
Lemma index_array_usable (n : nat) (l : list pyatom) :
  (usable_ignore n (Some l) /\ exists idx, index_array n l = Ok idx)
  \/ (~ usable_ignore n (Some l) /\ index_array n l = Raise IndexError).
Proof.
  cbn [usable_ignore]. unfold is_mask.
  destruct l as [|a l].
  - left. split; [|exists []; reflexivity].
    right. split; [|constructor]. intros [H _]. apply H. reflexivity.
  - unfold index_array.
    destruct (forallb is_bool (a :: l)) eqn:Hb.
    + apply forallb_is_bool in Hb.
      destruct (Nat.eqb_spec (length (a :: l)) n) as [E|Hne].
      * left. split; [|eexists; reflexivity].
        left. split; [split; [discriminate | exact Hb] | exact E].
      * right. split; [|reflexivity].
        intros [[_ E]|[Hm _]]; [exact (Hne E)|].
        apply Hm. split; [discriminate | exact Hb].
    + assert (Hm : ~ (a :: l <> [] /\
                      Forall (fun a => exists b, a = PyBool b) (a :: l))).
      { intros [_ H]. apply forallb_is_bool in H. congruence. }
      destruct (int_indices n (a :: l)) as [idx|e] eqn:Hi.
      * left. split; [|eexists; reflexivity].
        right. split; [exact Hm | apply (int_indices_bound _ _ Hi)].
      * right. split.
        -- intros [[H _]|[_ H]]; [exact (Hm H)|].
           destruct (int_indices_defined H) as (idx & Hidx). congruence.
        -- f_equal. apply (int_indices_error _ _ Hi).
Qed.

Lemma mem_In (c : nat) (idx : list nat) : mem c idx = true <-> In c idx.
Proof.
  unfold mem. rewrite existsb_exists. split.
  - intros (x & Hx & E). apply Nat.eqb_eq in E. subst. exact Hx.
  - intros H. exists c. split; [exact H | apply Nat.eqb_refl].
Qed.

(** The result of [value] on normalized counts. *)
Lemma dice_value_float (self : ConfusionMatrixBasedMetric.t) :
  ConfusionMatrix.normalized (ConfusionMatrixBasedMetric.conf_matrix self)
  = true ->
  valid_ignore
    (ConfusionMatrix.num_classes (ConfusionMatrixBasedMetric.conf_matrix self))
    (ConfusionMatrixBasedMetric.ignore_indices self) ->
  let dice :=
    DiceCoefficient.dice_float
      (ConfusionMatrix.num_classes
         (ConfusionMatrixBasedMetric.conf_matrix self))
      (float_zeroed (ignored self)
         (ConfusionMatrix.normalize
            (ConfusionMatrix.conf
               (ConfusionMatrixBasedMetric.conf_matrix self)))) in
  DiceCoefficient.value self
  = Ok ((nanmean (np_delete dice (ignored self)), dice), self).
Proof.
  destruct self as [[n b conf] rp ign].
  cbn [ConfusionMatrixBasedMetric.conf_matrix ConfusionMatrix.num_classes
       ConfusionMatrix.normalized ConfusionMatrixBasedMetric.ignore_indices
       ConfusionMatrix.conf].
  intros -> Hign. cbv zeta. rewrite value_cases. cbv zeta.
  unfold float_zeroed, ignored.
  cbn [ConfusionMatrixBasedMetric.conf_matrix ConfusionMatrix.num_classes
       ConfusionMatrix.conf ConfusionMatrixBasedMetric.ignore_indices].
  destruct ign as [l|].
  - destruct (index_array_valid Hign) as [idx Hidx]. rewrite Hidx.
    reflexivity.
  - rewrite set_columns_nil, set_rows_nil, np_delete_nil. reflexivity.
Qed.

Lemma ignored_bound (self : ConfusionMatrixBasedMetric.t) :
  Forall (fun k => k < ConfusionMatrix.num_classes
                        (ConfusionMatrixBasedMetric.conf_matrix self))
         (ignored self).
Proof.
  unfold ignored.
  destruct (ConfusionMatrixBasedMetric.ignore_indices self) as [l|];
    [|constructor].
  destruct (index_array _ l) as [idx|e] eqn:H; [|constructor].
  apply (index_array_bound _ _ H).
Qed.

Lemma np_delete_all {A} (a : list A) (idx : list nat) :
  (forall i, i < length a -> In i idx) -> np_delete a idx = [].
Proof.
  intros H. unfold np_delete.
  replace (filter _ _) with (@nil (nat * A)); [reflexivity|].
  symmetry.
  assert (G : forall l : list (nat * A),
            (forall p, In p l -> mem (fst p) idx = true) ->
            filter (fun p => negb (mem (fst p) idx)) l = []).
  { induction l as [|p l IH]; intros Hl; [reflexivity|].
    cbn [filter]. rewrite (Hl p (or_introl eq_refl)). cbn [negb].
    apply IH. intros q Hq. apply Hl. right. exact Hq. }
  apply G. intros [i x] Hp. cbn [fst]. apply mem_In, H.
  apply in_combine_l in Hp. apply in_seq in Hp. lia.
Qed.

(** X13.  For a square matrix of any counts, normalized or not, [value]
    reports not-a-number for every ignored class; when every class is
    ignored the mean is not-a-number as well. *)
Theorem ignored_classes_are_undefined
        (n : nat) (self : ConfusionMatrixBasedMetric.t) :
  ConfusionMatrix.num_classes (ConfusionMatrixBasedMetric.conf_matrix self)
  = n ->
  square n
    (ConfusionMatrix.conf (ConfusionMatrixBasedMetric.conf_matrix self)) ->
  valid_ignore n (ConfusionMatrixBasedMetric.ignore_indices self) ->
  exists mdice dice self',
    DiceCoefficient.value self = Ok ((mdice, dice), self')
    /\ length dice = n
    /\ (forall c, In c (ignored self) -> nth_error dice c = Some NaN)
    /\ ((forall c, c < n -> In c (ignored self)) -> mdice = NaN).
Proof.
  intros Hn Hsq Hign. subst n.
  pose proof (ignored_bound self) as Hb. rewrite Forall_forall in Hb.
  set (n := ConfusionMatrix.num_classes _) in *.
  destruct (ConfusionMatrix.normalized
              (ConfusionMatrixBasedMetric.conf_matrix self)) eqn:Hnorm.
  - rewrite (dice_value_float self Hnorm Hign). fold n.
    do 3 eexists. split; [reflexivity|].
    rewrite (square_tabulate Hsq). unfold float_zeroed.
    rewrite normalize_tabulate, set_columns_tabulate, set_rows_tabulate.
    match goal with
    | |- context [DiceCoefficient.dice_float n (tabulate n ?f)] =>
        set (m := f)
    end.
    assert (Hlen : length (DiceCoefficient.dice_float n (tabulate n m)) = n).
    { rewrite dice_float_tabulate, length_map, length_seq. reflexivity. }
    split; [exact Hlen|]. split.
    + intros c Hc. apply dice_float_zero_class; [apply Hb, Hc|].
      apply mem_In in Hc. intros k _. unfold m. rewrite Hc.
      split; [reflexivity|]. destruct (mem k (ignored self)); reflexivity.
    + intros Hall. rewrite np_delete_all; [reflexivity|].
      intros i Hi. apply Hall. lia.
  - rewrite (dice_value_int self Hnorm Hign). fold n.
    do 3 eexists. split; [reflexivity|].
    rewrite (effective_counts_tabulate self Hsq).
    match goal with
    | |- context [DiceCoefficient.dice_int n (tabulate n ?f)] => set (e := f)
    end.
    assert (Hlen : length (DiceCoefficient.dice_int n (tabulate n e)) = n).
    { rewrite dice_int_tabulate, length_map, length_seq. reflexivity. }
    split; [exact Hlen|]. split.
    + intros c Hc. apply dice_int_zero_class; [apply Hb, Hc|].
      apply mem_In in Hc. intros k _. unfold e. rewrite Hc.
      split; [reflexivity|]. destruct (mem k (ignored self)); reflexivity.
    + intros Hall. rewrite np_delete_all; [reflexivity|].
      intros i Hi. apply Hall. lia.
Qed.

Lemma ignored_classes_are_undefined_witness :
  exists mdice dice self',
    DiceCoefficient.value
      (ConfusionMatrixBasedMetric.mk
         (ConfusionMatrix.mk 3 true [[5; 1; 0]; [2; 3; 0]; [0; 0; 4]]%Z)
         true (Some [PyInt 0]))
    = Ok ((mdice, dice), self')
    /\ nth_error dice 0 = Some NaN.
Proof.
  destruct (@ignored_classes_are_undefined 3
              (ConfusionMatrixBasedMetric.mk
                 (ConfusionMatrix.mk 3 true
                    [[5; 1; 0]; [2; 3; 0]; [0; 0; 4]]%Z)
                 true (Some [PyInt 0])))
    as (mdice & dice & self' & Hv & _ & Hnan & _).
  - reflexivity.
  - split; [reflexivity|]. repeat constructor.
  - constructor; [|constructor]. exists 0%Z. split; [reflexivity|lia].
  - exists mdice, dice, self'. split; [exact Hv|].
    apply Hnan. left. reflexivity.
Defined.

(** A matrix without counts. *)

Lemma zeros_tabulate (n : nat) : zeros n = tabulate n (fun _ _ => 0%Z).
Proof.
  unfold zeros, tabulate. rewrite !map_const_seq. reflexivity.
Qed.

Lemma zeroed_zeros (idx : list nat) (n : nat) : zeroed idx (zeros n) = zeros n.
Proof.
  unfold zeroed. rewrite zeros_tabulate, set_columns_tabulate,
    set_rows_tabulate.
  apply tabulate_ext. intros i j _ _.
  destruct (mem i idx), (mem j idx); reflexivity.
Qed.

Lemma dice_of_no_counts (n : nat) (b : bool) (rp : bool)
      (ign : option (list pyatom)) :
  valid_ignore n ign ->
  DiceCoefficient.value
    (ConfusionMatrixBasedMetric.mk (ConfusionMatrix.mk n b (zeros n)) rp ign)
  = Ok ((NaN, repeat NaN n),
        ConfusionMatrixBasedMetric.mk (ConfusionMatrix.mk n b (zeros n))
                                      rp ign).
Proof.
  intros Hign.
  set (self := ConfusionMatrixBasedMetric.mk
                 (ConfusionMatrix.mk n b (zeros n)) rp ign).
  assert (Hsq : square n (zeros n))
    by (rewrite zeros_tabulate; apply tabulate_square).
  destruct b.
  - rewrite (dice_value_float self eq_refl Hign).
    cbn [self ConfusionMatrixBasedMetric.conf_matrix
         ConfusionMatrix.num_classes ConfusionMatrix.conf].
    assert (Hd : DiceCoefficient.dice_float n
                   (float_zeroed (ignored self)
                      (ConfusionMatrix.normalize (zeros n)))
                 = repeat NaN n).
    { apply list_eq_repeat.
      - unfold float_zeroed.
        rewrite zeros_tabulate, normalize_tabulate, set_columns_tabulate,
          set_rows_tabulate, dice_float_tabulate, length_map, length_seq.
        reflexivity.
      - intros c Hc. unfold float_zeroed.
        rewrite zeros_tabulate, normalize_tabulate, set_columns_tabulate,
          set_rows_tabulate.
        apply dice_float_zero_class; [exact Hc|]. intros k _.
        rewrite sum_list_map_zero.
        destruct (clip_min_of_Z_nonzero 0) as (q & -> & Hq).
        change (Float.of_Z 0) with Float.zero.
        rewrite (float_div_zero_l Hq).
        destruct (mem c (ignored self)), (mem k (ignored self));
          split; reflexivity. }
    rewrite Hd. rewrite nanmean_all_nan; [reflexivity|].
    apply np_delete_Forall, Forall_forall. intros x Hx.
    apply repeat_spec in Hx. exact Hx.
  - rewrite (dice_value_int self eq_refl Hign).
    cbn [self ConfusionMatrixBasedMetric.conf_matrix
         ConfusionMatrix.num_classes ConfusionMatrix.conf].
    assert (He : effective_counts self = zeros n).
    { unfold effective_counts. apply zeroed_zeros. }
    rewrite He.
    assert (Hd : DiceCoefficient.dice_int n (zeros n) = repeat NaN n).
    { apply list_eq_repeat.
      - rewrite zeros_tabulate, dice_int_tabulate, length_map, length_seq.
        reflexivity.
      - intros c Hc. rewrite zeros_tabulate.
        apply dice_int_zero_class; [exact Hc|]. intros k _.
        split; reflexivity. }
    rewrite Hd. rewrite nanmean_all_nan; [reflexivity|].
    apply np_delete_Forall, Forall_forall. intros x Hx.
    apply repeat_spec in Hx. exact Hx.
Qed.

(** X14.  [reset] brings a metric back to the state its constructor
    built, whatever was accumulated; [value] then returns not-a-number for
    every class and for the mean. *)
Theorem reset_returns_to_the_fresh_state
        (self : ConfusionMatrixBasedMetric.t) :
  let cm := ConfusionMatrixBasedMetric.conf_matrix self in
  let n := ConfusionMatrix.num_classes cm in
  valid_ignore n (ConfusionMatrixBasedMetric.ignore_indices self) ->
  ConfusionMatrixBasedMetric.reset self
  = ConfusionMatrixBasedMetric.mk
      (ConfusionMatrix.init n (ConfusionMatrix.normalized cm))
      (ConfusionMatrixBasedMetric.reduced_probs self)
      (ConfusionMatrixBasedMetric.ignore_indices self)
  /\ DiceCoefficient.value (ConfusionMatrixBasedMetric.reset self)
     = Ok ((NaN, repeat NaN n), ConfusionMatrixBasedMetric.reset self).
Proof.
  destruct self as [[n b m] rp ign]. cbv zeta.
  cbn [ConfusionMatrixBasedMetric.conf_matrix ConfusionMatrix.num_classes
       ConfusionMatrix.normalized ConfusionMatrixBasedMetric.reduced_probs
       ConfusionMatrixBasedMetric.ignore_indices].
  intros Hign. split; [reflexivity|].
  apply (@dice_of_no_counts n b rp ign Hign).
Qed.

Lemma reset_returns_to_the_fresh_state_witness :
  ConfusionMatrixBasedMetric.reset
    (ConfusionMatrixBasedMetric.mk
       (ConfusionMatrix.mk 2 true [[1; 1]; [0; 1]]%Z) false (Some [PyInt 1]))
  = ConfusionMatrixBasedMetric.mk (ConfusionMatrix.init 2 true) false
      (Some [PyInt 1])
  /\ DiceCoefficient.value
       (ConfusionMatrixBasedMetric.reset
          (ConfusionMatrixBasedMetric.mk
             (ConfusionMatrix.mk 2 true [[1; 1]; [0; 1]]%Z) false
             (Some [PyInt 1])))
     = Ok ((NaN, repeat NaN 2),
           ConfusionMatrixBasedMetric.reset
             (ConfusionMatrixBasedMetric.mk
                (ConfusionMatrix.mk 2 true [[1; 1]; [0; 1]]%Z) false
                (Some [PyInt 1]))).
Proof.
  apply (@reset_returns_to_the_fresh_state
           (ConfusionMatrixBasedMetric.mk
              (ConfusionMatrix.mk 2 true [[1; 1]; [0; 1]]%Z) false
              (Some [PyInt 1]))).
  constructor; [|constructor]. exists 1%Z. split; [reflexivity|simpl; lia].
Defined.

(** Index tuples that name the same classes. *)

Lemma mapi_from_ext {A B} (f g : nat -> A -> B) (s : nat) (l : list A) :
  (forall i x, f i x = g i x) -> mapi_from f s l = mapi_from g s l.
Proof.
  intros H. revert s. induction l as [|x l IH]; intros s; [reflexivity|].
  cbn [mapi_from]. rewrite H, IH. reflexivity.
Qed.

Lemma set_columns_same_set {A} (z : A) (i1 i2 : list nat) (m : list (list A)) :
  (forall k, mem k i1 = mem k i2) ->
  set_columns z i1 m = set_columns z i2 m.
Proof.
  intros H. unfold set_columns, mapi. apply map_ext. intros row.
  apply mapi_from_ext. intros j x. rewrite H. reflexivity.
Qed.

Lemma set_rows_same_set {A} (z : A) (i1 i2 : list nat) (m : list (list A)) :
  (forall k, mem k i1 = mem k i2) ->
  set_rows z i1 m = set_rows z i2 m.
Proof.
  intros H. unfold set_rows, mapi.
  apply mapi_from_ext. intros j x. rewrite H. reflexivity.
Qed.

Lemma np_delete_same_set {A} (a : list A) (i1 i2 : list nat) :
  (forall k, mem k i1 = mem k i2) -> np_delete a i1 = np_delete a i2.
Proof.
  intros H. unfold np_delete. f_equal. apply filter_ext.
  intros p. rewrite H. reflexivity.
Qed.

(** X15.  [value] depends on [ignore_indices] only through the set of
    classes it names: two tuples that index the same classes, in any
    order, with repetitions or with negative indices counted from the
    end, give the same results and leave the same counts. *)
Theorem ignore_indices_act_as_a_set
        (cm : ConfusionMatrix.t) (reduced_probs : bool)
        (l1 l2 : list pyatom) (idx1 idx2 : list nat) :
  index_array (ConfusionMatrix.num_classes cm) l1 = Ok idx1 ->
  index_array (ConfusionMatrix.num_classes cm) l2 = Ok idx2 ->
  (forall k, In k idx1 <-> In k idx2) ->
  exists r cm',
    DiceCoefficient.value
      (ConfusionMatrixBasedMetric.mk cm reduced_probs (Some l1))
    = Ok (r, ConfusionMatrixBasedMetric.mk cm' reduced_probs (Some l1))
    /\ DiceCoefficient.value
         (ConfusionMatrixBasedMetric.mk cm reduced_probs (Some l2))
       = Ok (r, ConfusionMatrixBasedMetric.mk cm' reduced_probs (Some l2)).
Proof.
  intros H1 H2 Hset.
  assert (Hmem : forall k, mem k idx1 = mem k idx2).
  { intros k. apply eq_true_iff_eq. rewrite !mem_In. apply Hset. }
  rewrite !value_cases. cbv zeta.
  cbn [ConfusionMatrixBasedMetric.conf_matrix
       ConfusionMatrixBasedMetric.ignore_indices].
  rewrite H1, H2. cbn [bind].
  unfold DiceCoefficient.assign_zero.
  destruct (ConfusionMatrix.value cm) as [|m];
    unfold ConfusionMatrixBasedMetric.set_conf_matrix;
    cbn [ConfusionMatrixBasedMetric.reduced_probs
         ConfusionMatrixBasedMetric.ignore_indices].
  - rewrite (@set_columns_same_set _ 0%Z _ _ _ Hmem),
      (@set_rows_same_set _ 0%Z _ _ _ Hmem),
      (@np_delete_same_set _ _ _ _ Hmem).
    do 2 eexists. split; reflexivity.
  - rewrite (@set_columns_same_set _ Float.zero _ _ _ Hmem),
      (@set_rows_same_set _ Float.zero _ _ _ Hmem),
      (@np_delete_same_set _ _ _ _ Hmem).
    do 2 eexists. split; reflexivity.
Qed.

Lemma ignore_indices_act_as_a_set_witness :
  exists r cm',
    DiceCoefficient.value
      (ConfusionMatrixBasedMetric.mk
         (ConfusionMatrix.mk 3 false [[5; 1; 0]; [2; 3; 0]; [0; 0; 4]]%Z)
         true (Some [PyInt (-1); PyInt 0]))
    = Ok (r, ConfusionMatrixBasedMetric.mk cm' true
               (Some [PyInt (-1); PyInt 0]))
    /\ DiceCoefficient.value
         (ConfusionMatrixBasedMetric.mk
            (ConfusionMatrix.mk 3 false [[5; 1; 0]; [2; 3; 0]; [0; 0; 4]]%Z)
            true (Some [PyInt 0; PyInt 2; PyInt 0]))
       = Ok (r, ConfusionMatrixBasedMetric.mk cm' true
                  (Some [PyInt 0; PyInt 2; PyInt 0])).
Proof.
  apply (@ignore_indices_act_as_a_set
           (ConfusionMatrix.mk 3 false [[5; 1; 0]; [2; 3; 0]; [0; 0; 4]]%Z)
           true [PyInt (-1); PyInt 0] [PyInt 0; PyInt 2; PyInt 0]
           [2; 0] [0; 2; 0]).
  - reflexivity.
  - reflexivity.
  - intros k. simpl. tauto.
Defined.

(** X16.  An empty [ignore_indices] tuple behaves as [None]: [value]
    returns the same results and leaves the counts as they are. *)
Theorem empty_ignore_tuple_ignores_nothing
        (cm : ConfusionMatrix.t) (reduced_probs : bool) :
  exists r,
    DiceCoefficient.value
      (ConfusionMatrixBasedMetric.mk cm reduced_probs None)
    = Ok (r, ConfusionMatrixBasedMetric.mk cm reduced_probs None)
    /\ DiceCoefficient.value
         (ConfusionMatrixBasedMetric.mk cm reduced_probs (Some []))
       = Ok (r, ConfusionMatrixBasedMetric.mk cm reduced_probs (Some [])).
Proof.
  rewrite !value_cases. cbv zeta.
  cbn [ConfusionMatrixBasedMetric.conf_matrix
       ConfusionMatrixBasedMetric.ignore_indices index_array bind].
  unfold DiceCoefficient.assign_zero.
  destruct cm as [n b m]. unfold ConfusionMatrix.value.
  cbn [ConfusionMatrix.normalized]. destruct b.
  - rewrite set_columns_nil, set_rows_nil, np_delete_nil.
    eexists. split; reflexivity.
  - unfold ConfusionMatrix.set_conf. cbn [ConfusionMatrix.conf
      ConfusionMatrix.num_classes ConfusionMatrix.normalized].
    rewrite set_columns_nil, set_rows_nil, np_delete_nil.
    eexists. split; reflexivity.
Qed.

(** X17.  For an [ignore_indices] that is [None] or a tuple of
    integers, booleans, floats and strings, [value] either returns or
    raises [IndexError]; it returns exactly when [ignore_indices] is
    [None] or a tuple that can index the matrix: a mask of [num_classes]
    booleans, or integers in [[-num_classes, num_classes)], where a
    boolean beside an integer counts as 1 or 0 (the empty tuple
    included). *)
Theorem value_raises_exactly_on_unusable_ignore
        (self : ConfusionMatrixBasedMetric.t) :
  let n := ConfusionMatrix.num_classes
             (ConfusionMatrixBasedMetric.conf_matrix self) in
  (usable_ignore n (ConfusionMatrixBasedMetric.ignore_indices self)
   /\ exists r self', DiceCoefficient.value self = Ok (r, self'))
  \/ (~ usable_ignore n (ConfusionMatrixBasedMetric.ignore_indices self)
      /\ DiceCoefficient.value self = Raise IndexError).
Proof.
  cbv zeta. rewrite value_cases. cbv zeta.
  destruct (ConfusionMatrixBasedMetric.ignore_indices self) as [l|].
  - destruct (index_array_usable
                (ConfusionMatrix.num_classes
                   (ConfusionMatrixBasedMetric.conf_matrix self)) l)
      as [[Hu (idx & H)]|[Hu H]]; rewrite H.
    + left. split; [exact Hu|]. cbn [bind].
      destruct (DiceCoefficient.assign_zero _ _ idx) as [cm' v'].
      do 2 eexists. reflexivity.
    + right. split; [exact Hu | reflexivity].
  - left. split; [exact I|]. do 2 eexists. reflexivity.
Qed.

(** A single [True] is stored as the tuple [(True,)], which NumPy reads
    as a mask of one element: [value] raises [IndexError] on three
    classes, and ignores the only class of a matrix with one. *)
Lemma value_reads_booleans_as_a_mask :
  ConfusionMatrixBasedMetric.init 3 true false (PyAtom (PyBool true))
  = Ok (ConfusionMatrixBasedMetric.mk (ConfusionMatrix.init 3 false) true
          (Some [PyBool true]))
  /\ DiceCoefficient.value
       (ConfusionMatrixBasedMetric.mk (ConfusionMatrix.init 3 false) true
          (Some [PyBool true]))
     = Raise IndexError
  /\ index_array 3 [PyBool true; PyBool false; PyBool true] = Ok [0; 2]
  /\ index_array 3 [PyBool true; PyInt 2] = Ok [1; 2]
  /\ index_array 1 [PyBool true] = Ok [0].
Proof. repeat split; reflexivity. Qed.

(** ** Scores, normalized counts and the state invariant *)

(** Labels obtained from scores. *)

Lemma count_true {A} (f : A -> bool) (l : list A) :
  (forall x, In x l -> f x = true) -> count f l = Z.of_nat (length l).
Proof.
  intros H. unfold count. f_equal. f_equal.
  induction l as [|x l IH]; [reflexivity|].
  cbn [filter]. rewrite (H x (or_introl eq_refl)). f_equal.
  apply IH. intros y Hy. apply H. right. exact Hy.
Qed.

Lemma filter_fst_combine_length {A B} (f : A -> bool) (l : list A)
      (l' : list B) :
  length l = length l' ->
  length (filter (fun s => f (fst s)) (combine l l')) = length (filter f l).
Proof.
  revert l'. induction l as [|x l IH]; intros [|y l'] H; try discriminate;
    [reflexivity|].
  cbn [combine filter fst]. simpl in H.
  destruct (f x); cbn [length]; rewrite IH by lia; reflexivity.
Qed.

(** X18.  A metric that takes scores, given a score tensor of shape
    [(N, C, ...)] with [1 <= C <= num_classes] and a target of shape
    [(N, ...)] with fewer than 2^31 elements, counts every pixel whose
    target label is a class: after [add] on a fresh metric the cells sum
    to the number of target labels in [[0, num_classes)]. *)
Theorem scores_count_every_valid_target
        (n : nat) (normalized : bool) (ignore : option (list pyatom))
        (pred : ndarray Q) (target : ndarray Z)
        (d0 d1 : nat) (rest : list nat) :
  shape pred = d0 :: d1 :: rest ->
  1 <= d1 <= n ->
  wf_array target ->
  shape target = d0 :: rest ->
  (Z.of_nat (length (data target)) < 2 ^ 31)%Z ->
  exists self',
    ConfusionMatrixBasedMetric.add
      (ConfusionMatrixBasedMetric.mk (ConfusionMatrix.init n normalized)
                                     false ignore)
      (Tensor pred) target
    = Ok self'
    /\ sum_all (ConfusionMatrix.conf
                  (ConfusionMatrixBasedMetric.conf_matrix self'))
       = count (ConfusionMatrix.valid_label n) (data target).
Proof.
  intros Hsh [Hd1 Hdn] Hwf Hst Hsize.
  destruct (argmax_dim1_labels pred Hsh Hd1)
    as (labels & Harg & Hls & Hlwf & Hrange).
  unfold ConfusionMatrixBasedMetric.add.
  cbn [ConfusionMatrixBasedMetric.reduced_probs
       ConfusionMatrixBasedMetric.reduce argmax_dim
       ConfusionMatrixBasedMetric.conf_matrix].
  rewrite Harg. cbn [bind].
  assert (Hss : same_shaped labels target).
  { repeat split; try assumption; [congruence|]. rewrite Hst. discriminate. }
  pose proof (@fresh_add_all n normalized [(labels, target)]) as Hrun.
  cbn [ConfusionMatrix.add_all all_valid_pairs total_size] in Hrun.
  rewrite app_nil_r in Hrun.
  destruct (ConfusionMatrix.add (ConfusionMatrix.init n normalized)
                                labels target) as [cm|e] eqn:Hadd.
  - cbn [bind] in Hrun |- *. eexists. split; [reflexivity|].
    cbn [ConfusionMatrixBasedMetric.set_conf_matrix
         ConfusionMatrixBasedMetric.conf_matrix].
    assert (E : cm = ConfusionMatrix.mk n normalized
                       (counts n (valid_pairs n labels target))).
    { assert (Ok cm = Ok (ConfusionMatrix.mk n normalized
                            (counts n (valid_pairs n labels target))))
        as E; [|congruence].
      apply Hrun; [lia | constructor; [exact Hss | constructor] | lia]. }
    rewrite E. cbn [ConfusionMatrix.conf].
    rewrite sum_all_counts by lia.
    rewrite count_true.
    + unfold valid_pairs, count. f_equal.
      apply filter_fst_combine_length.
      destruct Hss as (Hl & Ht & Hs & _). unfold wf_array in *. congruence.
    + intros s Hs. unfold valid_pairs in Hs. apply filter_In in Hs.
      destruct Hs as [Hin Hv]. rewrite (valid_label_between _ _ Hv).
      assert (Hp : In (snd s) (data labels)).
      { destruct s as [t p]. apply in_combine_r in Hin. exact Hin. }
      rewrite Forall_forall in Hrange.
      specialize (Hrange _ Hp). cbn [andb]. unfold between_edges.
      apply andb_true_intro. split; apply Z.leb_le; lia.
  - exfalso. cbn [bind] in Hrun.
    assert (Raise e = Ok (ConfusionMatrix.mk n normalized
                            (counts n (valid_pairs n labels target))))
      as E; [|discriminate E].
    apply Hrun; [lia | constructor; [exact Hss | constructor] | lia].
Qed.

Lemma scores_count_every_valid_target_witness :
  exists self',
    ConfusionMatrixBasedMetric.add
      (ConfusionMatrixBasedMetric.mk (ConfusionMatrix.init 2 false)
                                     false None)
      (Tensor (mk_ndarray [1; 2; 2] [1 # 10; 9 # 10; 8 # 10; 2 # 10]%Q))
      (mk_ndarray [1; 2] [1; 5]%Z)
    = Ok self'
    /\ sum_all (ConfusionMatrix.conf
                  (ConfusionMatrixBasedMetric.conf_matrix self'))
       = count (ConfusionMatrix.valid_label 2) [1; 5]%Z.
Proof.
  apply (@scores_count_every_valid_target 2 false None
           (mk_ndarray [1; 2; 2] [1 # 10; 9 # 10; 8 # 10; 2 # 10]%Q)
           (mk_ndarray [1; 2] [1; 5]%Z) 1 2 [2]).
  - reflexivity.
  - lia.
  - reflexivity.
  - reflexivity.
  - reflexivity.
Defined.

(** X19.  With [normalized] set, [value] returns a fresh float matrix
    that holds neither not-a-number nor an infinity, whatever the counts
    are; a row without counts stays all zero, and for non-negative counts
    every entry lies in [[0, 1]]. *)
Theorem normalized_value_is_finite (n : nat) (cm : ConfusionMatrix.t) :
  ConfusionMatrix.num_classes cm = n ->
  ConfusionMatrix.normalized cm = true ->
  square n (ConfusionMatrix.conf cm) ->
  exists m,
    ConfusionMatrix.value cm = ConfusionMatrix.Fresh m
    /\ (forall i j, i < n -> j < n ->
          exists q, nth j (nth i m []) NaN = Fin q)
    /\ (forall i, i < n ->
          (forall j, j < n -> cell (ConfusionMatrix.conf cm) i j = 0%Z) ->
          nth i m [] = repeat Float.zero n)
    /\ (non_negative (ConfusionMatrix.conf cm) ->
        forall i j, i < n -> j < n ->
          within 0 1 (nth j (nth i m []) NaN) = true).
Proof.
  destruct cm as [n' b conf]. cbn [ConfusionMatrix.num_classes
    ConfusionMatrix.normalized ConfusionMatrix.conf].
  intros -> -> Hsq. unfold ConfusionMatrix.value.
  cbn [ConfusionMatrix.normalized ConfusionMatrix.conf].
  set (s := fun i => sum_list (map (cell conf i) (seq 0 n))).
  assert (Hnorm : ConfusionMatrix.normalize conf
                  = tabulate n
                      (fun i j =>
                         Float.div (Float.of_Z (cell conf i j))
                           (Float.clip_min ConfusionMatrix.epsilon
                              (Float.of_Z (s i))))).
  { rewrite (square_tabulate Hsq) at 1. apply normalize_tabulate. }
  eexists. split; [reflexivity|]. rewrite Hnorm.
  assert (Hentry : forall i j, i < n -> j < n ->
            nth j (nth i (tabulate n
                     (fun i j => Float.div (Float.of_Z (cell conf i j))
                        (Float.clip_min ConfusionMatrix.epsilon
                           (Float.of_Z (s i))))) []) NaN
            = Float.div (Float.of_Z (cell conf i j))
                (Float.clip_min ConfusionMatrix.epsilon (Float.of_Z (s i)))).
  { intros i j Hi Hj. rewrite tabulate_row by exact Hi.
    rewrite (nth_map_seq _ 0 NaN Hj). reflexivity. }
  split; [|split].
  - intros i j Hi Hj. rewrite Hentry by assumption.
    destruct (clip_min_of_Z_nonzero (s i)) as (q & -> & Hq).
    unfold Float.div, Float.of_Z.
    rewrite (proj2 (is_zero_false q) Hq). eexists. reflexivity.
  - intros i Hi Hzero. rewrite tabulate_row by exact Hi.
    rewrite <- (map_const_seq Float.zero 0 n).
    apply map_ext_in. intros j Hj. apply in_seq in Hj.
    rewrite Hzero by lia.
    destruct (clip_min_of_Z_nonzero (s i)) as (q & -> & Hq).
    apply float_div_zero_l, Hq.
  - intros Hnn i j Hi Hj. rewrite Hentry by assumption.
    pose proof (non_negative_cells Hsq Hnn) as Hcells.
    assert (Hle : (0 <= cell conf i j <= s i)%Z).
    { split; [apply Hcells; assumption|].
      apply (@sum_list_member (cell conf i) n j);
        [intros k Hk; apply Hcells; assumption | exact Hj]. }
    destruct (Z.eq_dec (s i) 0) as [E|E].
    + assert (cell conf i j = 0%Z) as -> by lia.
      destruct (clip_min_of_Z_nonzero (s i)) as (q & -> & Hq).
      change (Float.of_Z 0) with Float.zero.
      rewrite (float_div_zero_l Hq). reflexivity.
    + rewrite clip_min_of_Z_pos by lia.
      destruct (div_of_Z_in_unit Hle) as [Hnan|Hw]; [|exact Hw].
      rewrite float_div_of_Z in Hnan by exact E. discriminate Hnan.
Qed.

Lemma normalized_value_is_finite_witness :
  exists m,
    ConfusionMatrix.value
      (ConfusionMatrix.mk 2 true [[1; 3]; [0; 0]]%Z)
    = ConfusionMatrix.Fresh m
    /\ nth 1 m [] = repeat Float.zero 2.
Proof.
  destruct (@normalized_value_is_finite 2
              (ConfusionMatrix.mk 2 true [[1; 3]; [0; 0]]%Z))
    as (m & Hv & _ & Hzero & _).
  - reflexivity.
  - reflexivity.
  - split; [reflexivity|]. repeat constructor.
  - exists m. split; [exact Hv|]. apply Hzero; [lia|].
    intros j Hj. destruct j as [|[|j]]; [reflexivity | reflexivity | lia].
Defined.

(** X20.  Accumulation keeps the state well formed: after any sequence
    of [add] calls that return, the matrix is still
    [num_classes] x [num_classes] with every cell in the [int32] range,
    and [num_classes] and [normalized] are unchanged. *)
Theorem accumulation_keeps_the_matrix_shape
        (cm cm' : ConfusionMatrix.t) (batches : list batch) :
  ConfusionMatrix.wf cm ->
  ConfusionMatrix.add_all cm batches = Ok cm' ->
  ConfusionMatrix.wf cm'
  /\ ConfusionMatrix.num_classes cm' = ConfusionMatrix.num_classes cm
  /\ ConfusionMatrix.normalized cm' = ConfusionMatrix.normalized cm.
Proof.
  revert cm. induction batches as [|[pred target] rest IH]; intros cm Hwf H.
  - injection H as <-. repeat split; try reflexivity; apply Hwf.
  - cbn [ConfusionMatrix.add_all] in H.
    destruct (ConfusionMatrix.add cm pred target) as [cm1|e] eqn:Hadd;
      [|discriminate].
    cbn [bind] in H. destruct (@add_wf _ _ _ _ Hwf Hadd) as [Hwf1 Hn1].
    destruct (IH cm1 Hwf1 H) as (Hw & Hn & Hb).
    split; [exact Hw|]. split; [congruence|].
    rewrite Hb. rewrite add_increment in Hadd.
    destruct (increment _ pred target); [|discriminate].
    cbn [bind] in Hadd. injection Hadd as <-. reflexivity.
Qed.

Lemma accumulation_keeps_the_matrix_shape_witness :
  ConfusionMatrix.wf
    (ConfusionMatrix.mk 3 false [[0; 0; 0]; [1; 1; 0]; [0; 0; 0]]%Z)
  /\ ConfusionMatrix.num_classes
       (ConfusionMatrix.mk 3 false [[0; 0; 0]; [1; 1; 0]; [0; 0; 0]]%Z)
     = ConfusionMatrix.num_classes (ConfusionMatrix.init 3 false)
  /\ ConfusionMatrix.normalized
       (ConfusionMatrix.mk 3 false [[0; 0; 0]; [1; 1; 0]; [0; 0; 0]]%Z)
     = ConfusionMatrix.normalized (ConfusionMatrix.init 3 false).
Proof.
  apply (@accumulation_keeps_the_matrix_shape
           (ConfusionMatrix.init 3 false)
           (ConfusionMatrix.mk 3 false [[0; 0; 0]; [1; 1; 0]; [0; 0; 0]]%Z)
           [(vector [0; 1]%Z, vector [1; 1]%Z)]).
  - apply init_wf.
  - reflexivity.
Defined.

(** ** The toy input of the notebook *)

Lemma mapi_Z_from_app {A B} (f : Z -> A -> B) (k : Z) (l l' : list A) :
  mapi_Z_from f k (l ++ l')
  = mapi_Z_from f k l ++ mapi_Z_from f (k + Z.of_nat (length l)) l'.
Proof.
  revert k. induction l as [|x l IH]; intros k.
  - cbn [app mapi_Z_from length Z.of_nat]. rewrite Z.add_0_r. reflexivity.
  - cbn [app mapi_Z_from length]. rewrite IH. do 3 f_equal. lia.
Qed.

Lemma mapi_Z_from_row {A B} (f : Z -> A -> B) (k : Z) (g : nat -> A)
      (s m : nat) :
  mapi_Z_from f (k + Z.of_nat s) (map g (seq s m))
  = map (fun c => f (k + Z.of_nat c)%Z (g c)) (seq s m).
Proof.
  revert s. induction m as [|m IH]; intros s; [reflexivity|].
  cbn [seq map mapi_Z_from]. f_equal.
  replace (k + Z.of_nat s + 1)%Z with (k + Z.of_nat (S s))%Z by lia.
  apply IH.
Qed.

Lemma mapi_Z_from_image {A B} (f : Z -> A -> B) (d2 : nat)
      (g : nat -> nat -> A) (s m : nat) :
  mapi_Z_from f (Z.of_nat (s * d2))
    (concat (map (fun r => map (g r) (seq 0 d2)) (seq s m)))
  = concat (map (fun r =>
                   map (fun c => f (Z.of_nat (r * d2 + c)) (g r c))
                       (seq 0 d2))
                (seq s m)).
Proof.
  revert s. induction m as [|m IH]; intros s; [reflexivity|].
  cbn [seq map concat]. rewrite mapi_Z_from_app, length_map, length_seq.
  f_equal.
  - pose proof (mapi_Z_from_row f (Z.of_nat (s * d2)) (g s) 0 d2) as H.
    cbn [Z.of_nat] in H. rewrite Z.add_0_r in H. rewrite H.
    apply map_ext. intros c. f_equal. lia.
  - replace (Z.of_nat (s * d2) + Z.of_nat d2)%Z
      with (Z.of_nat (S s * d2)) by lia.
    apply IH.
Qed.

Lemma repeat_image {A} (v : A) (d1 d2 : nat) :
  repeat v (d1 * d2) = image d1 d2 (fun _ _ => v).
Proof.
  unfold image. induction d1 as [|d1 IH]; [reflexivity|].
  rewrite seq_S, map_app, concat_app. cbn [map concat plus].
  rewrite app_nil_r, <- IH, map_const_seq, <- repeat_app.
  f_equal. lia.
Qed.

Lemma assign_box_image (r0 r1 c0 c1 v : Z) (d1 d2 : nat)
      (g : nat -> nat -> Z) :
  assign_box r0 r1 c0 c1 v (mk_ndarray [1; d1; d2] (image d1 d2 g))
  = mk_ndarray [1; d1; d2]
      (image d1 d2
         (fun r c =>
            if in_box r0 r1 c0 c1 (Z.of_nat r) (Z.of_nat c) then v
            else g r c)).
Proof.
  unfold assign_box, image. cbn [shape data]. f_equal.
  pose proof (mapi_Z_from_image
                (fun k x =>
                   if in_box r0 r1 c0 c1
                        ((k / Z.of_nat d2) mod Z.of_nat d1)%Z
                        (k mod Z.of_nat d2)%Z
                   then v else x) d2 g 0 d1) as H.
  cbn [Nat.mul Z.of_nat] in H. rewrite H. clear H.
  apply f_equal. apply map_ext_in. intros r Hr. apply in_seq in Hr.
  apply map_ext_in. intros c Hc. apply in_seq in Hc.
  assert (Hd2 : (0 < Z.of_nat d2)%Z) by lia.
  replace (Z.of_nat (r * d2 + c)) with (Z.of_nat r * Z.of_nat d2 + Z.of_nat c)%Z
    by lia.
  rewrite Z.div_add_l, Z.div_small, Z.add_0_r by lia.
  rewrite Z.add_comm, Z.mod_add by lia.
  rewrite !Z.mod_small by lia. reflexivity.
Qed.

Lemma ground_truth_image :
  ground_truth = mk_ndarray [1; 224; 224] (image 224 224 ground_truth_label).
Proof.
  unfold ground_truth, full. cbn [size fold_right].
  rewrite Nat.mul_1_l, Nat.mul_1_r, repeat_image, !assign_box_image.
  reflexivity.
Qed.

Lemma count_concat {A} (f : A -> bool) (ls : list (list A)) :
  count f (concat ls) = sum_list (map (count f) ls).
Proof.
  induction ls as [|l ls IH]; [reflexivity|].
  cbn [concat map]. rewrite count_app, IH. reflexivity.
Qed.

Lemma image_length {A} (d1 d2 : nat) (f : nat -> nat -> A) :
  length (image d1 d2 f) = d1 * d2.
Proof.
  unfold image. induction d1 as [|d1 IH]; [reflexivity|].
  rewrite seq_S, map_app, concat_app, length_app, IH. cbn [map concat plus].
  rewrite app_nil_r, length_map, length_seq. lia.
Qed.

Lemma ground_truth_wf : wf_array ground_truth.
Proof.
  rewrite ground_truth_image. unfold wf_array. cbn [shape data size fold_right].
  rewrite image_length. lia.
Qed.

Lemma ground_truth_size :
  (Z.of_nat (length (data ground_truth)) < 2 ^ 31)%Z.
Proof.
  rewrite ground_truth_image. cbn [data]. rewrite image_length.
  rewrite Nat2Z.inj_mul. reflexivity.
Qed.

Lemma ground_truth_classes :
  map (fun i => count (fun v => (v =? Z.of_nat i)%Z) (data ground_truth))
      [0; 1; 2]
  = [42676; 2500; 5000]%Z.
Proof.
  rewrite ground_truth_image. cbn [data map]. unfold image.
  rewrite !count_concat, !map_map. vm_compute. reflexivity.
Qed.

Lemma count_fst_combine {A B} (f : A -> bool) (l : list A) (l' : list B) :
  length l = length l' ->
  count (fun s => f (fst s)) (combine l l') = count f l.
Proof.
  intros H. unfold count. rewrite filter_fst_combine_length by exact H.
  reflexivity.
Qed.

Lemma count_filter {A} (f g : A -> bool) (l : list A) :
  count f (filter g l) = count (fun x => g x && f x) l.
Proof.
  induction l as [|x l IH]; [reflexivity|].
  cbn [filter]. rewrite count_cons. destruct (g x); cbn [andb ind].
  - rewrite count_cons, IH. reflexivity.
  - rewrite IH. lia.
Qed.

(** Row [i] of the counts of one call whose predicted labels are classes
    sums to the number of target labels [i]. *)
Lemma row_sum_is_class_size (n : nat) (labels target : ndarray Z) (i : nat) :
  1 <= n -> i < n ->
  length (data target) = length (data labels) ->
  Forall (fun v => (0 <= v < Z.of_nat n)%Z) (data labels) ->
  row_sum (counts n (valid_pairs n labels target)) i
  = count (fun v => (v =? Z.of_nat i)%Z) (data target).
Proof.
  intros Hn Hi Hlen Hrange. rewrite row_sum_counts by assumption.
  unfold valid_pairs.
  rewrite <- (count_fst_combine (fun v => (v =? Z.of_nat i)%Z) _ _ Hlen).
  rewrite count_filter. apply count_ext. intros [t p] Hin.
  cbn [fst snd].
  pose proof (in_combine_r _ _ _ _ Hin) as Hp.
  rewrite Forall_forall in Hrange. specialize (Hrange _ Hp).
  destruct (ConfusionMatrix.valid_label n t) eqn:Hv; cbn [andb].
  - rewrite valid_label_bin by assumption.
    unfold between_edges.
    replace ((0 <=? p)%Z && (p <=? Z.of_nat n)%Z) with true
      by (symmetry; apply andb_true_intro; split; apply Z.leb_le; lia).
    apply andb_true_r.
  - symmetry. unfold ConfusionMatrix.valid_label in Hv.
    apply andb_false_iff in Hv.
    destruct (Z.eqb_spec t (Z.of_nat i)); [|reflexivity].
    exfalso. destruct Hv as [Hv|Hv];
      [apply Z.leb_gt in Hv | apply Z.ltb_ge in Hv]; lia.
Qed.

(** X21.  For the ground truth of the notebook (a 224 x 224 image with a
    50 x 50 box of class 1 and a 100 x 50 box of class 2) and any score
    tensor of shape [(1, 3, 224, 224)], [add] returns and the rows of the
    counts sum to 42676, 2500 and 5000, the sizes of the three classes;
    the rows of the matrix printed in the notebook sum to the same
    numbers. *)
Theorem notebook_rows_sum_to_the_class_sizes
        (normalized : bool) (ignore : option (list pyatom))
        (prediction_prob : ndarray Q) :
  shape prediction_prob = [1; 3; 224; 224] ->
  exists self',
    ConfusionMatrixBasedMetric.add
      (ConfusionMatrixBasedMetric.mk (ConfusionMatrix.init 3 normalized)
                                     false ignore)
      (Tensor prediction_prob) ground_truth
    = Ok self'
    /\ map (row_sum (ConfusionMatrix.conf
                       (ConfusionMatrixBasedMetric.conf_matrix self')))
           [0; 1; 2]
       = [42676; 2500; 5000]%Z
    /\ map (row_sum notebook_counts) [0; 1; 2] = [42676; 2500; 5000]%Z.
Proof.
  intros Hsh.
  assert (Hgs : shape ground_truth = [1; 224; 224])
    by (rewrite ground_truth_image; reflexivity).
  pose proof ground_truth_wf as Hgwf.
  destruct (@argmax_dim1_labels prediction_prob 1 3 [224; 224] Hsh
              ltac:(lia))
    as (labels & Harg & Hls & Hlwf & Hrange).
  unfold ConfusionMatrixBasedMetric.add.
  cbn [ConfusionMatrixBasedMetric.reduced_probs
       ConfusionMatrixBasedMetric.reduce argmax_dim
       ConfusionMatrixBasedMetric.conf_matrix].
  rewrite Harg. cbn [bind].
  assert (Hss : same_shaped labels ground_truth).
  { split; [exact Hlwf|]. split; [exact Hgwf|]. split; [congruence|].
    rewrite Hgs. discriminate. }
  assert (Hlen : length (data ground_truth) = length (data labels)).
  { unfold wf_array in Hlwf, Hgwf. rewrite Hlwf, Hgwf, Hls, Hgs.
    reflexivity. }
  pose proof (@fresh_add_all 3 normalized [(labels, ground_truth)]) as Hrun.
  cbn [ConfusionMatrix.add_all all_valid_pairs total_size] in Hrun.
  rewrite app_nil_r, Z.add_0_r in Hrun.
  assert (Hadd : ConfusionMatrix.add (ConfusionMatrix.init 3 normalized)
                   labels ground_truth
                 = Ok (ConfusionMatrix.mk 3 normalized
                         (counts 3 (valid_pairs 3 labels ground_truth)))).
  { destruct (ConfusionMatrix.add _ labels ground_truth) as [cm|e];
      cbn [bind] in Hrun; apply Hrun;
      (lia || (constructor; [exact Hss | constructor])
       || exact ground_truth_size). }
  rewrite Hadd. cbn [bind]. eexists. split; [reflexivity|].
  split; [|reflexivity].
  cbn [ConfusionMatrixBasedMetric.set_conf_matrix
       ConfusionMatrixBasedMetric.conf_matrix ConfusionMatrix.conf].
  rewrite <- ground_truth_classes. apply map_ext_in. intros i Hi.
  apply row_sum_is_class_size;
    [lia | cbn [In] in Hi; lia | exact Hlen | exact Hrange].
Qed.

Lemma notebook_rows_sum_to_the_class_sizes_witness :
  exists self',
    ConfusionMatrixBasedMetric.add
      (ConfusionMatrixBasedMetric.mk (ConfusionMatrix.init 3 false)
                                     false None)
      (Tensor (mk_ndarray [1; 3; 224; 224]
                          (repeat (1 # 3)%Q (3 * 224 * 224))))
      ground_truth
    = Ok self'
    /\ map (row_sum (ConfusionMatrix.conf
                       (ConfusionMatrixBasedMetric.conf_matrix self')))
           [0; 1; 2]
       = [42676; 2500; 5000]%Z
    /\ map (row_sum notebook_counts) [0; 1; 2] = [42676; 2500; 5000]%Z.
Proof.
  apply (@notebook_rows_sum_to_the_class_sizes false None
           (mk_ndarray [1; 3; 224; 224] (repeat (1 # 3)%Q (3 * 224 * 224)))).
  reflexivity.
Defined.

(** ** The Dice quotient in IEEE 754 arithmetic *)

(** X22.  In IEEE 754 binary64, the arithmetic of the unnormalized path,
    the Dice quotient of a class with [tp] true positives
    ([0 < tp < 2^30]), no false positive and no false negative is exactly
    [1.0]: no rounding takes place. *)
Theorem binary64_dice_of_a_perfect_class (tp : Z) :
  (0 < tp < 2 ^ 30)%Z -> binary64_dice tp 0 0 = Binary64.one.
Proof.
  intros H. unfold binary64_dice. rewrite int32_double_exact by lia.
  rewrite !Z.add_0_r. apply binary64_div_of_Z_self; lia.
Qed.

Lemma binary64_dice_of_a_perfect_class_witness :
  binary64_dice 863 0 0 = Binary64.one.
Proof.
  apply (@binary64_dice_of_a_perfect_class 863). split; reflexivity.
Defined.

(** ** The cells [value] writes *)

Lemma cell_zeroed (n : nat) (idx : list nat) (m : matrix) (i j : nat) :
  square n m -> i < n -> j < n ->
  cell (zeroed idx m) i j
  = if mem i idx || mem j idx then 0%Z else cell m i j.
Proof.
  intros Hsq Hi Hj. unfold zeroed. rewrite (square_tabulate Hsq) at 1.
  rewrite set_columns_tabulate, set_rows_tabulate, cell_tabulate
    by assumption.
  destruct (mem i idx), (mem j idx); reflexivity.
Qed.

(** X23.  What [value] does to the state: the settings and the shape
    are kept, and a cell is changed only when [normalized] is unset and its
    row or its column belongs to an ignored class; such a cell becomes
    zero. *)
Theorem value_changes_only_ignored_cells
        (n : nat) (self self' : ConfusionMatrixBasedMetric.t)
        (r : np_float * list np_float) :
  ConfusionMatrix.num_classes (ConfusionMatrixBasedMetric.conf_matrix self)
  = n ->
  square n
    (ConfusionMatrix.conf (ConfusionMatrixBasedMetric.conf_matrix self)) ->
  DiceCoefficient.value self = Ok (r, self') ->
  ConfusionMatrixBasedMetric.reduced_probs self'
  = ConfusionMatrixBasedMetric.reduced_probs self
  /\ ConfusionMatrixBasedMetric.ignore_indices self'
     = ConfusionMatrixBasedMetric.ignore_indices self
  /\ ConfusionMatrix.num_classes
       (ConfusionMatrixBasedMetric.conf_matrix self') = n
  /\ ConfusionMatrix.normalized
       (ConfusionMatrixBasedMetric.conf_matrix self')
     = ConfusionMatrix.normalized
         (ConfusionMatrixBasedMetric.conf_matrix self)
  /\ forall i j, i < n -> j < n ->
       cell (ConfusionMatrix.conf
               (ConfusionMatrixBasedMetric.conf_matrix self')) i j
       = if negb (ConfusionMatrix.normalized
                    (ConfusionMatrixBasedMetric.conf_matrix self))
            && (mem i (ignored self) || mem j (ignored self))
         then 0%Z
         else cell (ConfusionMatrix.conf
                      (ConfusionMatrixBasedMetric.conf_matrix self)) i j.
Proof.
  destruct self as [[n' b m] rp ign].
  cbn [ConfusionMatrixBasedMetric.conf_matrix ConfusionMatrix.num_classes
       ConfusionMatrix.conf ConfusionMatrix.normalized
       ConfusionMatrixBasedMetric.reduced_probs
       ConfusionMatrixBasedMetric.ignore_indices].
  intros -> Hsq Hv.
  assert (Hkeep : ign = None \/ b = true ->
                  self' = ConfusionMatrixBasedMetric.mk
                            (ConfusionMatrix.mk n b m) rp ign).
  { intros H. eapply dice_value_keeps_counts; [|exact Hv]. exact H. }
  destruct b.
  - rewrite Hkeep by (right; reflexivity). repeat split. 
  - destruct ign as [l|].
    + unfold ignored.
      cbn [ConfusionMatrixBasedMetric.conf_matrix ConfusionMatrix.num_classes
           ConfusionMatrixBasedMetric.ignore_indices].
      destruct (index_array n l) as [idx|e] eqn:Hidx.
      * rewrite (@dice_value_ignoring n rp l idx m Hidx) in Hv.
        injection Hv as _ <-.
        cbn [ConfusionMatrixBasedMetric.conf_matrix
             ConfusionMatrix.num_classes ConfusionMatrix.conf
             ConfusionMatrix.normalized
             ConfusionMatrixBasedMetric.reduced_probs
             ConfusionMatrixBasedMetric.ignore_indices negb andb].
        repeat split. intros i j Hi Hj. apply (cell_zeroed idx Hsq Hi Hj).
      * rewrite value_cases in Hv. cbv zeta in Hv.
        cbn [ConfusionMatrixBasedMetric.conf_matrix
             ConfusionMatrix.num_classes
             ConfusionMatrixBasedMetric.ignore_indices] in Hv.
        rewrite Hidx in Hv. discriminate Hv.
    + rewrite Hkeep by (left; reflexivity). repeat split.
Qed.

Lemma value_changes_only_ignored_cells_witness :
  exists self',
    result_map snd
      (DiceCoefficient.value
         (ConfusionMatrixBasedMetric.mk
            (ConfusionMatrix.mk 2 false [[1; 1]; [0; 1]]%Z) true
            (Some [PyInt 0])))
    = Ok self'
    /\ cell (ConfusionMatrix.conf
               (ConfusionMatrixBasedMetric.conf_matrix self')) 1 1
       = 1%Z
    /\ cell (ConfusionMatrix.conf
               (ConfusionMatrixBasedMetric.conf_matrix self')) 0 1
       = 0%Z.
Proof.
  pose proof (@dice_value_ignoring 2 true [PyInt 0] [0]
                [[1; 1]; [0; 1]]%Z eq_refl) as Hv.
  destruct (@value_changes_only_ignored_cells 2
              (ConfusionMatrixBasedMetric.mk
                 (ConfusionMatrix.mk 2 false [[1; 1]; [0; 1]]%Z) true
                 (Some [PyInt 0]))
              _ _ eq_refl
              (conj eq_refl
                    (Forall_cons [1; 1]%Z eq_refl
                       (Forall_cons [0; 1]%Z eq_refl (Forall_nil _)))) Hv)
    as (_ & _ & _ & _ & Hcells).
  eexists. split; [rewrite Hv; reflexivity|]. split.
  - apply (Hcells 1 1); lia.
  - apply (Hcells 0 1); lia.
Defined.
